(** * map-leads-backend: the search pipeline and the account lifecycle

    A shallow embedding of [src/index.ts].  Pure helpers are Rocq
    functions; the two request handlers run in a small state-and-exception
    monad over an explicit document store, with the outside world (clock,
    random source, store availability, HTTP peers) given as an environment
    of oracles. *)

From Stdlib Require Import Ascii String QArith Qround Lqa.
From stdpp Require Import gmap strings list fin_maps fin_sets pretty.

Set Warnings "-register-all".
Local Open Scope Z_scope.

(** ** Untyped provider values

    What [JSON.parse] can return.  A JavaScript number is either finite
    (kept as a rational, the code never computes with it) or one of the
    three non-finite values. *)

Inductive number :=
  | Finite (q : Q)
  | NaN
  | Infinity (negative : bool).

Inductive json :=
  | JNull
  | JBool (b : bool)
  | JNumber (n : number)
  | JString (s : string)
  | JArray (xs : list json)
  | JObject (fields : list (string * json)).

(** The result of reading a property: [None] is [undefined]. *)
Definition jsvalue := option json.

Fixpoint lookup_field (k : string) (fs : list (string * json)) : jsvalue :=
  match fs with
  | [] => None
  | (k', v) :: rest => if String.eqb k k' then Some v else lookup_field k rest
  end.

(** What evaluating an expression gives: a value, or a thrown [TypeError]
    with its message. *)
Inductive Evaluation (A : Type) :=
  | Value (a : A)
  | TypeError (message : string).
Arguments Value {A} a.
Arguments TypeError {A} message.

#[global] Instance Evaluation_ret : MRet Evaluation := fun A a => Value a.

#[global] Instance Evaluation_bind : MBind Evaluation :=
  fun A B k e =>
    match e with
    | Value a => k a
    | TypeError message => TypeError message
    end.

Definition cannot_read (what k : string) : string :=
  "Cannot read properties of " +:+ what +:+ " (reading '" +:+ k +:+ "')".

(** [v.k].  Reading a property of [null] or of [undefined] throws.  None of
    the property names the code reads ([title], [location], [lat], ...)
    exists on the prototypes of strings, numbers, booleans, arrays or
    objects, so only an object that has the field answers with a value. *)
Definition prop (k : string) (v : jsvalue) : Evaluation jsvalue :=
  match v with
  | None => TypeError (cannot_read "undefined" k)
  | Some JNull => TypeError (cannot_read "null" k)
  | Some (JObject fs) => Value (lookup_field k fs)
  | Some _ => Value None
  end.

(** [v ?? {}] *)
Definition or_empty_object (v : jsvalue) : jsvalue :=
  match v with
  | None | Some JNull => Some (JObject [])
  | Some x => Some x
  end.

(** ** Strings

    A [string] is a sequence of code units below U+0100.  The white space
    and line terminators of ECMAScript in that range are U+0009..U+000D,
    U+0020 and U+00A0. *)

Definition is_whitespace (c : ascii) : bool :=
  let n := nat_of_ascii c in
  ((9 <=? n)%nat && (n <=? 13)%nat) || (n =? 32)%nat || (n =? 160)%nat.

Fixpoint trim_start (cs : list ascii) : list ascii :=
  match cs with
  | [] => []
  | c :: rest => if is_whitespace c then trim_start rest else cs
  end.

Definition trim (s : string) : string :=
  string_of_list_ascii
    (rev (trim_start (rev (trim_start (list_ascii_of_string s))))).

(** ** Lead payloads *)

Record LeadPayload := mkLeadPayload {
  business_name : option string;
  address : option string;
  phone : option string;
  website : option string;
  email : option string;
  rating : option Q;
  reviews_count : option Q;
  category : option string;
  latitude : option Q;
  longitude : option Q;
}.

Definition parseNumber (value : jsvalue) : option Q :=
  match value with
  | Some (JNumber (Finite q)) => Some q
  | _ => None
  end.

Definition asStringOrNull (value : jsvalue) : option string :=
  match value with
  | Some (JString s) =>
      if (0 <? String.length (trim s))%nat then Some s else None
  | _ => None
  end.

(** The body of the [map] of [normalizeApifyLeads]: the reads in the order
    of the source, each of which may throw. *)
Definition normalizeApifyLead (raw : json) : Evaluation LeadPayload :=
  let item := or_empty_object (Some raw) in
  item_location ← prop "location" item;
  let location := or_empty_object item_location in
  item_categories ← prop "categories" item;
  let categories :=
    match item_categories with
    | Some (JArray xs) => xs
    | _ => []
    end in
  item_title ← prop "title" item;
  item_address ← prop "address" item;
  item_phone ← prop "phone" item;
  item_website ← prop "website" item;
  item_email ← prop "email" item;
  item_totalScore ← prop "totalScore" item;
  item_reviewsCount ← prop "reviewsCount" item;
  location_lat ← prop "lat" location;
  location_lng ← prop "lng" location;
  mret {| business_name := asStringOrNull item_title;
          address := asStringOrNull item_address;
          phone := asStringOrNull item_phone;
          website := asStringOrNull item_website;
          email := asStringOrNull item_email;
          rating := parseNumber item_totalScore;
          reviews_count := parseNumber item_reviewsCount;
          category := asStringOrNull (head categories);
          latitude := parseNumber location_lat;
          longitude := parseNumber location_lng |}.

(** [items.map(...)]: the first record that throws ends the whole call. *)
Fixpoint normalizeApifyLeads (items : list json)
    : Evaluation (list LeadPayload) :=
  match items with
  | [] => mret []
  | raw :: rest =>
      lead ← normalizeApifyLead raw;
      leads ← normalizeApifyLeads rest;
      mret (lead :: leads)
  end.

(** [chunkArray]: the loop advances [i] by [chunkSize] and pushes
    [items.slice(i, i + chunkSize)] while [i < items.length].  The fuel is
    the number of elements left, which is enough when [chunkSize > 0]; with
    [chunkSize = 0] the source never leaves the loop and the model stops
    when the fuel does. *)
Fixpoint chunk_loop {T} (fuel : nat) (items : list T) (chunkSize : nat)
    : list (list T) :=
  match fuel, items with
  | _, [] => []
  | O, _ => []
  | S fuel', _ =>
      take chunkSize items :: chunk_loop fuel' (drop chunkSize items) chunkSize
  end.

Definition chunkArray {T} (items : list T) (chunkSize : nat) : list (list T) :=
  chunk_loop (length items) items chunkSize.

(** ** Stored documents

    Firestore documents are schemaless and [set(..., {merge: true})] creates
    or extends a document field by field, so a stored document carries any
    subset of its interface's fields: every field is optional, [None] is an
    absent field.  A nullable field that a merge can reset to [null] is an
    [option (option _)], the inner [None] being [null]. *)

Inductive SearchStatus := queued | running | completed | failed.

Inductive PlanType := starter | growth | pro.

Definition PLAN_LIMITS (plan : PlanType) : Z :=
  match plan with
  | starter => 2000
  | growth => 5000
  | pro => 15000
  end.

Record DecodedUser := mkDecodedUser {
  uid : string;
  user_email : option string;
}.

Record SearchData := mkSearchData {
  s_user_id : option string;
  s_keyword : option string;
  s_city : option string;
  s_country : option string;
  s_max_results : option Z;
  s_status : option SearchStatus;
  s_total_results : option Z;
  s_error_message : option (option string);
  s_apify_run_id : option string;
  s_updated_at : option string;
}.

Record ProfileData := mkProfileData {
  p_email : option string;
  p_full_name : option (option string);
  p_plan : option PlanType;
  p_leads_used : option Z;
  p_leads_limit : option Z;
  p_is_suspended : option bool;
  p_suspended_at : option (option string);
  p_updated_at : option string;
}.

(** A lead document is the payload spread with three more fields. *)
Record LeadDoc := mkLeadDoc {
  l_lead : LeadPayload;
  l_search_id : option string;
  l_user_id : option string;
  l_created_at : option string;
}.

Record SubscriptionDoc := mkSubscriptionDoc {
  sub_user_id : option string;
  sub_plan : option PlanType;
  sub_status : option string;
  sub_updated_at : option string;
  sub_created_at : option string;
}.

Definition no_search_fields : SearchData :=
  mkSearchData None None None None None None None None None None.

Definition no_profile_fields : ProfileData :=
  mkProfileData None None None None None None None None.

Definition no_subscription_fields : SubscriptionDoc :=
  mkSubscriptionDoc None None None None None.

Definition no_lead_fields : LeadDoc :=
  mkLeadDoc (mkLeadPayload None None None None None None None None None None)
    None None None.

(** A field of the patch wins over the stored one. *)
Definition merged {A} (patch stored : option A) : option A :=
  match patch with
  | Some v => Some v
  | None => stored
  end.

Definition merge_search (patch doc : SearchData) : SearchData :=
  {| s_user_id := merged (s_user_id patch) (s_user_id doc);
     s_keyword := merged (s_keyword patch) (s_keyword doc);
     s_city := merged (s_city patch) (s_city doc);
     s_country := merged (s_country patch) (s_country doc);
     s_max_results := merged (s_max_results patch) (s_max_results doc);
     s_status := merged (s_status patch) (s_status doc);
     s_total_results := merged (s_total_results patch) (s_total_results doc);
     s_error_message := merged (s_error_message patch) (s_error_message doc);
     s_apify_run_id := merged (s_apify_run_id patch) (s_apify_run_id doc);
     s_updated_at := merged (s_updated_at patch) (s_updated_at doc) |}.

Definition merge_profile (patch doc : ProfileData) : ProfileData :=
  {| p_email := merged (p_email patch) (p_email doc);
     p_full_name := merged (p_full_name patch) (p_full_name doc);
     p_plan := merged (p_plan patch) (p_plan doc);
     p_leads_used := merged (p_leads_used patch) (p_leads_used doc);
     p_leads_limit := merged (p_leads_limit patch) (p_leads_limit doc);
     p_is_suspended := merged (p_is_suspended patch) (p_is_suspended doc);
     p_suspended_at := merged (p_suspended_at patch) (p_suspended_at doc);
     p_updated_at := merged (p_updated_at patch) (p_updated_at doc) |}.

Definition merge_subscription (patch doc : SubscriptionDoc) : SubscriptionDoc :=
  {| sub_user_id := merged (sub_user_id patch) (sub_user_id doc);
     sub_plan := merged (sub_plan patch) (sub_plan doc);
     sub_status := merged (sub_status patch) (sub_status doc);
     sub_updated_at := merged (sub_updated_at patch) (sub_updated_at doc);
     sub_created_at := merged (sub_created_at patch) (sub_created_at doc) |}.

(** [ref.set({ email }, { merge: true })] on a lead document. *)
Definition set_lead_email (e : string) (doc : LeadDoc) : LeadDoc :=
  let l := l_lead doc in
  {| l_lead :=
       {| business_name := business_name l; address := address l;
          phone := phone l; website := website l; email := Some e;
          rating := rating l; reviews_count := reviews_count l;
          category := category l; latitude := latitude l;
          longitude := longitude l |};
     l_search_id := l_search_id doc;
     l_user_id := l_user_id doc;
     l_created_at := l_created_at doc |}.

(** ** The document store

    A collection maps the ids of its documents to the documents.  The
    handlers hand the ids of a request to [collection.doc(id)], which takes
    its argument for a path: here every id is taken for the name of a
    document, which it is when it holds no slash. *)

Record Store := mkStore {
  profiles : gmap string ProfileData;
  searches : gmap string SearchData;
  leads : gmap string LeadDoc;
  subscriptions : gmap string SubscriptionDoc;
}.

Inductive Collection := Leads | Searches | Profiles | Subscriptions.

(** One write of a batch (a lone [ref.set] or [ref.delete] is a batch of
    one). *)
Inductive WriteOp :=
  | SetLead (id : string) (doc : LeadDoc)
  | MergeLeadEmail (id : string) (e : string)
  | MergeSearch (id : string) (patch : SearchData)
  | MergeProfile (id : string) (patch : ProfileData)
  | MergeSubscription (id : string) (patch : SubscriptionDoc)
  | DeleteDoc (c : Collection) (id : string).

Definition apply_op (op : WriteOp) (s : Store) : Store :=
  match op with
  | SetLead id doc =>
      mkStore (profiles s) (searches s) (<[id := doc]> (leads s))
        (subscriptions s)
  | MergeLeadEmail id e =>
      mkStore (profiles s) (searches s)
        (<[id := set_lead_email e (default no_lead_fields (leads s !! id))]>
           (leads s))
        (subscriptions s)
  | MergeSearch id patch =>
      mkStore (profiles s)
        (<[id := merge_search patch
                   (default no_search_fields (searches s !! id))]>
           (searches s))
        (leads s) (subscriptions s)
  | MergeProfile id patch =>
      mkStore
        (<[id := merge_profile patch
                   (default no_profile_fields (profiles s !! id))]>
           (profiles s))
        (searches s) (leads s) (subscriptions s)
  | MergeSubscription id patch =>
      mkStore (profiles s) (searches s) (leads s)
        (<[id := merge_subscription patch
                   (default no_subscription_fields (subscriptions s !! id))]>
           (subscriptions s))
  | DeleteDoc Leads id =>
      mkStore (profiles s) (searches s) (delete id (leads s))
        (subscriptions s)
  | DeleteDoc Searches id =>
      mkStore (profiles s) (delete id (searches s)) (leads s)
        (subscriptions s)
  | DeleteDoc Profiles id =>
      mkStore (delete id (profiles s)) (searches s) (leads s)
        (subscriptions s)
  | DeleteDoc Subscriptions id =>
      mkStore (profiles s) (searches s) (leads s)
        (delete id (subscriptions s))
  end.

(** A committed batch applies its writes in order, all of them. *)
Definition apply_batch (ops : list WriteOp) (s : Store) : Store :=
  foldl (fun acc op => apply_op op acc) s ops.

(** ** Synthetic leads

    [Math.random()] is an oracle: the samples the function draws are
    [rnd 0], [rnd 1], ...  Doubles are taken as the rationals they denote
    and arithmetic on them as exact. *)

(** [`${v}`] for a possibly absent string field. *)
Definition interpolate (v : option string) : string := default "undefined" v.

(** [s.padStart(n, c)] for a one-character filler. *)
Definition padStart (n : nat) (fill : ascii) (s : string) : string :=
  string_of_list_ascii (replicate (n - String.length s)%nat fill) +:+ s.

(** [Number(x.toFixed(1))]: the closest multiple of one tenth, the larger
    one on a tie. *)
Definition toFixed1 (x : Q) : Q := Qmake (Qfloor (x * 10 + (1 # 2))%Q) 10.

Definition mockLead (search : SearchData) (rnd : nat -> Q) (index : nat)
    : LeadPayload :=
  let ordinal := pretty (S index) in
  {| business_name :=
       Some (interpolate (s_keyword search) +:+ " " +:+ ordinal +:+ " - "
             +:+ interpolate (s_city search));
     address :=
       Some ("Main Street " +:+ ordinal +:+ ", "
             +:+ interpolate (s_city search) +:+ ", "
             +:+ interpolate (s_country search));
     phone :=
       Some ("+1 555 "
             +:+ padStart 4 "0"%char
                   (pretty (Qfloor (rnd (3 * index)%nat * 10000)%Q)));
     website := Some ("https://example" +:+ ordinal +:+ ".com");
     email := None;
     rating :=
       Some (toFixed1 ((32 # 10) + rnd (3 * index + 1)%nat * (16 # 10))%Q);
     reviews_count :=
       Some (inject_Z (Qfloor (rnd (3 * index + 2)%nat * 500)%Q));
     category := s_keyword search;
     latitude := None;
     longitude := None |}.

(** [search.max_results || 100]: an absent or zero cap becomes 100. *)
Definition requested_or_default (search : SearchData) : Z :=
  match s_max_results search with
  | None | Some 0 => 100
  | Some n => n
  end.

(** [Array.from({ length: n }, f)] builds [ToLength(n)] elements, none for
    a negative [n]. *)
Definition buildMockLeads (search : SearchData) (rnd : nat -> Q)
    : list LeadPayload :=
  let maxItems := Z.min (requested_or_default search) 10 in
  map (mockLead search rnd) (seq 0 (Z.to_nat maxItems)).

(** ** The e-mail pattern

    [html.match(/[a-zA-Z0-9._%+-]+@[a-zA-Z0-9.-]+\.[a-zA-Z]{2,}/)]: the
    leftmost match, each quantifier greedy.  The local part is a maximal run
    ending at [@]; in the run of domain characters that follows, the dot
    taken is the last one with a character before it and two letters after
    it, and the match ends with the letters after that dot. *)

Definition is_letter (c : ascii) : bool :=
  let n := nat_of_ascii c in
  ((65 <=? n) && (n <=? 90) || (97 <=? n) && (n <=? 122))%nat.

Definition is_digit (c : ascii) : bool :=
  let n := nat_of_ascii c in ((48 <=? n) && (n <=? 57))%nat.

Definition one_of (cs : string) (c : ascii) : bool :=
  existsb (Ascii.eqb c) (list_ascii_of_string cs).

Definition local_char (c : ascii) : bool :=
  is_letter c || is_digit c || one_of "._%+-" c.

Definition domain_char (c : ascii) : bool :=
  is_letter c || is_digit c || one_of ".-" c.

Fixpoint run (p : ascii -> bool) (cs : list ascii) : list ascii * list ascii :=
  match cs with
  | c :: rest =>
      if p c then let '(r, tl) := run p rest in (c :: r, tl) else ([], cs)
  | [] => ([], [])
  end.

Fixpoint last_dot (cs : list ascii) : option (list ascii) :=
  match cs with
  | [] => None
  | c :: rest =>
      match last_dot rest with
      | Some m => Some (c :: m)
      | None =>
          let letters := fst (run is_letter rest) in
          if Ascii.eqb c "."%char && (2 <=? length letters)%nat
          then Some (c :: letters) else None
      end
  end.

Definition email_at (cs : list ascii) : option (list ascii) :=
  match run local_char cs with
  | (l :: loc, at_sign :: rest) =>
      if Ascii.eqb at_sign "@"%char then
        match fst (run domain_char rest) with
        | d :: dom =>
            match last_dot dom with
            | Some m => Some ((l :: loc) ++ at_sign :: d :: m)%list
            | None => None
            end
        | [] => None
        end
      else None
  | _ => None
  end.

Fixpoint first_email (cs : list ascii) : option (list ascii) :=
  match cs with
  | [] => None
  | _ :: rest =>
      match email_at cs with
      | Some m => Some m
      | None => first_email rest
      end
  end.

Definition match_email (html : string) : option string :=
  string_of_list_ascii <$> first_email (list_ascii_of_string html).

(** ** The outside world *)

Record ApifyRunData := mkApifyRunData {
  run_id : option string;
  defaultDatasetId : option string;
}.

(** The body of the provider's answer, [{ data?: { id?, defaultDatasetId? } }]. *)
Record ApifyRun := mkApifyRun {
  run_data : option ApifyRunData;
}.

Inductive ApifyOutcome :=
  | ApifyUnreachable (message : string)
  | ApifyRefused (status : Z) (details : string)
  | ApifyUnreadable (message : string)
  | ApifyAccepted (run : ApifyRun).

Inductive DatasetOutcome :=
  | DatasetUnreachable (message : string)
  | DatasetUnreadable (message : string)
  | DatasetItems (items : json).

Inductive PageOutcome :=
  | PageUnreachable (message : string)
  | PageText (html : string).

(** Everything the handlers cannot decide themselves.  The sequences are
    indexed by how many readings, samples or requests came before. *)
Record Env := mkEnv {
  APIFY_TOKEN : option string;
  clock_reading : nat -> string;
  random_sample : nat -> Q;
  store_fault : nat -> option string;
  apify_reply : nat -> string -> option Z -> ApifyOutcome;
  dataset_reply : nat -> string -> DatasetOutcome;
  page_reply : nat -> string -> PageOutcome;
}.

Inductive Event :=
  | Committed (ops : list WriteOp)
  | IdentityUpdated (user : string) (disabled : bool)
  | IdentityDeleted (user : string)
  | ProviderRun (query : string) (cap : option Z)
  | DatasetRead (dataset : string)
  | PageFetched (url : string).

(** The store, the identity service's accounts (each with its [disabled]
    flag), the document ids handed out so far, the journal of effects in the
    order they happened, and the positions in the environment's sequences. *)
Record World := mkWorld {
  db : Store;
  identities : gmap string bool;
  issued : gset string;
  journal : list Event;
  clock : nat;
  rolls : nat;
  calls : nat;
  fetches : nat;
}.

Definition with_db (s : Store) (w : World) : World :=
  mkWorld s (identities w) (issued w) (journal w) (clock w) (rolls w)
    (calls w) (fetches w).

Definition with_identities (ids : gmap string bool) (w : World) : World :=
  mkWorld (db w) ids (issued w) (journal w) (clock w) (rolls w) (calls w)
    (fetches w).

Definition record (e : Event) (w : World) : World :=
  mkWorld (db w) (identities w) (issued w) (journal w ++ [e]) (clock w)
    (rolls w) (calls w) (fetches w).

(** ** The monad of the handlers

    A computation ends with a value or with a thrown [Error] (its message);
    [Unfinished] is a loop of the model out of fuel, which no handler
    catches. *)

Inductive Outcome (A : Type) :=
  | Done (a : A)
  | Thrown (message : string)
  | Unfinished.
Arguments Done {A} a.
Arguments Thrown {A} message.
Arguments Unfinished {A}.

Definition M (A : Type) : Type := World -> Outcome A * World.

Definition ret {A} (a : A) : M A := fun w => (Done a, w).

Definition throw {A} (message : string) : M A := fun w => (Thrown message, w).

Definition bind {A B} (c : M A) (k : A -> M B) : M B :=
  fun w =>
    match c w with
    | (Done a, w') => k a w'
    | (Thrown m, w') => (Thrown m, w')
    | (Unfinished, w') => (Unfinished, w')
    end.

Notation "x <- c ;; k" := (bind c (fun x => k))
  (at level 100, c at next level, right associativity).
Notation "c ;;; k" := (bind c (fun _ => k))
  (at level 100, right associativity).

(** An expression evaluated inside a handler: its [TypeError] is thrown. *)
Definition evaluate {A} (e : Evaluation A) : M A :=
  match e with
  | Value a => ret a
  | TypeError message => throw message
  end.

(** [try { body } catch (error) { handler(error.message) }] *)
Definition try_catch {A} (body : M A) (handler : string -> M A) : M A :=
  fun w =>
    match body w with
    | (Thrown m, w') => handler m w'
    | r => r
    end.

(** [promise.catch(() => undefined)] *)
Definition swallow (c : M unit) : M unit := try_catch c (fun _ => ret tt).

Fixpoint for_each {A} (xs : list A) (f : A -> M unit) : M unit :=
  match xs with
  | [] => ret tt
  | x :: rest => f x ;;; for_each rest f
  end.

Fixpoint traverse {A B} (xs : list A) (f : A -> M B) : M (list B) :=
  match xs with
  | [] => ret []
  | x :: rest => y <- f x ;; ys <- traverse rest f ;; ret (y :: ys)
  end.

Section Handlers.

Context (env : Env).

Definition nowIso : M string :=
  fun w =>
    (Done (clock_reading env (clock w)),
     mkWorld (db w) (identities w) (issued w) (journal w) (S (clock w))
       (rolls w) (calls w) (fetches w)).

(** One request to the store or to the identity service: it is served, or
    it rejects with an [Error]. *)
Definition request : M unit :=
  fun w =>
    let w' := mkWorld (db w) (identities w) (issued w) (journal w) (clock w)
                (rolls w) (S (calls w)) (fetches w) in
    match store_fault env (calls w) with
    | None => (Done tt, w')
    | Some m => (Thrown m, w')
    end.

Definition read {A} (f : Store -> A) : M A :=
  request ;;; fun w => (Done (f (db w)), w).

(** [batch.commit()], and a lone [ref.set] or [ref.delete]: all the writes
    or none. *)
Definition commit (ops : list WriteOp) : M unit :=
  request ;;;
  fun w => (Done tt, record (Committed ops) (with_db (apply_batch ops (db w)) w)).

(** [db.collection("leads").doc()]: a reference with an id never used
    before. *)
Definition new_lead_ref : M string :=
  fun w =>
    let id := fresh (dom (leads (db w)) ∪ issued w) in
    (Done id,
     mkWorld (db w) (identities w) ({[id]} ∪ issued w) (journal w) (clock w)
       (rolls w) (calls w) (fetches w)).

Definition completed_patch (total : Z) (now : string) : SearchData :=
  mkSearchData None None None None None (Some completed) (Some total)
    (Some None) None (Some now).

Definition failed_patch (message now : string) : SearchData :=
  mkSearchData None None None None None (Some failed) None
    (Some (Some message)) None (Some now).

Definition running_patch (now : string) : SearchData :=
  mkSearchData None None None None None (Some running) None (Some None) None
    (Some now).

Definition usage_patch (used : Z) (now : string) : ProfileData :=
  mkProfileData None None None (Some used) None None None (Some now).

Definition lead_write (userId searchId : string) (lead : LeadPayload)
    : M WriteOp :=
  leadRef <- new_lead_ref ;;
  now <- nowIso ;;
  ret (SetLead leadRef (mkLeadDoc lead (Some searchId) (Some userId) (Some now))).

Definition finalize_chunk (userId searchId : string) (total : nat)
    (currentLeadsUsed : Z) (isLastChunk : bool) (chunk : list LeadPayload)
    : M unit :=
  sets <- traverse chunk (lead_write userId searchId) ;;
  final <-
    (if isLastChunk then
       t1 <- nowIso ;;
       t2 <- nowIso ;;
       ret [MergeSearch searchId (completed_patch (Z.of_nat total) t1);
            MergeProfile userId
              (usage_patch (currentLeadsUsed + Z.of_nat total) t2)]
     else ret []) ;;
  commit (sets ++ final).

Fixpoint finalize_chunks (userId searchId : string) (total : nat)
    (currentLeadsUsed : Z) (count index : nat) (chunks : list (list LeadPayload))
    : M unit :=
  match chunks with
  | [] => ret tt
  | chunk :: rest =>
      finalize_chunk userId searchId total currentLeadsUsed
        (index =? count - 1)%nat chunk ;;;
      finalize_chunks userId searchId total currentLeadsUsed count (S index) rest
  end.

Definition writeLeadsAndFinalize (userId searchId : string)
    (leads : list LeadPayload) (currentLeadsUsed : Z) : M unit :=
  if (length leads =? 0)%nat then
    now <- nowIso ;;
    commit [MergeSearch searchId (completed_patch 0 now)]
  else
    let chunks := chunkArray leads 400 in
    finalize_chunks userId searchId (length leads) currentLeadsUsed
      (length chunks) 0 chunks.

(** *** E-mail enrichment *)

(** Truthiness of a [string | null] value. *)
Definition truthy (v : option string) : bool :=
  match v with
  | Some s => negb (String.eqb s "")
  | None => false
  end.

Definition fetch_page (url : string) : M string :=
  fun w =>
    let w' := mkWorld (db w) (identities w) (issued w)
                (journal w ++ [PageFetched url]) (clock w) (rolls w) (calls w)
                (S (fetches w)) in
    match page_reply env (fetches w) url with
    | PageUnreachable m => (Thrown m, w')
    | PageText html => (Done html, w')
    end.

(** The ids of [leads.where("search_id", "==", searchId)
    .where("website", "==", site)], in the store's order. *)
Definition leads_of_site (searchId : string) (site : option string)
    (s : Store) : list string :=
  fst <$> map_to_list
            (filter (fun kv => l_search_id kv.2 = Some searchId
                               ∧ website (l_lead kv.2) = site)
               (leads s)).

Definition enrich_candidates (leads : list LeadPayload) : list LeadPayload :=
  take 20 (List.filter (fun lead => truthy (website lead)
                                    && negb (truthy (email lead))) leads).

Definition enrich_lead (searchId : string) (lead : LeadPayload) : M unit :=
  swallow (
    html <- fetch_page (default "" (website lead)) ;;
    match match_email html with
    | None => ret tt
    | Some found =>
        leadSnapshot <-
          read (fun s => take 1 (leads_of_site searchId (website lead) s)) ;;
        match leadSnapshot with
        | [] => ret tt
        | doc :: _ => commit [MergeLeadEmail doc found]
        end
    end).

Definition maybeEnrichEmails (plan : PlanType) (searchId : string)
    (leads : list LeadPayload) : M unit :=
  match plan with
  | starter => ret tt
  | growth | pro =>
      for_each (enrich_candidates leads) (enrich_lead searchId)
  end.

(** *** Cascading deletion *)

Definition owned_by {D} (owner : D -> option string) (userId : string)
    (m : gmap string D) : list string :=
  fst <$> map_to_list (filter (fun kv => owner kv.2 = Some userId) m).

(** The ids of [collection.where("user_id", "==", userId)]; a profile has
    no [user_id] field. *)
Definition user_docs (c : Collection) (userId : string) (s : Store)
    : list string :=
  match c with
  | Leads => owned_by l_user_id userId (leads s)
  | Searches => owned_by s_user_id userId (searches s)
  | Subscriptions => owned_by sub_user_id userId (subscriptions s)
  | Profiles => []
  end.

Fixpoint deleteByUserId_loop (fuel : nat) (c : Collection) (userId : string)
    : M unit :=
  match fuel with
  | O => fun w => (Unfinished, w)
  | S fuel' =>
      snapshot <- read (fun s => take 400 (user_docs c userId s)) ;;
      match snapshot with
      | [] => ret tt
      | _ =>
          commit (DeleteDoc c <$> snapshot) ;;;
          if (length snapshot <? 400)%nat then ret tt
          else deleteByUserId_loop fuel' c userId
      end
  end.

(** Every round but the last removes 400 documents, so one round more than
    there are documents to remove is enough. *)
Definition deleteByUserId (c : Collection) (userId : string) : M unit :=
  fun w =>
    deleteByUserId_loop (S (length (user_docs c userId (db w)))) c userId w.

(** *** The identity service *)

Definition no_user_record : string :=
  "There is no user record corresponding to the provided identifier.".

Definition updateUser (userId : string) (disabled : bool) : M unit :=
  request ;;;
  fun w =>
    match identities w !! userId with
    | Some _ =>
        (Done tt,
         record (IdentityUpdated userId disabled)
           (with_identities (<[userId := disabled]> (identities w)) w))
    | None => (Thrown no_user_record, w)
    end.

Definition deleteUser (userId : string) : M unit :=
  request ;;;
  fun w =>
    match identities w !! userId with
    | Some _ =>
        (Done tt,
         record (IdentityDeleted userId)
           (with_identities (delete userId (identities w)) w))
    | None => (Thrown no_user_record, w)
    end.

(** *** Responses *)

Inductive Mode := demo | live.

Inductive Body :=
  | ErrorBody (error : string)
  | RunBody (mode : Mode) (leads : nat)
  | SuccessBody.

Record Response := mkResponse {
  status_code : Z;
  body : Body;
}.

Definition sendError (status : Z) (message : string) : Response :=
  mkResponse status (ErrorBody message).

Definition res_json (b : Body) : Response := mkResponse 200 b.

(** What [parseBearerToken] and [verifyIdToken] make of the request. *)
Inductive AuthOutcome :=
  | NoToken
  | InvalidToken
  | Verified (user : DecodedUser).

Definition requireAuthenticatedUser (auth : AuthOutcome)
    : Response + DecodedUser :=
  match auth with
  | NoToken => inl (sendError 401 "Unauthorized")
  | InvalidToken => inl (sendError 401 "Invalid token")
  | Verified user => inr user
  end.

(** *** POST /api/run-apify-search *)

Definition draw_mock_leads (search : SearchData) : M (list LeadPayload) :=
  fun w =>
    let mock := buildMockLeads search
                  (fun k => random_sample env (rolls w + k)%nat) in
    (Done mock,
     mkWorld (db w) (identities w) (issued w) (journal w) (clock w)
       (rolls w + 3 * length mock)%nat (calls w) (fetches w)).

Definition start_provider_run (query : string) (cap : option Z) : M ApifyRun :=
  fun w =>
    let w' := mkWorld (db w) (identities w) (issued w)
                (journal w ++ [ProviderRun query cap]) (clock w) (rolls w)
                (calls w) (S (fetches w)) in
    match apify_reply env (fetches w) query cap with
    | ApifyUnreachable m => (Thrown m, w')
    | ApifyRefused status details =>
        (Thrown ("Apify error [" +:+ pretty status +:+ "]: " +:+ details), w')
    | ApifyUnreadable m => (Thrown m, w')
    | ApifyAccepted run => (Done run, w')
    end.

Definition read_dataset (dataset : string) : M json :=
  fun w =>
    let w' := mkWorld (db w) (identities w) (issued w)
                (journal w ++ [DatasetRead dataset]) (clock w) (rolls w)
                (calls w) (S (fetches w)) in
    match dataset_reply env (fetches w) dataset with
    | DatasetUnreachable m => (Thrown m, w')
    | DatasetUnreadable m => (Thrown m, w')
    | DatasetItems items => (Done items, w')
    end.

Definition run_live (user : DecodedUser) (searchId : string)
    (search : SearchData) (leadsUsed : Z) (plan : PlanType) : M Response :=
  let searchQuery :=
    interpolate (s_keyword search) +:+ " in " +:+ interpolate (s_city search)
    +:+ ", " +:+ interpolate (s_country search) in
  apifyRun <- start_provider_run searchQuery (s_max_results search) ;;
  (if truthy (run_data apifyRun ≫= run_id) then
     now <- nowIso ;;
     commit [MergeSearch searchId
               (mkSearchData None None None None None None None None
                  (run_data apifyRun ≫= run_id) (Some now))]
   else ret tt) ;;;
  if negb (truthy (run_data apifyRun ≫= defaultDatasetId)) then
    now <- nowIso ;;
    commit [MergeSearch searchId
              (mkSearchData None None None None None (Some completed) (Some 0)
                 None None (Some now))] ;;;
    ret (res_json (RunBody live 0))
  else
    items <- read_dataset (default "" (run_data apifyRun ≫= defaultDatasetId)) ;;
    leads <- match items with
             | JArray xs => evaluate (normalizeApifyLeads xs)
             | _ => ret []
             end ;;
    writeLeadsAndFinalize (uid user) searchId leads leadsUsed ;;;
    maybeEnrichEmails plan searchId leads ;;;
    ret (res_json (RunBody live (length leads))).

Definition run_search (user : DecodedUser) (searchId : string) : M Response :=
  searchSnapshot <- read (fun s => searches s !! searchId) ;;
  match searchSnapshot with
  | None => ret (sendError 404 "Search not found")
  | Some search =>
      if negb (bool_decide (s_user_id search = Some (uid user))) then
        ret (sendError 404 "Search not found")
      else
        profileSnapshot <- read (fun s => profiles s !! uid user) ;;
        match profileSnapshot with
        | None => ret (sendError 500 "Profile not found")
        | Some profile =>
            let leadsUsed := default 0 (p_leads_used profile) in
            let leadsLimit := default 2000 (p_leads_limit profile) in
            let plan := default starter (p_plan profile) in
            if default false (p_is_suspended profile) then
              now <- nowIso ;;
              commit [MergeSearch searchId
                        (failed_patch "Account suspended" now)] ;;;
              ret (sendError 403 "Account suspended")
            else if (leadsLimit <=? leadsUsed)%Z then
              now <- nowIso ;;
              commit [MergeSearch searchId
                        (failed_patch "Leads quota exceeded" now)] ;;;
              ret (sendError 429 "Leads quota exceeded")
            else
              now <- nowIso ;;
              commit [MergeSearch searchId (running_patch now)] ;;;
              if negb (truthy (APIFY_TOKEN env)) then
                mockLeads <- draw_mock_leads search ;;
                writeLeadsAndFinalize (uid user) searchId mockLeads leadsUsed ;;;
                ret (res_json (RunBody demo (length mockLeads)))
              else run_live user searchId search leadsUsed plan
        end
  end.

(** [search_id] is the request's field when it is a string. *)
Definition run_apify_search (auth : AuthOutcome) (search_id : option string)
    : M Response :=
  match requireAuthenticatedUser auth with
  | inl rejected => ret rejected
  | inr user =>
      if negb (truthy search_id) then ret (sendError 400 "search_id required")
      else
        let searchId := default "" search_id in
        try_catch (run_search user searchId)
          (fun message =>
             swallow (now <- nowIso ;;
                      commit [MergeSearch searchId (failed_patch message now)]) ;;;
             ret (sendError 500 message))
  end.

(** *** POST /api/superadmin-users: suspend, restore, delete

    The handler for a requester that passed [requireSuperadmin] and an
    [action] among the three that change an account's standing. *)

Inductive Action := suspend_user | restore_user | delete_user.

Definition lifecycle_action (requester : DecodedUser) (action : Action)
    (userId : string) : M Response :=
  match action with
  | suspend_user =>
      if bool_decide (userId = uid requester) then
        ret (sendError 400 "You cannot suspend your own account")
      else
        t1 <- nowIso ;;
        t2 <- nowIso ;;
        commit [MergeProfile userId
                  (mkProfileData None None None None None (Some true)
                     (Some (Some t1)) (Some t2))] ;;;
        updateUser userId true ;;;
        ret (res_json SuccessBody)
  | restore_user =>
      now <- nowIso ;;
      commit [MergeProfile userId
                (mkProfileData None None None None None (Some false)
                   (Some None) (Some now))] ;;;
      updateUser userId false ;;;
      ret (res_json SuccessBody)
  | delete_user =>
      if bool_decide (userId = uid requester) then
        ret (sendError 400 "You cannot delete your own account")
      else
        deleteByUserId Leads userId ;;;
        deleteByUserId Searches userId ;;;
        swallow (commit [DeleteDoc Subscriptions userId]) ;;;
        swallow (commit [DeleteDoc Profiles userId]) ;;;
        deleteUser userId ;;;
        ret (res_json SuccessBody)
  end.

Definition superadmin_users (requester : DecodedUser) (action : Action)
    (user_id : option string) : M Response :=
  if negb (truthy user_id) then ret (sendError 400 "Valid user_id is required")
  else
    try_catch (lifecycle_action requester action (default "" user_id))
      (fun message => ret (sendError 500 message)).

End Handlers.

(** * The gate of the two endpoints and the rest of the superadmin endpoint *)

(** ** String helpers of the runtime *)

(** [s.startsWith(p)] *)
Fixpoint startsWith (p s : string) : bool :=
  match p, s with
  | EmptyString, _ => true
  | String a p', String b s' => Ascii.eqb a b && startsWith p' s'
  | String _ _, EmptyString => false
  end.

(** [s.slice(n)] for a non-negative [n]. *)
Definition slice_from (n : nat) (s : string) : string :=
  string_of_list_ascii (drop n (list_ascii_of_string s)).

(** [hay.includes(needle)] *)
Fixpoint includes (needle hay : string) : bool :=
  startsWith needle hay
  || match hay with
     | EmptyString => false
     | String _ rest => includes needle rest
     end.

(** [s.toLowerCase()] on code units below U+0100: the letters A..Z and the
    capitals U+00C0..U+00DE, the multiplication sign U+00D7 apart, move up by
    32; every other unit is its own lower case. *)
Definition lower_unit (c : ascii) : ascii :=
  let n := nat_of_ascii c in
  if ((65 <=? n) && (n <=? 90)
      || (192 <=? n) && (n <=? 222) && negb (n =? 215))%nat
  then ascii_of_nat (n + 32)
  else c.

Definition toLowerCase (s : string) : string :=
  string_of_list_ascii (map lower_unit (list_ascii_of_string s)).

(** ** Who is calling *)

(** [parseBearerToken]: [authorization] is the header when the request has
    one. *)
Definition parseBearerToken (authorization : option string) : option string :=
  if negb (truthy authorization)
     || negb (startsWith "Bearer " (default "" authorization))
  then None
  else
    let token := trim (slice_from 7 (default "" authorization)) in
    if String.eqb token "" then None else Some token.

(** The first half of [requireAuthenticatedUser]: the header is parsed and
    the token handed to [adminAuth.verifyIdToken], which decodes it or
    throws. *)
Definition authenticate (verifyIdToken : string -> option DecodedUser)
    (authorization : option string) : AuthOutcome :=
  match parseBearerToken authorization with
  | None => NoToken
  | Some token =>
      match verifyIdToken token with
      | Some decoded => Verified decoded
      | None => InvalidToken
      end
  end.

Definition default_superadmin : string := "afiliadosprobusiness@gmail.com".

(** [SUPERADMIN_EMAIL], from the environment variable of that name when it
    is set. *)
Definition SUPERADMIN_EMAIL (configured : option string) : string :=
  toLowerCase (default default_superadmin configured).

Definition requireSuperadmin (configured : option string) (auth : AuthOutcome)
    : Response + DecodedUser :=
  match requireAuthenticatedUser auth with
  | inl refusal => inl refusal
  | inr user =>
      if negb (String.eqb (toLowerCase (default "" (user_email user)))
                 (SUPERADMIN_EMAIL configured))
      then inl (sendError 403 "Forbidden")
      else inr user
  end.

(** ** Numbers of a request *)

(** [Math.max] and [Math.min] on two numbers. *)
Definition math_max (a b : number) : number :=
  match a, b with
  | NaN, _ | _, NaN => NaN
  | Infinity false, _ | _, Infinity false => Infinity false
  | Infinity true, x | x, Infinity true => x
  | Finite p, Finite q => if Qle_bool p q then Finite q else Finite p
  end.

Definition math_min (a b : number) : number :=
  match a, b with
  | NaN, _ | _, NaN => NaN
  | Infinity true, _ | _, Infinity true => Infinity true
  | Infinity false, x | x, Infinity false => x
  | Finite p, Finite q => if Qle_bool p q then Finite p else Finite q
  end.

(** [Math.min(Math.max(Number(payload.limit ?? 200), 1), 1000)]; [limit] is
    the request's field when it is a number, [None] when it is missing or
    [null]. *)
Definition limit_value (limit : option number) : number :=
  math_min (math_max (default (Finite 200) limit) (Finite 1)) (Finite 1000).

(** ** Listing the accounts *)

(** A [created_at] or [updated_at] as stored: a Firestore [Timestamp], given
    by what [toDate().toISOString()] makes of it, a string, or anything else
    (a missing field too). *)
Inductive TimeField :=
  | TimestampValue (iso : string)
  | StringValue (s : string)
  | OtherValue.

(** One document of a query on [profiles]: its id, its fields, and its
    [created_at], which no handler writes. *)
Record ProfileSnapshot := mkProfileSnapshot {
  snapshot_id : string;
  snapshot_data : ProfileData;
  snapshot_created_at : TimeField;
}.

Record UserRow := mkUserRow {
  row_id : string;
  row_email : string;
  row_full_name : option string;
  row_plan : PlanType;
  row_leads_used : Z;
  row_leads_limit : Z;
  row_is_suspended : bool;
  row_suspended_at : option string;
  row_created_at : string;
  row_updated_at : string;
}.

(** What the superadmin endpoint is answered: a plain response, or the list
    of accounts. *)
Inductive AdminAnswer :=
  | Plain (response : Response)
  | UserList (users : list UserRow).

(** The keys of [PLAN_LIMITS]. *)
Definition plan_name (plan : PlanType) : string :=
  match plan with
  | starter => "starter"
  | growth => "growth"
  | pro => "pro"
  end.

(** The plan a key of [PLAN_LIMITS] names. *)
Definition own_plan (name : string) : option PlanType :=
  if String.eqb name "starter" then Some starter
  else if String.eqb name "growth" then Some growth
  else if String.eqb name "pro" then Some pro
  else None.

(** The property names [PLAN_LIMITS] inherits from [Object.prototype]. *)
Definition inherited_names : list string :=
  ["constructor"; "__defineGetter__"; "__defineSetter__"; "hasOwnProperty";
   "__lookupGetter__"; "__lookupSetter__"; "isPrototypeOf";
   "propertyIsEnumerable"; "toString"; "valueOf"; "__proto__";
   "toLocaleString"].

(** [name in PLAN_LIMITS]: the operator finds the object's own keys and
    the names it inherits. *)
Definition in_PLAN_LIMITS (name : string) : bool :=
  match own_plan name with
  | Some _ => true
  | None => bool_decide (name ∈ inherited_names)
  end.

(** The body of a request to the superadmin endpoint.  [input_action] is
    the field when it is a string and [None] when it is missing or falsy; a
    truthy [action] that is no string is taken as a string that names no
    action.  [input_user_id], [input_plan] and [input_query] are the fields
    when they are strings, [input_limit] when it is a number. *)
Record SuperadminInput := mkSuperadminInput {
  input_action : option string;
  input_user_id : option string;
  input_plan : option string;
  input_query : option string;
  input_limit : option number;
}.

(** What the handlers of the superadmin endpoint cannot decide themselves:
    the environment variable, the verdict of the identity service on a
    token, the query [profiles.orderBy("created_at", "desc").limit(n)]
    (whether the client library takes [n] for a limit, and the documents
    the store returns), and the message with which the client library
    turns down the value [PLAN_LIMITS] has under an inherited name. *)
Record AdminEnv := mkAdminEnv {
  SUPERADMIN_EMAIL_variable : option string;
  verifyIdToken : string -> option DecodedUser;
  limit_refused : number -> option string;
  newest_profiles : number -> Store -> list ProfileSnapshot;
  value_refused : string -> string;
}.

Section Admin.

Context (env : Env) (admin : AdminEnv).

Definition timestampToIso (value : TimeField) : M string :=
  match value with
  | TimestampValue iso => ret iso
  | StringValue s => ret s
  | OtherValue => nowIso env
  end.

Definition user_row (docSnapshot : ProfileSnapshot) : M UserRow :=
  let data := snapshot_data docSnapshot in
  created <- timestampToIso (snapshot_created_at docSnapshot) ;;
  updated <- timestampToIso (match p_updated_at data with
                             | Some s => StringValue s
                             | None => OtherValue
                             end) ;;
  ret {| row_id := snapshot_id docSnapshot;
         row_email := default "" (p_email data);
         row_full_name := default None (p_full_name data);
         row_plan := default starter (p_plan data);
         row_leads_used := default 0 (p_leads_used data);
         row_leads_limit := default 2000 (p_leads_limit data);
         row_is_suspended := default false (p_is_suspended data);
         row_suspended_at := default None (p_suspended_at data);
         row_created_at := created;
         row_updated_at := updated |}.

Definition matches_query (queryText : string) (item : UserRow) : bool :=
  if String.eqb queryText "" then true
  else includes queryText (toLowerCase (row_email item))
       || includes queryText (toLowerCase (default "" (row_full_name item))).

Definition list_users (limit : option number) (query : option string)
    : M (list UserRow) :=
  let limitValue := limit_value limit in
  let queryText := toLowerCase (trim (default "" query)) in
  profilesSnapshot <-
    match limit_refused admin limitValue with
    | Some message => throw message
    | None => read env (newest_profiles admin limitValue)
    end ;;
  users <- traverse profilesSnapshot user_row ;;
  ret (List.filter (matches_query queryText) users).

(** ** Changing a plan *)

(** [plan] passes the test of the source when it is a key of [PLAN_LIMITS]
    or a name that object inherits.  Under an inherited name
    [PLAN_LIMITS[plan]] is a method of [Object.prototype] (for [__proto__],
    that object itself) and no number, so the write asks the client library
    to store a value a profile of this model cannot hold; the request is
    taken to end there, with the error [value_refused admin plan] of the
    library. *)
Definition set_plan (userId : string) (plan : option string) : M Response :=
  if negb (truthy plan) || negb (in_PLAN_LIMITS (default "" plan)) then
    ret (sendError 400 "Valid plan is required")
  else
    now <- nowIso env ;;
    match own_plan (default "" plan) with
    | Some named =>
        commit env [MergeProfile userId
                      (mkProfileData None None (Some named) None
                         (Some (PLAN_LIMITS named)) None None (Some now))] ;;;
        commit env [MergeSubscription userId
                      (mkSubscriptionDoc (Some userId) (Some named)
                         (Some "active") (Some now) (Some now))] ;;;
        ret (res_json SuccessBody)
    | None => throw (value_refused admin (default "" plan))
    end.

(** ** POST /api/superadmin-users, all of it *)

Definition plainly (c : M Response) : M AdminAnswer :=
  response <- c ;; ret (Plain response).

(** The [try] block of the handler. *)
Definition superadmin_actions (requester : DecodedUser)
    (payload : SuperadminInput) : M AdminAnswer :=
  let action := default "" (input_action payload) in
  if String.eqb action "list_users" then
    users <- list_users (input_limit payload) (input_query payload) ;;
    ret (UserList users)
  else if negb (truthy (input_user_id payload)) then
    ret (Plain (sendError 400 "Valid user_id is required"))
  else
    let userId := default "" (input_user_id payload) in
    if String.eqb action "set_plan" then
      plainly (set_plan userId (input_plan payload))
    else if String.eqb action "suspend_user" then
      plainly (lifecycle_action env requester suspend_user userId)
    else if String.eqb action "restore_user" then
      plainly (lifecycle_action env requester restore_user userId)
    else if String.eqb action "delete_user" then
      plainly (lifecycle_action env requester delete_user userId)
    else ret (Plain (sendError 400 "Unknown action")).

Definition superadmin_endpoint (authorization : option string)
    (payload : SuperadminInput) : M AdminAnswer :=
  match requireSuperadmin (SUPERADMIN_EMAIL_variable admin)
          (authenticate (verifyIdToken admin) authorization) with
  | inl refusal => ret (Plain refusal)
  | inr requester =>
      if negb (truthy (input_action payload)) then
        ret (Plain (sendError 400 "action is required"))
      else
        try_catch (superadmin_actions requester payload)
          (fun message => ret (Plain (sendError 500 message)))
  end.

(** ** POST /api/run-apify-search, from the header on *)

Definition search_endpoint (authorization search_id : option string)
    : M Response :=
  run_apify_search env (authenticate (verifyIdToken admin) authorization)
    search_id.

End Admin.

(** * Specifications *)

(** ** What the normalizer promises *)

(** Only white space, or nothing at all. *)
Definition blank (s : string) : Prop :=
  Forall (fun c => is_whitespace c = true) (list_ascii_of_string s).

(** A string target holds the source when the source is a string with
    something else than white space in it, and [null] otherwise; a source
    that is not a non-empty string gives [null]. *)
Definition string_target (source : jsvalue) (target : option string) : Prop :=
  (forall s, target = Some s <-> source = Some (JString s) /\ ~ blank s)
  /\ ((forall s, source = Some (JString s) -> s = "") -> target = None).

(** A numeric target holds the source when it is a finite number, and
    [null] otherwise. *)
Definition number_target (source : jsvalue) (target : option Q) : Prop :=
  (forall q, target = Some q <-> source = Some (JNumber (Finite q)))
  /\ ((forall q, source <> Some (JNumber (Finite q))) -> target = None).

(** The field [k] of a record: nothing when the record is no object, or an
    object without that field. *)
Definition field (k : string) (raw : json) : jsvalue :=
  match raw with
  | JObject fs => lookup_field k fs
  | _ => None
  end.

(** [record.location.k], nothing when the location is missing or is not an
    object. *)
Definition location_field (k : string) (raw : json) : jsvalue :=
  match field "location" raw with
  | Some (JObject fs) => lookup_field k fs
  | _ => None
  end.

Definition first_category (raw : json) : jsvalue :=
  match field "categories" raw with
  | Some (JArray (x :: _)) => Some x
  | _ => None
  end.

Definition normalized (raw : json) (lead : LeadPayload) : Prop :=
  string_target (field "title" raw) (business_name lead)
  /\ string_target (field "address" raw) (address lead)
  /\ string_target (field "phone" raw) (phone lead)
  /\ string_target (field "website" raw) (website lead)
  /\ string_target (field "email" raw) (email lead)
  /\ number_target (field "totalScore" raw) (rating lead)
  /\ number_target (field "reviewsCount" raw) (reviews_count lead)
  /\ string_target (first_category raw) (category lead)
  /\ number_target (location_field "lat" raw) (latitude lead)
  /\ number_target (location_field "lng" raw) (longitude lead).

(** The lead a record stands for, each target read off the record as
    [normalized] says. *)
Definition lead_of_record (raw : json) : LeadPayload :=
  {| business_name := asStringOrNull (field "title" raw);
     address := asStringOrNull (field "address" raw);
     phone := asStringOrNull (field "phone" raw);
     website := asStringOrNull (field "website" raw);
     email := asStringOrNull (field "email" raw);
     rating := parseNumber (field "totalScore" raw);
     reviews_count := parseNumber (field "reviewsCount" raw);
     category := asStringOrNull (first_category raw);
     latitude := parseNumber (location_field "lat" raw);
     longitude := parseNumber (location_field "lng" raw) |}.

Definition null_lead : LeadPayload :=
  mkLeadPayload None None None None None None None None None None.

(** [{title: "Cafe X", location: {lat: 1.5, lng: 2.5}, categories: ["cafe"],
    totalScore: 4.2}] *)
Definition cafe_x : json :=
  JObject [("title", JString "Cafe X");
           ("location", JObject [("lat", JNumber (Finite (15 # 10)));
                                 ("lng", JNumber (Finite (25 # 10)))]);
           ("categories", JArray [JString "cafe"]);
           ("totalScore", JNumber (Finite (42 # 10)))].

(** ** What the synthetic generator promises *)

Definition contains (needle hay : string) : Prop :=
  exists before after, hay = before +:+ needle +:+ after.

(** The size of the batch for a requested cap: the cap up to 10, and 10
    when the cap is zero or missing (the default 100 takes its place). *)
Definition mock_batch_size (requested : option Z) : nat :=
  match requested with
  | None | Some 0 => 10
  | Some n => Z.to_nat (Z.min n 10)
  end.

Definition mock_lead_ok (search : SearchData) (index : nat)
    (lead : LeadPayload) : Prop :=
  (exists name,
      business_name lead = Some name
      /\ contains (interpolate (s_keyword search)) name
      /\ contains (pretty (S index)) name
      /\ contains (interpolate (s_city search)) name)
  /\ (exists r, rating lead = Some r /\ (32 # 10 <= r)%Q /\ (r <= 48 # 10)%Q)
  /\ (exists n, reviews_count lead = Some n /\ (0 <= n)%Q /\ (n < 500)%Q)
  /\ email lead = None
  /\ latitude lead = None
  /\ longitude lead = None.

Definition unit_samples (rnd : nat -> Q) : Prop :=
  forall k, (0 <= rnd k)%Q /\ (rnd k < 1)%Q.

Definition sample_search (cap : Z) : SearchData :=
  mkSearchData (Some "u1") (Some "cafe") (Some "Lima") (Some "PE") (Some cap)
    (Some queued) (Some 0) None None None.

(** ** What the persistence writer promises *)

(** The store after the journal's commits, oldest first. *)
Definition replay (evs : list Event) (s : Store) : Store :=
  foldl (fun acc e =>
           match e with
           | Committed ops => apply_batch ops acc
           | _ => acc
           end) s evs.

Definition is_lead_set (userId searchId : string) (lead : LeadPayload)
    (op : WriteOp) : Prop :=
  exists id now,
    op = SetLead id (mkLeadDoc lead (Some searchId) (Some userId) (Some now)).

Definition set_entry (op : WriteOp) : option (string * LeadDoc) :=
  match op with
  | SetLead id doc => Some (id, doc)
  | _ => None
  end.

(** The two writes that close a finalization. *)
Definition closing_writes (userId searchId : string) (total : nat)
    (currentLeadsUsed : Z) (final : list WriteOp) : Prop :=
  exists t1 t2,
    final = [MergeSearch searchId (completed_patch (Z.of_nat total) t1);
             MergeProfile userId
               (usage_patch (currentLeadsUsed + Z.of_nat total) t2)].

(** The batch of one chunk, to be committed on store [s]: one write per lead
    of the chunk, in order, each under an id the store does not hold, and
    after them the closing writes when this is the last chunk. *)
Definition chunk_batch (userId searchId : string) (total : nat)
    (currentLeadsUsed : Z) (isLast : bool) (chunk : list LeadPayload)
    (s : Store) (batch : list WriteOp) : Prop :=
  exists sets final,
    batch = sets ++ final
    /\ Forall2 (is_lead_set userId searchId) chunk sets
    /\ NoDup (fst <$> omap set_entry sets)
    /\ (forall id, id ∈ fst <$> omap set_entry sets -> leads s !! id = None)
    /\ (if isLast then closing_writes userId searchId total currentLeadsUsed final
        else final = []).

(** The batches committed so far are those of the first chunks, one batch
    per chunk, each on the store its predecessors left. *)
Fixpoint batches_written (userId searchId : string) (total : nat)
    (currentLeadsUsed : Z) (count index : nat)
    (chunks : list (list LeadPayload)) (s : Store)
    (batches : list (list WriteOp)) : Prop :=
  match batches with
  | [] => True
  | b :: bs =>
      match chunks with
      | [] => False
      | chunk :: rest =>
          chunk_batch userId searchId total currentLeadsUsed
            (index =? count - 1)%nat chunk s b
          /\ batches_written userId searchId total currentLeadsUsed count
               (S index) rest (apply_batch b s) bs
      end
  end.

(** The leads are in the collection, one new document each. *)
Definition persisted (userId searchId : string) (leads : list LeadPayload)
    (before after : gmap string LeadDoc) : Prop :=
  exists entries : list (string * LeadDoc),
    Forall2 (fun lead e =>
               exists now,
                 e.2 = mkLeadDoc lead (Some searchId) (Some userId) (Some now))
      leads entries
    /\ NoDup entries.*1
    /\ (forall id, id ∈ entries.*1 -> before !! id = None)
    /\ after = list_to_map entries ∪ before.

(** What was committed, by outcome. *)
Definition finalize_shape (userId searchId : string) (leads : list LeadPayload)
    (currentLeadsUsed : Z) (s : Store) (r : Outcome unit)
    (batches : list (list WriteOp)) : Prop :=
  match leads with
  | [] =>
      (exists now,
          r = Done tt
          /\ batches = [[MergeSearch searchId (completed_patch 0 now)]])
      \/ (exists m, r = Thrown m /\ batches = [])
  | _ =>
      let chunks := chunkArray leads 400 in
      batches_written userId searchId (length leads) currentLeadsUsed
        (length chunks) 0 chunks s batches
      /\ ((r = Done tt /\ length batches = length chunks)
          \/ (exists m, r = Thrown m
                        /\ (length batches < length chunks)%nat))
  end.

(** What the store holds afterwards, by outcome. *)
Definition finalize_effect (userId searchId : string) (items : list LeadPayload)
    (currentLeadsUsed : Z) (before : Store) (r : Outcome unit) (after : Store)
    : Prop :=
  subscriptions after = subscriptions before
  /\ match r with
     | Done _ =>
         (exists doc,
             searches after !! searchId = Some doc
             /\ s_status doc = Some completed
             /\ s_total_results doc = Some (Z.of_nat (length items))
             /\ s_error_message doc = Some None
             /\ searches after = <[searchId := doc]> (searches before))
         /\ match items with
            | [] => profiles after = profiles before
            | _ =>
                exists doc,
                  profiles after !! userId = Some doc
                  /\ p_leads_used doc
                     = Some (currentLeadsUsed + Z.of_nat (length items))
                  /\ profiles after = <[userId := doc]> (profiles before)
            end
         /\ persisted userId searchId items (leads before) (leads after)
     | Thrown _ =>
         searches after = searches before
         /\ profiles after = profiles before
         /\ exists k,
              (k < length (chunkArray items 400) \/ items = [])%nat
              /\ persisted userId searchId
                   (concat (take k (chunkArray items 400)))
                   (leads before) (leads after)
     | Unfinished => False
     end.

(** The store serves every request. *)
Definition store_available (env : Env) : Prop :=
  forall k, store_fault env k = None.

(** ** What the enrichment pass does *)

Definition enrich_event (e : Event) : Prop :=
  (exists url, e = PageFetched url)
  \/ (exists id found, e = Committed [MergeLeadEmail id found]).

(** The pass leaves every collection but [leads] alone; a lead document is
    either as it was or has a new [email] and nothing else changed, and then
    it is a document of this search with the website of a candidate. *)
Definition enriched (searchId : string) (candidates : list LeadPayload)
    (before after : Store) : Prop :=
  profiles after = profiles before
  /\ searches after = searches before
  /\ subscriptions after = subscriptions before
  /\ forall id,
       leads after !! id = leads before !! id
       \/ exists doc found lead,
            leads before !! id = Some doc
            /\ l_search_id doc = Some searchId
            /\ lead ∈ candidates
            /\ website (l_lead doc) = website lead
            /\ leads after !! id = Some (set_lead_email found doc).

(** ** The runs of the search handler

    Each constructor is one way through the handler: the outcome and the
    effects it journals.  [Thrown] outcomes are failures of the store or of
    the provider. *)

Definition guard_rejects (profile : ProfileData) (status : Z)
    (message : string) : Prop :=
  (default false (p_is_suspended profile) = true
   /\ status = 403 /\ message = "Account suspended")
  \/ (default false (p_is_suspended profile) = false
      /\ default 2000 (p_leads_limit profile)
         <= default 0 (p_leads_used profile)
      /\ status = 429 /\ message = "Leads quota exceeded").

Definition guard_passes (profile : ProfileData) : Prop :=
  default false (p_is_suspended profile) = false
  /\ default 0 (p_leads_used profile) < default 2000 (p_leads_limit profile).

(** The response once the writer is through. *)
Definition answer (r : Outcome unit) (b : Body) : Outcome Response :=
  match r with
  | Done _ => Done (res_json b)
  | Thrown m => Thrown m
  | Unfinished => Unfinished
  end.

Definition search_query (search : SearchData) : string :=
  interpolate (s_keyword search) +:+ " in " +:+ interpolate (s_city search)
  +:+ ", " +:+ interpolate (s_country search).

(** The write of the provider's run id, when the run has one. *)
Definition tagging (searchId : string) (run : ApifyRun) (tagged : list Event)
    : Prop :=
  tagged = []
  \/ exists now,
       truthy (run_data run ≫= run_id) = true
       /\ tagged = [Committed
                      [MergeSearch searchId
                         (mkSearchData None None None None None None None None
                            (run_data run ≫= run_id) (Some now))]].

Definition dataset_leads (items : json) : list LeadPayload :=
  match items with
  | JArray xs => lead_of_record <$> xs
  | _ => []
  end.

(** From the world [w] in which the search has just been marked running. *)
Inductive work_run (env : Env) (userId searchId : string) (search : SearchData)
    (cur : Z) (w : World) : Outcome Response -> list Event -> Prop :=
  | work_demo (r : Outcome unit) (batches : list (list WriteOp)) :
      truthy (APIFY_TOKEN env) = false ->
      let mock := buildMockLeads search
                    (fun k => random_sample env (rolls w + k)%nat) in
      finalize_shape userId searchId mock cur (db w) r batches ->
      finalize_effect userId searchId mock cur (db w) r
        (replay (Committed <$> batches) (db w)) ->
      work_run env userId searchId search cur w
        (answer r (RunBody demo (length mock))) (Committed <$> batches)
  | work_provider_failed (m : string) :
      truthy (APIFY_TOKEN env) = true ->
      work_run env userId searchId search cur w (Thrown m)
        [ProviderRun (search_query search) (s_max_results search)]
  | work_no_dataset (run : ApifyRun) (tagged : list Event) (now : string) :
      truthy (APIFY_TOKEN env) = true ->
      apify_reply env (fetches w) (search_query search) (s_max_results search)
      = ApifyAccepted run ->
      truthy (run_data run ≫= defaultDatasetId) = false ->
      tagging searchId run tagged ->
      work_run env userId searchId search cur w
        (Done (res_json (RunBody live 0)))
        (ProviderRun (search_query search) (s_max_results search)
         :: tagged
         ++ [Committed
               [MergeSearch searchId
                  (mkSearchData None None None None None (Some completed)
                     (Some 0) None None (Some now))]])
  | work_no_dataset_fault (run : ApifyRun) (tagged : list Event) (m : string) :
      truthy (APIFY_TOKEN env) = true ->
      tagging searchId run tagged ->
      work_run env userId searchId search cur w (Thrown m)
        (ProviderRun (search_query search) (s_max_results search) :: tagged)
  | work_dataset_failed (run : ApifyRun) (tagged : list Event) (m : string) :
      truthy (APIFY_TOKEN env) = true ->
      tagging searchId run tagged ->
      work_run env userId searchId search cur w (Thrown m)
        (ProviderRun (search_query search) (s_max_results search)
         :: tagged
         ++ [DatasetRead (default "" (run_data run ≫= defaultDatasetId))])
  | work_live (run : ApifyRun) (tagged : list Event) (items : json)
      (r : Outcome unit) (batches : list (list WriteOp))
      (extra : list Event) :
      truthy (APIFY_TOKEN env) = true ->
      apify_reply env (fetches w) (search_query search) (s_max_results search)
      = ApifyAccepted run ->
      truthy (run_data run ≫= defaultDatasetId) = true ->
      tagging searchId run tagged ->
      dataset_reply env (S (fetches w))
        (default "" (run_data run ≫= defaultDatasetId))
      = DatasetItems items ->
      let found := dataset_leads items in
      let s1 := replay tagged (db w) in
      let s2 := replay (Committed <$> batches) s1 in
      finalize_shape userId searchId found cur s1 r batches ->
      finalize_effect userId searchId found cur s1 r s2 ->
      Forall enrich_event extra ->
      enriched searchId (enrich_candidates found) s2 (replay extra s2) ->
      (r <> Done tt -> extra = []) ->
      work_run env userId searchId search cur w
        (answer r (RunBody live (length found)))
        (ProviderRun (search_query search) (s_max_results search)
         :: tagged
         ++ [DatasetRead (default "" (run_data run ≫= defaultDatasetId))]
         ++ (Committed <$> batches) ++ extra).

(** The handler once the search is marked running (the rest of its [try]
    block). *)
Definition after_mark (env : Env) (user : DecodedUser) (searchId : string)
    (search : SearchData) (leadsUsed : Z) (plan : PlanType) : M Response :=
  if negb (truthy (APIFY_TOKEN env)) then
    bind (draw_mock_leads env search) (fun mockLeads =>
    bind (writeLeadsAndFinalize env (uid user) searchId mockLeads leadsUsed)
      (fun _ => ret (res_json (RunBody demo (length mockLeads)))))
  else run_live env user searchId search leadsUsed plan.

(** From the world [w] of the request, for a verified user and a search
    id. *)
Inductive search_run (env : Env) (user : DecodedUser) (searchId : string)
    (w : World) : Outcome Response -> list Event -> Prop :=
  | run_store_fault (m : string) :
      search_run env user searchId w (Thrown m) []
  | run_not_found :
      (forall search,
          searches (db w) !! searchId = Some search ->
          s_user_id search <> Some (uid user)) ->
      search_run env user searchId w
        (Done (sendError 404 "Search not found")) []
  | run_no_profile (search : SearchData) :
      searches (db w) !! searchId = Some search ->
      s_user_id search = Some (uid user) ->
      profiles (db w) !! uid user = None ->
      search_run env user searchId w
        (Done (sendError 500 "Profile not found")) []
  | run_rejected (search : SearchData) (profile : ProfileData) (status : Z)
      (message now : string) :
      searches (db w) !! searchId = Some search ->
      s_user_id search = Some (uid user) ->
      profiles (db w) !! uid user = Some profile ->
      guard_rejects profile status message ->
      search_run env user searchId w (Done (sendError status message))
        [Committed [MergeSearch searchId (failed_patch message now)]]
  | run_worked (search : SearchData) (profile : ProfileData) (now : string)
      (w1 : World) (r : Outcome Response) (evs : list Event) :
      searches (db w) !! searchId = Some search ->
      s_user_id search = Some (uid user) ->
      profiles (db w) !! uid user = Some profile ->
      guard_passes profile ->
      db w1 = apply_batch [MergeSearch searchId (running_patch now)] (db w) ->
      rolls w1 = rolls w ->
      fetches w1 = fetches w ->
      work_run env (uid user) searchId search
        (default 0 (p_leads_used profile)) w1 r evs ->
      search_run env user searchId w r
        (Committed [MergeSearch searchId (running_patch now)] :: evs).

(** The whole request: what the caller is answered and what was journaled. *)
Inductive request_run (env : Env) (auth : AuthOutcome)
    (search_id : option string) (w : World)
    : Outcome Response -> list Event -> Prop :=
  | request_refused (resp : Response) :
      requireAuthenticatedUser auth = inl resp ->
      request_run env auth search_id w (Done resp) []
  | request_without_id (user : DecodedUser) :
      requireAuthenticatedUser auth = inr user ->
      truthy search_id = false ->
      request_run env auth search_id w
        (Done (sendError 400 "search_id required")) []
  | request_answered (user : DecodedUser) (searchId : string)
      (resp : Response) (evs : list Event) :
      requireAuthenticatedUser auth = inr user ->
      search_id = Some searchId ->
      search_run env user searchId w (Done resp) evs ->
      request_run env auth search_id w (Done resp) evs
  | request_failed (user : DecodedUser) (searchId : string) (m : string)
      (evs recorded : list Event) :
      requireAuthenticatedUser auth = inr user ->
      search_id = Some searchId ->
      search_run env user searchId w (Thrown m) evs ->
      (recorded = []
       \/ exists now,
            recorded = [Committed [MergeSearch searchId (failed_patch m now)]]) ->
      request_run env auth search_id w (Done (sendError 500 m))
        (evs ++ recorded).

(** ** What the cascading deletion promises *)

Definition delete_all {D} (ids : list string) (m : gmap string D)
    : gmap string D :=
  foldl (fun acc id => delete id acc) m ids.

(** The documents of everybody else. *)
Definition others {D} (owner : D -> option string) (userId : string)
    (m : gmap string D) : gmap string D :=
  filter (fun kv => owner kv.2 <> Some userId) m.

(** The store without the user's documents in one collection. *)
Definition purged (c : Collection) (userId : string) (s : Store) : Store :=
  match c with
  | Leads =>
      mkStore (profiles s) (searches s) (others l_user_id userId (leads s))
        (subscriptions s)
  | Searches =>
      mkStore (profiles s) (others s_user_id userId (searches s)) (leads s)
        (subscriptions s)
  | Subscriptions =>
      mkStore (profiles s) (searches s) (leads s)
        (others sub_user_id userId (subscriptions s))
  | Profiles => s
  end.

(** One journal entry per committed batch of deletions. *)
Definition deletion_batches (c : Collection) (batches : list (list string))
    : list Event :=
  (fun ids => Committed (DeleteDoc c <$> ids)) <$> batches.

Definition batch_sized {T} (batch : list T) : Prop :=
  (0 < length batch <= 400)%nat.

(** ** Sample worlds *)

Definition sample_time : string := "2026-02-18T00:00:00.000Z".

(** No provider token, a store that serves every request. *)
Definition demo_env : Env :=
  mkEnv None (fun _ => sample_time) (fun _ => 1 # 2) (fun _ => None)
    (fun _ _ _ => ApifyUnreachable "offline")
    (fun _ _ => DatasetUnreachable "offline")
    (fun _ _ => PageUnreachable "offline").

(** A provider whose run has dataset [ds1] holding [items]; every page
    fetched reads [page]. *)
Definition live_env (items : list json) (page : string) : Env :=
  mkEnv (Some "token") (fun _ => sample_time) (fun _ => 1 # 2)
    (fun _ => None)
    (fun _ _ _ =>
       ApifyAccepted
         (mkApifyRun (Some (mkApifyRunData (Some "run1") (Some "ds1")))))
    (fun _ _ => DatasetItems (JArray items))
    (fun _ _ => PageText page).

Definition alice : DecodedUser := mkDecodedUser "u1" (Some "alice@example.com").

Definition root : DecodedUser := mkDecodedUser "admin" (Some "root@example.com").

Definition sample_profile (plan : PlanType) (used limit : Z)
    (suspended : bool) : ProfileData :=
  mkProfileData (Some "alice@example.com") (Some (Some "Alice")) (Some plan)
    (Some used) (Some limit) (Some suspended) (Some None) (Some sample_time).

(** Account [u1] with its profile and its search [s1], nothing else. *)
Definition sample_world (search : SearchData) (profile : ProfileData) : World :=
  mkWorld (mkStore {[ "u1" := profile ]} {[ "s1" := search ]} ∅ ∅)
    {[ "u1" := false ]} ∅ [] 0 0 0 0.

Definition site_lead (site : string) (mail : option string) : LeadPayload :=
  mkLeadPayload (Some "Cafe X") None None (Some site) mail None None None None
    None.

(** A provider record with a title and a website, which normalizes to
    [site_lead site None]. *)
Definition site_record (site : string) : json :=
  JObject [("title", JString "Cafe X"); ("website", JString site)].

(** [sample_world] with one stored lead of search [s1]. *)
Definition world_with_lead (doc : LeadDoc) : World :=
  mkWorld
    (mkStore {[ "u1" := sample_profile growth 1 5000 false ]}
       {[ "s1" := sample_search 5 ]} {[ "l1" := doc ]} ∅)
    {[ "u1" := false ]} ∅ [] 0 0 0 0.

(** ** The claims that do not hold as they are worded *)

(** "A synthetic batch has size min(requested_max, 10)." *)
Definition mock_size_is_min : Prop :=
  forall (search : SearchData) (rnd : nat -> Q) (requested : Z),
    s_max_results search = Some requested ->
    Z.of_nat (length (buildMockLeads search rnd)) = Z.min requested 10.

(** "Enrichment never changes a stored non-null email." *)
Definition never_overwrites_email : Prop :=
  forall (env : Env) (plan : PlanType) (searchId : string)
         (items : list LeadPayload) (w : World) (id : string) (doc : LeadDoc)
         (e : string),
    leads (db w) !! id = Some doc ->
    email (l_lead doc) = Some e ->
    exists doc',
      leads (db (maybeEnrichEmails env plan searchId items w).2) !! id
      = Some doc'
      /\ email (l_lead doc') = Some e.

Definition terminal (status : option SearchStatus) : Prop :=
  status = Some completed \/ status = Some failed.

(** "Once a Search is completed or failed, a later invocation changes
    neither its status nor its total_results nor its error_message." *)
Definition terminal_is_final : Prop :=
  forall (env : Env) (auth : AuthOutcome) (search_id : option string)
         (w : World) (id : string) (doc : SearchData),
    searches (db w) !! id = Some doc ->
    terminal (s_status doc) ->
    exists doc',
      searches (db (run_apify_search env auth search_id w).2) !! id = Some doc'
      /\ s_status doc' = s_status doc
      /\ s_total_results doc' = s_total_results doc
      /\ s_error_message doc' = s_error_message doc.

(** ** The guard, in the words of the specification *)

Inductive GuardDecision :=
  | Proceed
  | Reject (status : Z) (message : string).

(** Suspension first, then the quota. *)
Definition guard (profile : ProfileData) : GuardDecision :=
  if default false (p_is_suspended profile) then Reject 403 "Account suspended"
  else if default 0 (p_leads_used profile)
          >=? default 2000 (p_leads_limit profile)
       then Reject 429 "Leads quota exceeded"
       else Proceed.

(** The request was turned down: the answer, the one write that records it,
    and a Profile left alone. *)
Definition rejected (env : Env) (searchId : string) (w : World)
    (run : Outcome Response * World) (status : Z) (message : string) : Prop :=
  run.1 = Done (sendError status message)
  /\ journal run.2
     = journal w
       ++ [Committed
             [MergeSearch searchId
                (failed_patch message (clock_reading env (clock w)))]]
  /\ profiles (db run.2) = profiles (db w)
  /\ leads (db run.2) = leads (db w)
  /\ exists doc,
       searches (db run.2) !! searchId = Some doc
       /\ s_status doc = Some failed
       /\ s_error_message doc = Some (Some message).

(** The request went on: its first write marks the Search running. *)
Definition proceeded (env : Env) (searchId : string) (w : World)
    (run : Outcome Response * World) : Prop :=
  exists rest,
    journal run.2
    = journal w
      ++ Committed
           [MergeSearch searchId (running_patch (clock_reading env (clock w)))]
         :: rest.

(** The store serves the next [n] requests. *)
Definition serves (env : Env) (w : World) (n : nat) : Prop :=
  forall k, (k < n)%nat -> store_fault env (calls w + k) = None.

(** ** Status writes *)

(** The status a write gives to Search [searchId], if it gives one. *)
Definition op_status (searchId : string) (op : WriteOp)
    : option SearchStatus :=
  match op with
  | MergeSearch id patch =>
      if bool_decide (id = searchId) then s_status patch else None
  | _ => None
  end.

(** The statuses written to Search [searchId], in the order of the
    journal. *)
Definition status_writes (searchId : string) (evs : list Event)
    : list SearchStatus :=
  concat ((fun e =>
             match e with
             | Committed ops => omap (op_status searchId) ops
             | _ => []
             end) <$> evs).

(** What one request may write to a Search's status. *)
Definition forward_sequences : list (list SearchStatus) :=
  [[]; [failed]; [running]; [running; completed]; [running; failed]].

Definition is_set (op : WriteOp) : Prop := exists id doc, op = SetLead id doc.

(** What a finalization or a provider run writes to the status of Search
    [id] when it is through: completed, on its own Search. *)
Definition written_on_success (searchId id : string) {A} (r : Outcome A)
    : list SearchStatus :=
  match r with
  | Done _ => if bool_decide (searchId = id) then [completed] else []
  | _ => []
  end.

(** The stored status of a Search, if it has one. *)
Definition status_of (s : Store) (id : string) : option SearchStatus :=
  searches s !! id ≫= s_status.

(** The status after some writes: the last one written, else the one
    before. *)
Definition status_after (before : option SearchStatus)
    (writes : list SearchStatus) : option SearchStatus :=
  foldl (fun _ st => Some st) before writes.

Definition keeps_documents (e : Event) : Prop :=
  forall ops, e = Committed ops -> Forall (fun op => forall c id, op <> DeleteDoc c id) ops.

(** The provider's run has a dataset, and the dataset holds [xs]. *)
Definition provider_returns (env : Env) (xs : list json) : Prop :=
  (forall k query cap,
      exists run,
        apify_reply env k query cap = ApifyAccepted run
        /\ truthy (run_data run ≫= defaultDatasetId) = true)
  /\ (forall k ds, dataset_reply env k ds = DatasetItems (JArray xs)).

(** A Search of [u1] that a former run completed with 7 results. *)
Definition finished_search : SearchData :=
  mkSearchData (Some "u1") (Some "cafe") (Some "Lima") (Some "PE") (Some 3)
    (Some completed) (Some 7) (Some None) None (Some sample_time).

(** * More specifications *)

(** ** Text *)

(** The first character, if there is one, is no white space. *)
Definition headed (cs : list ascii) : Prop :=
  match cs with
  | c :: _ => is_whitespace c = false
  | [] => True
  end.

(** [trim] on the characters of a string. *)
Definition trim_list (cs : list ascii) : list ascii :=
  rev (trim_start (rev (trim_start cs))).

(** Nothing to trim at either end. *)
Definition tight (cs : list ascii) : Prop := headed cs /\ headed (rev cs).

(** The strings of [[a-zA-Z0-9._%+-]+@[a-zA-Z0-9.-]+\.[a-zA-Z]{2,}]. *)
Definition address_shape (m : list ascii) : Prop :=
  exists loc dom tld,
    m = (loc ++ "@"%char :: dom ++ "."%char :: tld)%list
    /\ loc <> [] /\ Forall (fun c => local_char c = true) loc
    /\ dom <> [] /\ Forall (fun c => domain_char c = true) dom
    /\ (2 <= length tld)%nat /\ Forall (fun c => is_letter c = true) tld.

(** A string the e-mail pattern matches from end to end. *)
Definition is_address (m : string) : Prop :=
  address_shape (list_ascii_of_string m).

(** [m] is the match a leftmost, greedy search reports in [html]: no
    address starts before it, and none that starts with it is longer. *)
Definition first_longest (html m : string) : Prop :=
  exists before after,
    html = before +:+ m +:+ after
    /\ forall before' m' after',
         html = before' +:+ m' +:+ after' ->
         is_address m' ->
         (String.length before <= String.length before')%nat
         /\ (String.length before' = String.length before ->
             String.length m' <= String.length m)%nat.

(** ** The superadmin endpoint *)

(** The header is the superadmin's: it passes [requireSuperadmin] as
    [requester]. *)
Definition as_superadmin (admin : AdminEnv) (authorization : option string)
    (requester : DecodedUser) : Prop :=
  requireSuperadmin (SUPERADMIN_EMAIL_variable admin)
    (authenticate (verifyIdToken admin) authorization)
  = inr requester.

(** An id that is a document's name.  [collection.doc(id)] takes its
    argument for a path and cuts it at the slashes, so that only an id
    without one is sure to address the document of that very name; the
    handlers are modelled on such ids. *)
Definition document_id (id : string) : Prop := includes "/" id = false.

(** An id that is a document's name and that the identity service takes for
    a uid, which has 128 characters at most. *)
Definition account_id (id : string) : Prop :=
  document_id id /\ (String.length id <= 128)%nat.

(** The property names of [PLAN_LIMITS], its own and the inherited ones. *)
Definition property_names : list string :=
  (plan_name <$> [starter; growth; pro]) ++ inherited_names.

(** Every normal end of [c] yields [x]. *)
Definition ends_with {A} (x : A) (c : M A) : Prop :=
  forall w r w', c w = (Done r, w') -> r = x.

(** The patch [suspend_user] and [restore_user] merge into a profile. *)
Definition standing_patch (suspended : bool) (t1 t2 : string) : ProfileData :=
  mkProfileData None None None None None (Some suspended)
    (Some (if suspended then Some t1 else None))
    (Some (if suspended then t2 else t1)).

(** The action that sets the standing to [suspended]. *)
Definition standing_action (suspended : bool) : string :=
  if suspended then "suspend_user" else "restore_user".

(** The profile's standing is [suspended] since [since], and the fields no
    standing change writes are those of [before]. *)
Definition standing_set (suspended : bool) (since : option string)
    (before after : ProfileData) : Prop :=
  p_is_suspended after = Some suspended
  /\ p_suspended_at after = Some since
  /\ p_email after = p_email before
  /\ p_full_name after = p_full_name before
  /\ p_plan after = p_plan before
  /\ p_leads_used after = p_leads_used before
  /\ p_leads_limit after = p_leads_limit before.

(** The stored profile of an account, a document without fields when the
    store has none. *)
Definition profile_of (s : Store) (userId : string) : ProfileData :=
  default no_profile_fields (profiles s !! userId).

(** The two patches of [set_plan]. *)
Definition plan_patch (plan : PlanType) (now : string) : ProfileData :=
  mkProfileData None None (Some plan) None (Some (PLAN_LIMITS plan)) None None
    (Some now).

Definition subscription_patch (userId : string) (plan : PlanType)
    (now : string) : SubscriptionDoc :=
  mkSubscriptionDoc (Some userId) (Some plan) (Some "active") (Some now)
    (Some now).

(** The profile has the plan and its limit, and the fields no plan change
    writes are those of [before]. *)
Definition plan_set (plan : PlanType) (before after : ProfileData) : Prop :=
  p_plan after = Some plan
  /\ p_leads_limit after = Some (PLAN_LIMITS plan)
  /\ p_leads_used after = p_leads_used before
  /\ p_is_suspended after = p_is_suspended before
  /\ p_suspended_at after = p_suspended_at before
  /\ p_email after = p_email before
  /\ p_full_name after = p_full_name before.

(** ** What the listing promises *)

(** The store, the identities and the journal are those of [w]. *)
Definition quiet (w w' : World) : Prop :=
  db w' = db w /\ identities w' = identities w /\ journal w' = journal w.

(** What [timestampToIso] shows of a stored time: the time itself, or a
    reading of the clock when there is none. *)
Definition time_shown (env : Env) (stored : TimeField) (shown : string)
    : Prop :=
  match stored with
  | TimestampValue iso => shown = iso
  | StringValue s => shown = s
  | OtherValue => exists k, shown = clock_reading env k
  end.

(** The row of a document: its id, its fields or their defaults, its
    timestamps as strings, the time of the listing for a missing one. *)
Definition listed (env : Env) (doc : ProfileSnapshot) (row : UserRow) : Prop :=
  let data := snapshot_data doc in
  row_id row = snapshot_id doc
  /\ row_email row = default "" (p_email data)
  /\ row_full_name row = default None (p_full_name data)
  /\ row_plan row = default starter (p_plan data)
  /\ row_leads_used row = default 0 (p_leads_used data)
  /\ row_leads_limit row = default 2000 (p_leads_limit data)
  /\ row_is_suspended row = default false (p_is_suspended data)
  /\ row_suspended_at row = default None (p_suspended_at data)
  /\ time_shown env (snapshot_created_at doc) (row_created_at row)
  /\ time_shown env
       (match p_updated_at data with
        | Some s => StringValue s
        | None => OtherValue
        end) (row_updated_at row).

(** The text searched for occurs in the row's e-mail or name, letter case
    apart; an empty text selects every row. *)
Definition selected (queryText : string) (row : UserRow) : Prop :=
  queryText = ""
  \/ contains queryText (toLowerCase (row_email row))
  \/ contains queryText (toLowerCase (default "" (row_full_name row))).

(** ** More of the search handler *)

(** The message of the [Error] a provider's answer makes the handler
    throw, if it does. *)
Definition provider_failure (reply : ApifyOutcome) : option string :=
  match reply with
  | ApifyUnreachable m | ApifyUnreadable m => Some m
  | ApifyRefused status details =>
      Some ("Apify error [" +:+ pretty status +:+ "]: " +:+ details)
  | ApifyAccepted _ => None
  end.

(** A provider's run that yields nothing to store: it names no dataset, or
    its dataset does not read as an array. *)
Definition yields_nothing (env : Env) (w : World) (run : ApifyRun) : Prop :=
  truthy (run_data run ≫= defaultDatasetId) = false
  \/ (truthy (run_data run ≫= defaultDatasetId) = true
      /\ exists items,
           dataset_reply env (S (fetches w))
             (default "" (run_data run ≫= defaultDatasetId))
           = DatasetItems items
           /\ forall xs, items <> JArray xs).

(** ** Whom a request of the superadmin can touch *)

(** From [w] to [w'], nothing of another account than [userId] changed:
    the leads and searches others own, and the profiles, subscriptions and
    identities under another id. *)
Definition spared (userId : string) (w w' : World) : Prop :=
  others l_user_id userId (leads (db w'))
  = others l_user_id userId (leads (db w))
  /\ others s_user_id userId (searches (db w'))
     = others s_user_id userId (searches (db w))
  /\ delete userId (profiles (db w')) = delete userId (profiles (db w))
  /\ delete userId (subscriptions (db w'))
     = delete userId (subscriptions (db w))
  /\ delete userId (identities w') = delete userId (identities w).

(** [c] spares the other accounts, from any world. *)
Definition sparing {A} (userId : string) (c : M A) : Prop :=
  forall w, spared userId w (c w).2.

(** The pages a journal shows fetched, in order. *)
Definition pages_fetched (evs : list Event) : list string :=
  omap (fun e => match e with
                 | PageFetched url => Some url
                 | _ => None
                 end) evs.

(** ** The contact fields of a synthetic lead *)

(** Exactly four characters, all decimal digits. *)
Definition four_digits (s : string) : bool :=
  (String.length s =? 4)%nat && forallb is_digit (list_ascii_of_string s).

(** ** A sample deployment *)

(** [SUPERADMIN_EMAIL] names the account [root], in capitals; two tokens
    are known to the identity service; the query on profiles takes any
    limit and finds no document. *)
Definition sample_admin : AdminEnv :=
  mkAdminEnv (Some "Root@Example.COM")
    (fun token =>
       if String.eqb token "root-token" then Some root
       else if String.eqb token "alice-token" then Some alice
       else None)
    (fun _ => None)
    (fun _ _ => [])
    (fun name => "Cannot encode value: " +:+ name).

(** Three documents a query on profiles returns: one with every field, one
    with none, one whose name only matches "alice". *)
Definition sample_listing : list ProfileSnapshot :=
  [mkProfileSnapshot "u1"
     (mkProfileData (Some "Alice@Example.com") (Some (Some "A. Liddell"))
        (Some growth) (Some 7) (Some 5000) (Some false) (Some None)
        (Some sample_time))
     (TimestampValue "2026-01-05T10:00:00.000Z");
   mkProfileSnapshot "u2" no_profile_fields OtherValue;
   mkProfileSnapshot "u3"
     (mkProfileData (Some "bob@example.com") (Some (Some "Bob ALICEson"))
        None None None (Some true) (Some (Some sample_time)) None)
     (StringValue "2026-01-03")].

(** The deployment of [sample_admin] with a query that returns
    [sample_listing], cut at the limit. *)
Definition listing_admin : AdminEnv :=
  mkAdminEnv (SUPERADMIN_EMAIL_variable sample_admin)
    (verifyIdToken sample_admin)
    (fun _ => None)
    (fun limitValue _ =>
       match limitValue with
       | Finite q => take (Z.to_nat (Qfloor q)) sample_listing
       | _ => sample_listing
       end)
    (value_refused sample_admin).

(** The accounts [u1] and [u2], each with a profile, a search and an
    identity. *)
Definition two_accounts : World :=
  mkWorld
    (mkStore
       {[ "u1" := sample_profile starter 7 2000 false;
          "u2" := sample_profile pro 0 15000 false ]}
       {[ "s1" := sample_search 5;
          "s2" := mkSearchData (Some "u2") (Some "bar") (Some "Cusco")
                    (Some "PE") (Some 5) (Some queued) (Some 0) None None
                    None ]}
       ∅ ∅)
    {[ "u1" := false; "u2" := false ]} ∅ [] 0 0 0 0.

(** The header of a request of [root]. *)
Definition root_header : option string := Some "Bearer root-token".

(** A provider that turns every run down. *)
Definition refusing_env : Env :=
  mkEnv (Some "token") (fun _ => sample_time) (fun _ => 1 # 2) (fun _ => None)
    (fun _ _ _ => ApifyRefused 402 "payment required")
    (fun _ _ => DatasetUnreachable "offline")
    (fun _ _ => PageUnreachable "offline").

(** A provider whose dataset reads as an object, not an array. *)
Definition puzzling_env : Env :=
  mkEnv (Some "token") (fun _ => sample_time) (fun _ => 1 # 2) (fun _ => None)
    (fun _ _ _ =>
       ApifyAccepted
         (mkApifyRun (Some (mkApifyRunData (Some "run1") (Some "ds1")))))
    (fun _ _ => DatasetItems (JObject []))
    (fun _ _ => PageUnreachable "offline").

(** A store that fails the requests whose number [failing] holds. *)
Definition faulty_env (failing : list nat) : Env :=
  mkEnv None (fun _ => sample_time) (fun _ => 1 # 2)
    (fun k => if bool_decide (k ∈ failing) then Some "unavailable" else None)
    (fun _ _ _ => ApifyUnreachable "offline")
    (fun _ _ => DatasetUnreachable "offline")
    (fun _ _ => PageUnreachable "offline").

(** * Proofs *)

(** ** The normalizer *)

Lemma length_string_of_list_ascii (cs : list ascii) :
  String.length (string_of_list_ascii cs) = length cs.
Proof. induction cs as [|c cs IH]; simpl; congruence. Qed.

Lemma trim_start_nil (cs : list ascii) :
  trim_start cs = [] <-> Forall (fun c => is_whitespace c = true) cs.
Proof.
  induction cs as [|c cs IH]; simpl.
  - split; [constructor | reflexivity].
  - destruct (is_whitespace c) eqn:Hc.
    + rewrite IH. split; [by constructor | by inversion 1].
    + split; [discriminate | inversion 1; congruence].
Qed.

Lemma trim_start_whitespace (cs : list ascii) :
  Forall (fun c => is_whitespace c = true) (trim_start cs)
  <-> Forall (fun c => is_whitespace c = true) cs.
Proof.
  induction cs as [|c cs IH]; simpl; [done|].
  destruct (is_whitespace c) eqn:Hc; [|done].
  rewrite IH. split; [by constructor | by inversion 1].
Qed.

Lemma Forall_rev_iff {A} (P : A -> Prop) (l : list A) :
  Forall P (rev l) <-> Forall P l.
Proof.
  rewrite !List.Forall_forall. split; intros H x Hx; apply H.
  - by apply in_rev in Hx.
  - by apply in_rev.
Qed.

Lemma trim_blank (s : string) :
  (0 <? String.length (trim s))%nat = false <-> blank s.
Proof.
  unfold trim, blank. rewrite length_string_of_list_ascii, length_rev.
  rewrite Nat.ltb_ge, Nat.le_0_r, length_zero_iff_nil, trim_start_nil.
  rewrite Forall_rev_iff, trim_start_whitespace. reflexivity.
Qed.

Lemma asStringOrNull_target (v : jsvalue) : string_target v (asStringOrNull v).
Proof.
  split.
  - intros s. unfold asStringOrNull.
    destruct v as [[| | |s'| |]|]; try (split; [discriminate | intros [? _]; discriminate]).
    destruct (0 <? String.length (trim s'))%nat eqn:Ht.
    + split.
      * intros [= ->]. split; [done|]. intros Hb%trim_blank. congruence.
      * intros [[= ->] _]. done.
    + apply trim_blank in Ht. split; [discriminate|].
      intros [[= ->] Hs]. contradiction.
  - intros Hv. unfold asStringOrNull.
    destruct v as [[| | |s'| |]|]; try reflexivity.
    rewrite (Hv s' eq_refl). reflexivity.
Qed.

Lemma parseNumber_target (v : jsvalue) : number_target v (parseNumber v).
Proof.
  split.
  - intros q. unfold parseNumber.
    destruct v as [[| |[q'| |]| | |]|];
      try (split; [discriminate | discriminate]).
    split; intros [= ->]; reflexivity.
  - intros Hv. unfold parseNumber.
    destruct v as [[| |[q'| |]| | |]|]; try reflexivity.
    destruct (Hv q' eq_refl).
Qed.

Lemma lead_of_record_normalized (raw : json) :
  normalized raw (lead_of_record raw).
Proof.
  pose proof asStringOrNull_target as Hs. pose proof parseNumber_target as Hn.
  unfold normalized, lead_of_record.
  cbn [business_name address phone website email rating reviews_count
       category latitude longitude].
  auto 12.
Qed.

(** Behind its two guards the normalizer reads properties of objects only:
    it returns, and with the lead the record stands for. *)
Lemma normalizeApifyLead_returns (raw : json) :
  normalizeApifyLead raw = Value (lead_of_record raw).
Proof.
  unfold normalizeApifyLead, lead_of_record, first_category, location_field.
  destruct raw as [| | | | |fs]; try reflexivity.
  cbn [or_empty_object prop mbind Evaluation_bind field].
  destruct (lookup_field "location" fs) as [[| | | | |ls]|];
    cbn [or_empty_object prop mbind Evaluation_bind];
    destruct (lookup_field "categories" fs) as [[| | | |[|c cs]|]|];
    reflexivity.
Qed.

Lemma normalizeApifyLeads_returns (items : list json) :
  normalizeApifyLeads items = Value (lead_of_record <$> items).
Proof.
  induction items as [|raw items IH]; [reflexivity|].
  cbn [normalizeApifyLeads]. rewrite normalizeApifyLead_returns, IH.
  reflexivity.
Qed.

(** ** The synthetic generator *)

Lemma buildMockLeads_length (search : SearchData) (rnd : nat -> Q) :
  length (buildMockLeads search rnd) = mock_batch_size (s_max_results search).
Proof.
  unfold buildMockLeads, mock_batch_size, requested_or_default.
  rewrite length_map, length_seq.
  destruct (s_max_results search) as [[|p|p]|]; reflexivity.
Qed.

Lemma buildMockLeads_lookup (search : SearchData) (rnd : nat -> Q) (i : nat)
    (lead : LeadPayload) :
  buildMockLeads search rnd !! i = Some lead -> lead = mockLead search rnd i.
Proof.
  unfold buildMockLeads.
  change (map ?f ?l) with (f <$> l). rewrite list_lookup_fmap.
  destruct (seq 0 _ !! i) as [j|] eqn:Hj; [|discriminate].
  apply lookup_seq in Hj as [-> _]. by intros [= <-].
Qed.

Lemma string_app_assoc (a b c : string) : (a +:+ b) +:+ c = a +:+ b +:+ c.
Proof.
  induction a as [|x a IH]; [reflexivity|].
  change (String x ((a +:+ b) +:+ c) = String x (a +:+ b +:+ c)).
  by rewrite IH.
Qed.

Lemma contains_here (needle after : string) : contains needle (needle +:+ after).
Proof. by exists "", after. Qed.

Lemma contains_later (needle before hay : string) :
  contains needle hay -> contains needle (before +:+ hay).
Proof.
  intros (b & a & ->). exists (before +:+ b), a.
  by rewrite string_app_assoc.
Qed.

Lemma contains_end (needle : string) : contains needle needle.
Proof.
  exists "", "". change (needle = needle +:+ "").
  induction needle as [|c s IH]; [reflexivity|].
  change (String c s = String c (s +:+ "")). by rewrite <- IH.
Qed.

Lemma toFixed1_range (r : Q) :
  (0 <= r)%Q -> (r < 1)%Q ->
  (32 # 10 <= toFixed1 ((32 # 10) + r * (16 # 10)))%Q
  /\ (toFixed1 ((32 # 10) + r * (16 # 10)) <= 48 # 10)%Q.
Proof.
  intros H0 H1. unfold toFixed1.
  set (x := (((32 # 10) + r * (16 # 10)) * 10 + (1 # 2))%Q).
  assert (Hlo : (inject_Z 32 <= x)%Q).
  { unfold x. change (inject_Z 32) with (32 # 1). lra. }
  assert (Hhi : (x < inject_Z 49)%Q).
  { unfold x. change (inject_Z 49) with (49 # 1). lra. }
  assert (32 <= Qfloor x)%Z.
  { rewrite <- (Qfloor_Z 32). by apply Qfloor_resp_le. }
  assert (Qfloor x < 49)%Z.
  { rewrite Zlt_Qlt. eapply Qle_lt_trans; [apply Qfloor_le | exact Hhi]. }
  unfold Qle. cbn [Qnum Qden]. lia.
Qed.

Lemma reviews_range (r : Q) :
  (0 <= r)%Q -> (r < 1)%Q ->
  (0 <= inject_Z (Qfloor (r * 500)))%Q /\ (inject_Z (Qfloor (r * 500)) < 500)%Q.
Proof.
  intros H0 H1.
  assert (Hlo : (inject_Z 0 <= r * 500)%Q).
  { change (inject_Z 0) with (0 # 1). lra. }
  assert (Hhi : (r * 500 < inject_Z 500)%Q).
  { change (inject_Z 500) with (500 # 1). lra. }
  split.
  - change 0%Q with (inject_Z 0). rewrite <- Zle_Qle.
    rewrite <- (Qfloor_Z 0). by apply Qfloor_resp_le.
  - change 500%Q with (inject_Z 500). rewrite <- Zlt_Qlt, Zlt_Qlt.
    eapply Qle_lt_trans; [apply Qfloor_le | exact Hhi].
Qed.

Lemma mockLead_ok (search : SearchData) (rnd : nat -> Q) (i : nat) :
  unit_samples rnd -> mock_lead_ok search i (mockLead search rnd i).
Proof.
  intros Hr. unfold mock_lead_ok, mockLead; simpl. repeat split.
  - eexists. split; [reflexivity|]. repeat split.
    + apply contains_here.
    + apply contains_later, contains_later, contains_here.
    + do 4 apply contains_later. apply contains_end.
  - eexists. split; [reflexivity|].
    destruct (Hr (3 * i + 1)%nat). by apply toFixed1_range.
  - eexists. split; [reflexivity|].
    destruct (Hr (3 * i + 2)%nat). by apply reviews_range.
Qed.

(** ** Running computations *)

Lemma bind_done {A B} (c : M A) (k : A -> M B) (w w1 : World) (a : A) :
  c w = (Done a, w1) -> bind c k w = k a w1.
Proof. unfold bind. by intros ->. Qed.

Lemma bind_thrown {A B} (c : M A) (k : A -> M B) (w w1 : World) (m : string) :
  c w = (Thrown m, w1) -> bind c k w = (Thrown m, w1).
Proof. unfold bind. by intros ->. Qed.

Lemma replay_app (evs1 evs2 : list Event) (s : Store) :
  replay (evs1 ++ evs2) s = replay evs2 (replay evs1 s).
Proof. unfold replay. apply foldl_app. Qed.

Lemma apply_batch_app (ops1 ops2 : list WriteOp) (s : Store) :
  apply_batch (ops1 ++ ops2) s = apply_batch ops2 (apply_batch ops1 s).
Proof. unfold apply_batch. apply foldl_app. Qed.

(** ** [chunkArray] *)

Lemma chunk_loop_concat {T} (n : nat) :
  forall (fuel : nat) (items : list T),
    (length items <= fuel)%nat ->
    concat (chunk_loop fuel items (S n)) = items.
Proof.
  induction fuel as [|fuel IH]; intros items Hlen.
  - destruct items; [reflexivity | simpl in Hlen; lia].
  - destruct items as [|x items]; [reflexivity|].
    cbn [chunk_loop concat]. rewrite IH.
    + apply take_drop.
    + rewrite length_drop. simpl in *. lia.
Qed.

Lemma chunk_loop_sizes {T} (n : nat) :
  forall (fuel : nat) (items : list T),
    Forall (fun c => 0 < length c <= S n)%nat (chunk_loop fuel items (S n)).
Proof.
  induction fuel as [|fuel IH]; intros items.
  - destruct items; constructor.
  - destruct items as [|x items]; [constructor|].
    cbn [chunk_loop]. constructor; [|apply IH].
    rewrite length_take. simpl. lia.
Qed.

Lemma chunkArray_concat {T} (items : list T) (n : nat) :
  concat (chunkArray items (S n)) = items.
Proof. by apply chunk_loop_concat. Qed.

Lemma chunkArray_sizes {T} (items : list T) (n : nat) :
  Forall (fun c => 0 < length c <= S n)%nat (chunkArray items (S n)).
Proof. apply chunk_loop_sizes. Qed.

Lemma chunkArray_nonempty {T} (items : list T) (n : nat) :
  items <> [] -> chunkArray items (S n) <> [].
Proof.
  intros Hne Hnil. apply Hne.
  rewrite <- (chunkArray_concat items n), Hnil. reflexivity.
Qed.

(** ** Batches of lead writes *)

Section Finalize.

Context (env : Env) (userId searchId : string).

Lemma lead_write_run (lead : LeadPayload) (w : World) :
  lead_write env userId searchId lead w
  = let id := fresh (dom (leads (db w)) ∪ issued w) in
    (Done (SetLead id (mkLeadDoc lead (Some searchId) (Some userId)
                         (Some (clock_reading env (clock w))))),
     mkWorld (db w) (identities w) ({[id]} ∪ issued w) (journal w)
       (S (clock w)) (rolls w) (calls w) (fetches w)).
Proof. reflexivity. Qed.

Lemma traverse_lead_write (chunk : list LeadPayload) :
  forall w, exists sets w1,
    traverse chunk (lead_write env userId searchId) w = (Done sets, w1)
    /\ db w1 = db w /\ journal w1 = journal w
    /\ identities w1 = identities w /\ calls w1 = calls w
    /\ Forall2 (is_lead_set userId searchId) chunk sets
    /\ NoDup (fst <$> omap set_entry sets)
    /\ (forall id, id ∈ fst <$> omap set_entry sets ->
          leads (db w) !! id = None /\ (id ∉ issued w) /\ (id ∈ issued w1))
    /\ issued w ⊆ issued w1.
Proof.
  induction chunk as [|lead chunk IH]; intros w.
  - exists [], w. cbn.
    split_and!; try done;
      first [ by constructor | apply NoDup_nil_2 | intros id Hin; by inversion Hin ].
  - cbn [traverse]. unfold bind at 1. rewrite lead_write_run. cbv zeta.
    pose proof (is_fresh (dom (leads (db w)) ∪ issued w)) as Hid.
    revert Hid. generalize (fresh (dom (leads (db w)) ∪ issued w)).
    intros id Hid. cbv beta iota. unfold bind at 1.
    match goal with
    | |- context [traverse chunk _ ?w0] =>
        destruct (IH w0) as (sets & w1 & Hrun & Hdb & Hj & Hi & Hc & Hsets
                             & Hnd & Hfresh & Hsub)
    end.
    cbn [db journal identities calls issued] in *.
    rewrite Hrun.
    eexists (SetLead id _ :: sets), w1.
    split; [reflexivity|].
    assert (Hnew : forall x, x ∈ (omap set_entry sets).*1 -> x <> id).
    { intros x Hx ->. apply Hfresh in Hx as (_ & Hnot & _).
      apply Hnot. apply elem_of_union_l, elem_of_singleton. reflexivity. }
    assert (Hin1 : id ∈ issued w1).
    { apply Hsub, elem_of_union_l, elem_of_singleton. reflexivity. }
    split_and!; try done.
    + constructor; [|done]. by eexists _, _.
    + cbn. constructor; [|done]. intros Hin. by apply (Hnew id).
    + intros x Hx. cbn in Hx. apply elem_of_cons in Hx as [->|Hx].
      * split_and!; [| |done].
        -- apply not_elem_of_dom. intros Hd. apply Hid, elem_of_union_l, Hd.
        -- intros Hw. apply Hid, elem_of_union_r, Hw.
      * apply Hfresh in Hx as (Hl & Hnot & Hin). split_and!; [done| |done].
        intros Hw. apply Hnot, elem_of_union_r, Hw.
    + intros x Hx. apply Hsub, elem_of_union_r, Hx.
Qed.

(** *** What a batch does to the store *)

Lemma lead_sets_entries (chunk : list LeadPayload) (sets : list WriteOp) :
  Forall2 (is_lead_set userId searchId) chunk sets ->
  Forall2 (fun lead e =>
             exists now,
               e.2 = mkLeadDoc lead (Some searchId) (Some userId) (Some now))
    chunk (omap set_entry sets)
  /\ Forall (fun op => is_Some (set_entry op)) sets.
Proof.
  induction 1 as [|lead op chunk sets (id & now & ->) _ [IH1 IH2]]; cbn.
  - split; constructor.
  - split; constructor; eauto.
Qed.

Lemma apply_sets (sets : list WriteOp) :
  forall s,
    Forall (fun op => is_Some (set_entry op)) sets ->
    NoDup (fst <$> omap set_entry sets) ->
    profiles (apply_batch sets s) = profiles s
    /\ searches (apply_batch sets s) = searches s
    /\ subscriptions (apply_batch sets s) = subscriptions s
    /\ leads (apply_batch sets s) = list_to_map (omap set_entry sets) ∪ leads s.
Proof.
  induction sets as [|op sets IH]; intros s Hall Hnd.
  - cbn. by rewrite (left_id_L ∅ (∪)).
  - inversion Hall as [|? ? [[id doc] Hop] Hall']; subst.
    destruct op; try discriminate. injection Hop as -> ->.
    cbn in Hnd. apply NoDup_cons in Hnd as [Hid Hnd].
    change (apply_batch (SetLead id doc :: sets) s)
      with (apply_batch sets (apply_op (SetLead id doc) s)).
    destruct (IH (apply_op (SetLead id doc) s) Hall' Hnd) as (-> & -> & -> & ->).
    cbn. split_and!; try done.
    rewrite <- insert_union_l. symmetry. apply insert_union_r.
    by apply not_elem_of_list_to_map_1.
Qed.

Lemma persisted_nil (m : gmap string LeadDoc) :
  persisted userId searchId [] m m.
Proof.
  exists []. cbn. split_and!; [constructor | apply NoDup_nil_2 | |].
  - intros id Hin. by inversion Hin.
  - by rewrite (left_id_L ∅ (∪)).
Qed.

Lemma persisted_app (l1 l2 : list LeadPayload) (m0 m1 m2 : gmap string LeadDoc) :
  persisted userId searchId l1 m0 m1 ->
  persisted userId searchId l2 m1 m2 ->
  persisted userId searchId (l1 ++ l2) m0 m2.
Proof.
  intros (e1 & Hf1 & Hnd1 & Hnew1 & ->) (e2 & Hf2 & Hnd2 & Hnew2 & ->).
  assert (Hdisj : forall id, id ∈ e2.*1 -> id ∉ e1.*1).
  { intros id Hin2 Hin1. apply Hnew2 in Hin2.
    apply lookup_union_None in Hin2 as [Hin2 _].
    by apply not_elem_of_list_to_map in Hin2. }
  exists (e1 ++ e2). split_and!.
  - by apply Forall2_app.
  - rewrite fmap_app. apply NoDup_app. split_and!; [done| |done].
    intros id Hin1 Hin2. by apply (Hdisj id).
  - intros id. rewrite fmap_app, elem_of_app. intros [Hin|Hin]; [by apply Hnew1|].
    apply Hnew2 in Hin. by apply lookup_union_None in Hin as [_ ?].
  - rewrite list_to_map_app, (assoc_L (∪)). f_equal.
    apply map_union_comm, map_disjoint_spec.
    intros id x y Hx Hy.
    apply elem_of_list_to_map_2, (list_elem_of_fmap_2 fst) in Hx.
    apply elem_of_list_to_map_2, (list_elem_of_fmap_2 fst) in Hy.
    by apply (Hdisj id).
Qed.

Lemma chunk_batch_effect (total : nat) (cur : Z) (isLast : bool)
    (chunk : list LeadPayload) (s : Store) (b : list WriteOp) :
  chunk_batch userId searchId total cur isLast chunk s b ->
  subscriptions (apply_batch b s) = subscriptions s
  /\ persisted userId searchId chunk (leads s) (leads (apply_batch b s))
  /\ (if isLast then
        exists t1 t2,
          searches (apply_batch b s)
          = <[searchId := merge_search
                            (completed_patch (Z.of_nat total) t1)
                            (default no_search_fields (searches s !! searchId))]>
              (searches s)
          /\ profiles (apply_batch b s)
             = <[userId := merge_profile
                             (usage_patch (cur + Z.of_nat total) t2)
                             (default no_profile_fields (profiles s !! userId))]>
                 (profiles s)
      else searches (apply_batch b s) = searches s
           /\ profiles (apply_batch b s) = profiles s).
Proof.
  intros (sets & final & -> & Hsets & Hnd & Hnew & Hfinal).
  destruct (lead_sets_entries _ _ Hsets) as [Hentries Hall].
  destruct (apply_sets sets s Hall Hnd) as (Hp & Hs & Hsub & Hl).
  rewrite apply_batch_app.
  assert (Hpers : persisted userId searchId chunk (leads s)
                    (leads (apply_batch sets s))).
  { exists (omap set_entry sets). by rewrite Hl. }
  destruct isLast.
  - destruct Hfinal as (t1 & t2 & ->). cbn.
    rewrite Hp, Hs, Hsub. split_and!; [done|done|]. by exists t1, t2.
  - subst final. cbn. by rewrite Hp, Hs, Hsub.
Qed.

Lemma replay_committed (batches : list (list WriteOp)) :
  forall s,
    replay (Committed <$> batches) s
    = foldl (fun acc b => apply_batch b acc) s batches.
Proof. induction batches as [|b bs IH]; intros s; cbn; [done | apply IH]. Qed.

Lemma replay_cons_committed (b : list WriteOp) (evs : list Event) (s : Store) :
  replay (Committed b :: evs) s = replay evs (apply_batch b s).
Proof. reflexivity. Qed.

Lemma batches_effect (total : nat) (cur : Z) (count : nat)
    (batches : list (list WriteOp)) :
  forall (chunks : list (list LeadPayload)) (index : nat) (s : Store),
    batches_written userId searchId total cur count index chunks s batches ->
    (index + length chunks = count)%nat ->
    subscriptions (replay (Committed <$> batches) s) = subscriptions s
    /\ persisted userId searchId (concat (take (length batches) chunks))
         (leads s) (leads (replay (Committed <$> batches) s))
    /\ (length batches <= length chunks)%nat
    /\ ((length batches < length chunks)%nat ->
        searches (replay (Committed <$> batches) s) = searches s
        /\ profiles (replay (Committed <$> batches) s) = profiles s)
    /\ (length batches = length chunks -> chunks <> [] ->
        exists t1 t2,
          searches (replay (Committed <$> batches) s)
          = <[searchId := merge_search
                            (completed_patch (Z.of_nat total) t1)
                            (default no_search_fields (searches s !! searchId))]>
              (searches s)
          /\ profiles (replay (Committed <$> batches) s)
             = <[userId := merge_profile
                             (usage_patch (cur + Z.of_nat total) t2)
                             (default no_profile_fields (profiles s !! userId))]>
                 (profiles s)).
Proof.
  induction batches as [|b bs IH]; intros chunks index s Hw Hcount.
  - cbn. split_and!; [done|apply persisted_nil|lia|done|].
    intros Hlen Hne. destruct chunks; [done | discriminate].
  - destruct chunks as [|chunk rest]; [destruct Hw|].
    destruct Hw as [Hb Hrest]. cbn [length] in *.
    destruct (IH rest (S index) (apply_batch b s) Hrest ltac:(lia))
      as (Hsub & Hpers & Hle & Hpart & Hfull).
    destruct (chunk_batch_effect _ _ _ _ _ _ Hb) as (Hsub1 & Hpers1 & Hflag).
    rewrite fmap_cons, replay_cons_committed.
    cbn [take concat]. split_and!.
    + by rewrite Hsub.
    + eapply persisted_app; eassumption.
    + lia.
    + intros Hlt. destruct (index =? count - 1)%nat eqn:Hi.
      { apply Nat.eqb_eq in Hi. lia. }
      destruct Hflag as [Hs1 Hp1].
      destruct Hpart as [-> ->]; [lia|]. done.
    + intros Hlen _. destruct (index =? count - 1)%nat eqn:Hi.
      * apply Nat.eqb_eq in Hi.
        assert (rest = []) as -> by (destruct rest; [done | cbn in *; lia]).
        destruct bs; [|cbn in *; lia]. exact Hflag.
      * apply Nat.eqb_neq in Hi. destruct Hflag as [Hs1 Hp1].
        assert (rest <> []) as Hne by (intros ->; cbn in *; lia).
        destruct (Hfull ltac:(lia) Hne) as (t1 & t2 & -> & ->).
        exists t1, t2. by rewrite Hs1, Hp1.
Qed.

(** *** Running the writer *)

Lemma finalize_chunk_run (total : nat) (cur : Z) (isLast : bool)
    (chunk : list LeadPayload) (w : World) (r : Outcome unit) (w' : World) :
  finalize_chunk env userId searchId total cur isLast chunk w = (r, w') ->
  identities w' = identities w
  /\ exists b,
       chunk_batch userId searchId total cur isLast chunk (db w) b
       /\ ((r = Done tt /\ journal w' = journal w ++ [Committed b]
            /\ db w' = apply_batch b (db w))
           \/ (exists m k, r = Thrown m /\ store_fault env k = Some m
                           /\ journal w' = journal w /\ db w' = db w)).
Proof.
  destruct (traverse_lead_write chunk w)
    as (sets & w1 & Hrun & Hdb & Hj & Hi & _ & Hsets & Hnd & Hfresh & _).
  unfold finalize_chunk. rewrite (bind_done _ _ _ _ _ Hrun).
  assert (Hnew : forall id, id ∈ (omap set_entry sets).*1 ->
                            leads (db w) !! id = None)
    by (intros id Hin; by apply Hfresh in Hin as (? & _)).
  destruct isLast.
  - cbv [bind nowIso ret commit request].
    cbn [db identities issued journal clock rolls calls fetches].
    set (final := [MergeSearch searchId
                     (completed_patch (Z.of_nat total)
                        (clock_reading env (clock w1)));
                   MergeProfile userId
                     (usage_patch (cur + Z.of_nat total)
                        (clock_reading env (S (clock w1))))]).
    assert (Hb : chunk_batch userId searchId total cur true chunk (db w)
                   (sets ++ final)).
    { exists sets, final. split_and!; try done. by eexists _, _. }
    destruct (store_fault env (calls w1)) as [m|] eqn:Hf; intros [= <- <-];
      cbn [db identities issued journal clock rolls calls fetches with_db record];
      (split; [done|]); exists (sets ++ final); (split; [done|]).
    + right. exists m, (calls w1). by rewrite Hj, Hdb.
    + left. by rewrite Hj, Hdb.
  - cbv [bind nowIso ret commit request].
    cbn [db identities issued journal clock rolls calls fetches].
    assert (Hb : chunk_batch userId searchId total cur false chunk (db w)
                   (sets ++ [])).
    { exists sets, []. by split_and!. }
    destruct (store_fault env (calls w1)) as [m|] eqn:Hf; intros [= <- <-];
      cbn [db identities issued journal clock rolls calls fetches with_db record];
      (split; [done|]); exists (sets ++ []); (split; [done|]).
    + right. exists m, (calls w1). by rewrite Hj, Hdb.
    + left. by rewrite Hj, Hdb.
Qed.

Lemma finalize_chunks_run (total : nat) (cur : Z) (count : nat)
    (chunks : list (list LeadPayload)) :
  forall (index : nat) (w : World) (r : Outcome unit) (w' : World),
    finalize_chunks env userId searchId total cur count index chunks w = (r, w') ->
    identities w' = identities w
    /\ exists batches,
         journal w' = journal w ++ (Committed <$> batches)
         /\ db w' = replay (Committed <$> batches) (db w)
         /\ batches_written userId searchId total cur count index chunks (db w)
              batches
         /\ ((r = Done tt /\ length batches = length chunks)
             \/ (exists m k, r = Thrown m /\ store_fault env k = Some m
                             /\ (length batches < length chunks)%nat)).
Proof.
  induction chunks as [|chunk rest IH]; intros index w r w' Hrun.
  - injection Hrun as <- <-. split; [done|]. exists [].
    cbn. rewrite (right_id_L [] (++)). split_and!; try done. by left.
  - cbn [finalize_chunks] in Hrun.
    destruct (finalize_chunk env userId searchId total cur
                (index =? count - 1)%nat chunk w) as [r1 w1] eqn:Hchunk.
    destruct (finalize_chunk_run _ _ _ _ _ _ _ Hchunk)
      as (Hi1 & b & Hb & [(-> & Hj1 & Hdb1)|(m & k & -> & Hf & Hj1 & Hdb1)]).
    + rewrite (bind_done _ _ _ _ _ Hchunk) in Hrun.
      destruct (IH _ _ _ _ Hrun) as (Hi2 & bs & Hj2 & Hdb2 & Hw2 & Hout).
      split; [congruence|]. exists (b :: bs). split_and!.
      * rewrite Hj2, Hj1, <- (assoc_L (++)). reflexivity.
      * rewrite Hdb2, Hdb1. reflexivity.
      * split; [done|]. by rewrite <- Hdb1.
      * destruct Hout as [(-> & Hlen)|(m & k & -> & Hf & Hlen)].
        -- left. cbn. by rewrite Hlen.
        -- right. exists m, k. cbn. split_and!; [done|done|lia].
    + rewrite (bind_thrown _ _ _ _ _ Hchunk) in Hrun. injection Hrun as <- <-.
      split; [done|]. exists []. cbn. rewrite (right_id_L [] (++)).
      split_and!; try done. right. exists m, k. split_and!; [done|done|lia].
Qed.

End Finalize.

Lemma writeLeadsAndFinalize_run (env : Env) (userId searchId : string)
    (items : list LeadPayload) (cur : Z) (w : World) (r : Outcome unit)
    (w' : World) :
  writeLeadsAndFinalize env userId searchId items cur w = (r, w') ->
  identities w' = identities w
  /\ exists batches,
       journal w' = journal w ++ (Committed <$> batches)
       /\ db w' = replay (Committed <$> batches) (db w)
       /\ finalize_shape userId searchId items cur (db w) r batches
       /\ finalize_effect userId searchId items cur (db w) r (db w')
       /\ (store_available env -> r = Done tt).
Proof.
  unfold writeLeadsAndFinalize. destruct items as [|lead items].
  - cbn [length Nat.eqb]. cbv [bind nowIso ret commit request].
    cbn [db identities issued journal clock rolls calls fetches].
    destruct (store_fault env (calls w)) as [m|] eqn:Hf; cbv beta iota;
      intros [= <- <-];
      cbn [db identities issued journal clock rolls calls fetches with_db record].
    + split; [done|]. exists []. cbn [fmap list_fmap replay foldl].
      rewrite (right_id_L [] (++)). split_and!; try done.
      * right. by exists m.
      * split_and!; try done. exists 0%nat. split; [by right|].
        apply persisted_nil.
      * intros Ha. by rewrite Ha in Hf.
    + split; [done|]. eexists [[_]]. split_and!; try done.
      * left. by eexists.
      * unfold finalize_effect, apply_batch.
        cbn [foldl apply_op profiles searches leads subscriptions].
        split_and!; try done; [|apply persisted_nil].
        eexists. rewrite lookup_insert_eq. by split_and!.
  - cbn [length Nat.eqb]. intros Hrun.
    set (chunks := chunkArray (lead :: items) 400) in *.
    destruct (finalize_chunks_run env userId searchId _ _ _ _ _ _ _ _ Hrun)
      as (Hi & batches & Hj & Hdb & Hw & Hout).
    destruct (batches_effect userId searchId _ _ _ _ _ _ _ Hw eq_refl)
      as (Hsub & Hpers & Hle & Hpart & Hfull).
    split; [done|]. exists batches. split_and!; try done.
    + split; [done|]. destruct Hout as [(-> & Hlen)|(m & k & -> & _ & Hlen)].
      * by left.
      * right. by exists m.
    + rewrite Hdb. split; [done|].
      destruct Hout as [(-> & Hlen)|(m & k & -> & _ & Hlen)].
      * destruct (Hfull Hlen) as (t1 & t2 & Hs & Hp).
        { by apply chunkArray_nonempty. }
        rewrite Hlen, firstn_all in Hpers. fold chunks in Hpers.
        unfold chunks in Hpers at 1. rewrite chunkArray_concat in Hpers.
        split_and!; [| |done].
        -- eexists. rewrite Hs, lookup_insert_eq. by split_and!.
        -- eexists. rewrite Hp, lookup_insert_eq. by split_and!.
      * destruct (Hpart Hlen) as [Hs Hp]. split_and!; [done|done|].
        exists (length batches). split; [by left|done].
    + intros Ha. destruct Hout as [(-> & _)|(m & k & -> & Hf & _)]; [done|].
      by rewrite Ha in Hf.
Qed.

(** ** The enrichment pass *)

Section Enrichment.

Context (env : Env) (searchId : string).

Lemma enriched_refl (candidates : list LeadPayload) (s : Store) :
  enriched searchId candidates s s.
Proof. split_and!; try done. intros id. by left. Qed.

Lemma enriched_trans (candidates : list LeadPayload) (s0 s1 s2 : Store) :
  enriched searchId candidates s0 s1 ->
  enriched searchId candidates s1 s2 ->
  enriched searchId candidates s0 s2.
Proof.
  intros (Hp1 & Hs1 & Hb1 & Hl1) (Hp2 & Hs2 & Hb2 & Hl2).
  split_and!; try congruence.
  intros id.
  destruct (Hl2 id) as [H2|(doc2 & f2 & c2 & Hd2 & Hsid2 & Hc2 & Hw2 & H2)];
    destruct (Hl1 id) as [H1|(doc1 & f1 & c1 & Hd1 & Hsid1 & Hc1 & Hw1 & H1)].
  - left. congruence.
  - right. exists doc1, f1, c1. split_and!; try done. congruence.
  - right. exists doc2, f2, c2. split_and!; try done. congruence.
  - right. rewrite H1 in Hd2. injection Hd2 as <-.
    exists doc1, f2, c1. split_and!; try done.
Qed.

Lemma leads_of_site_lookup (site : option string) (s : Store) (id : string) :
  id ∈ leads_of_site searchId site s ->
  exists doc,
    leads s !! id = Some doc
    /\ l_search_id doc = Some searchId
    /\ website (l_lead doc) = site.
Proof.
  unfold leads_of_site. intros Hin.
  apply list_elem_of_fmap in Hin as ([id' doc] & -> & Hin).
  apply elem_of_map_to_list, map_lookup_filter_Some in Hin as (Hdoc & Hs & Hw).
  by exists doc.
Qed.

Lemma enrich_lead_run (candidates : list LeadPayload) (lead : LeadPayload)
    (w : World) (r : Outcome unit) (w' : World) :
  lead ∈ candidates ->
  enrich_lead env searchId lead w = (r, w') ->
  r = Done tt
  /\ identities w' = identities w
  /\ exists evs,
       journal w' = journal w ++ evs
       /\ Forall enrich_event evs
       /\ db w' = replay evs (db w)
       /\ enriched searchId candidates (db w) (db w').
Proof.
  intros Hcand.
  assert (Hpage : enrich_event (PageFetched (default "" (website lead))))
    by (left; by eexists).
  unfold enrich_lead, swallow, try_catch.
  cbv [bind fetch_page read request ret commit].
  destruct (page_reply env (fetches w) (default "" (website lead)))
    as [m|html]; cbv beta iota.
  { intros [= <- <-]. cbn. split_and!; try done.
    eexists [_]. split_and!; [done|by apply Forall_singleton|done|].
    apply enriched_refl. }
  destruct (match_email html) as [found|]; cbv beta iota.
  2:{ intros [= <- <-]. cbn. split_and!; try done.
      eexists [_]. split_and!; [done|by apply Forall_singleton|done|].
      apply enriched_refl. }
  cbn [db identities issued journal clock rolls calls fetches].
  destruct (store_fault env (calls w)) as [m|]; cbv beta iota.
  { intros [= <- <-]. cbn. split_and!; try done.
    eexists [_]. split_and!; [done|by apply Forall_singleton|done|].
    apply enriched_refl. }
  cbn [db identities issued journal clock rolls calls fetches].
  destruct (leads_of_site searchId (website lead) (db w)) as [|id ids] eqn:Hq;
    cbn [take]; cbv beta iota.
  { intros [= <- <-]. cbn. split_and!; try done.
    eexists [_]. split_and!; [done|by apply Forall_singleton|done|].
    apply enriched_refl. }
  cbn [db identities issued journal clock rolls calls fetches].
  destruct (store_fault env (S (calls w))) as [m|]; cbv beta iota.
  { intros [= <- <-]. cbn. split_and!; try done.
    eexists [_]. split_and!; [done|by apply Forall_singleton|done|].
    apply enriched_refl. }
  intros [= <- <-].
  cbn [db identities issued journal clock rolls calls fetches with_db record].
  split_and!; try done.
  exists [PageFetched (default "" (website lead));
          Committed [MergeLeadEmail id found]].
  split_and!.
  - by rewrite <- (assoc_L (++)).
  - apply Forall_cons. split; [done|]. apply Forall_singleton.
    right. by eexists _, _.
  - reflexivity.
  - destruct (leads_of_site_lookup (website lead) (db w) id) as (doc & Hdoc & Hs & Hw).
    { rewrite Hq. apply list_elem_of_here. }
    unfold enriched, apply_batch.
    cbn [foldl apply_op profiles searches leads subscriptions].
    rewrite Hdoc. cbn [default]. split_and!; try done.
    intros id'. destruct (decide (id' = id)) as [->|Hne].
    + right. exists doc, found, lead. rewrite lookup_insert_eq. by split_and!.
    + left. by rewrite lookup_insert_ne.
Qed.

Lemma for_each_enrich (candidates : list LeadPayload) (todo : list LeadPayload) :
  forall (w : World) (r : Outcome unit) (w' : World),
    (forall lead, lead ∈ todo -> lead ∈ candidates) ->
    for_each todo (enrich_lead env searchId) w = (r, w') ->
    r = Done tt
    /\ identities w' = identities w
    /\ exists evs,
         journal w' = journal w ++ evs
         /\ Forall enrich_event evs
         /\ db w' = replay evs (db w)
         /\ enriched searchId candidates (db w) (db w').
Proof.
  induction todo as [|lead todo IH]; intros w r w' Hsub Hrun.
  - injection Hrun as <- <-. split_and!; try done.
    exists []. rewrite (right_id_L [] (++)). split_and!; try done.
    apply enriched_refl.
  - cbn [for_each] in Hrun.
    destruct (enrich_lead env searchId lead w) as [r1 w1] eqn:H1.
    destruct (enrich_lead_run candidates lead w r1 w1) as
      (-> & Hi1 & evs1 & Hj1 & He1 & Hdb1 & Hen1); [|done|].
    { apply Hsub, list_elem_of_here. }
    rewrite (bind_done _ _ _ _ _ H1) in Hrun.
    destruct (IH w1 r w') as (-> & Hi2 & evs2 & Hj2 & He2 & Hdb2 & Hen2); [|done|].
    { intros l Hl. by apply Hsub, list_elem_of_further. }
    split_and!; [done|congruence|].
    exists (evs1 ++ evs2). split_and!.
    + by rewrite Hj2, Hj1, (assoc_L (++)).
    + by apply Forall_app.
    + by rewrite replay_app, <- Hdb1.
    + by eapply enriched_trans.
Qed.

Lemma maybeEnrichEmails_run (plan : PlanType) (items : list LeadPayload)
    (w : World) (r : Outcome unit) (w' : World) :
  maybeEnrichEmails env plan searchId items w = (r, w') ->
  r = Done tt
  /\ identities w' = identities w
  /\ exists evs,
       journal w' = journal w ++ evs
       /\ Forall enrich_event evs
       /\ db w' = replay evs (db w)
       /\ enriched searchId (enrich_candidates items) (db w) (db w').
Proof.
  destruct plan; cbn [maybeEnrichEmails].
  - intros [= <- <-]. split_and!; try done.
    exists []. rewrite (right_id_L [] (++)). split_and!; try done.
    apply enriched_refl.
  - by apply for_each_enrich.
  - by apply for_each_enrich.
Qed.

End Enrichment.

(** ** The search handler *)

Section SearchHandler.

Context (env : Env).

Ltac fields :=
  unfold record, with_db;
  cbn [db identities issued journal clock rolls calls fetches].

Lemma answer_run (c : M unit) (b : Body) (w : World) :
  (c ;;; ret (res_json b)) w = (answer (c w).1 b, (c w).2).
Proof. unfold bind, ret, answer. by destruct (c w) as [[| |] w']. Qed.

Lemma replay_provider (q : string) (c : option Z) (evs : list Event)
    (s : Store) :
  replay (ProviderRun q c :: evs) s = replay evs s.
Proof. reflexivity. Qed.

Lemma replay_dataset (ds : string) (evs : list Event) (s : Store) :
  replay ([DatasetRead ds] ++ evs) s = replay evs s.
Proof. reflexivity. Qed.

Lemma dataset_leads_run (items : json) (w : World) :
  match items with
  | JArray xs => evaluate (normalizeApifyLeads xs)
  | _ => ret []
  end w
  = (Done (dataset_leads items), w).
Proof.
  destruct items; try reflexivity.
  by rewrite normalizeApifyLeads_returns.
Qed.

Lemma run_live_sound (user : DecodedUser) (searchId : string)
    (search : SearchData) (cur : Z) (plan : PlanType) (w : World)
    (r : Outcome Response) (w' : World) :
  truthy (APIFY_TOKEN env) = true ->
  run_live env user searchId search cur plan w = (r, w') ->
  identities w' = identities w
  /\ exists evs,
       journal w' = journal w ++ evs
       /\ db w' = replay evs (db w)
       /\ work_run env (uid user) searchId search cur w r evs.
Proof.
  intros Htok. unfold run_live. fold (search_query search).
  set (query := search_query search). set (cap := s_max_results search).
  unfold bind at 1. unfold start_provider_run.
  destruct (apify_reply env (fetches w) query cap) as [m|st d|m|run] eqn:Hreply;
    try (intros [= <- <-]; fields; split; [done|]; eexists [_];
         split_and!; [done|done|]; by apply work_provider_failed).
  set (w0 := mkWorld _ _ _ _ _ _ _ _).
  (* the run id *)
  unfold bind at 1.
  match goal with
  | |- context [(if truthy (run_data run ≫= run_id) then ?a else ?b) w0] =>
      destruct ((if truthy (run_data run ≫= run_id) then a else b) w0)
        as [rt w1] eqn:Htag
  end.
  assert (Htagged : identities w1 = identities w /\ fetches w1 = S (fetches w)
            /\ exists tagged,
                 tagging searchId run tagged
                 /\ journal w1 = journal w ++ ProviderRun query cap :: tagged
                 /\ db w1 = replay tagged (db w)
                 /\ (rt = Done tt \/ exists m, rt = Thrown m)).
  { destruct (truthy (run_data run ≫= run_id)) eqn:Hid.
    - revert Htag. cbv [bind nowIso commit request ret]. subst w0. fields.
      destruct (store_fault env (calls w)) as [m|]; cbv beta iota;
        intros [= <- <-]; fields; split_and!; try done.
      + exists []. split_and!; [by left|done|done|]. right. by eexists.
      + eexists [_]. split_and!; [right; by eexists| |done|by left].
        by rewrite <- (assoc_L (++)).
    - injection Htag as <- <-. subst w0. fields. split_and!; try done.
      exists []. split_and!; [by left|done|done|by left]. }
  destruct Htagged as (Hi1 & Hf1 & tagged & Htagging & Hj1 & Hdb1 & Hrt).
  destruct Hrt as [->|[m ->]].
  2:{ intros [= <- <-]. split; [done|]. exists (ProviderRun query cap :: tagged).
      split_and!; [done|done|]. by apply (work_no_dataset_fault _ _ _ _ _ _ run). }
  clearbody w0. clear Htag w0.
  destruct (truthy (run_data run ≫= defaultDatasetId)) eqn:Hds; cbn [negb].
  - (* a dataset to read *)
    unfold bind at 1. unfold read_dataset. rewrite Hf1.
    set (ds := default "" (run_data run ≫= defaultDatasetId)).
    assert (Hfailed : forall m,
               work_run env (uid user) searchId search cur w (Thrown m)
                 (ProviderRun query cap :: tagged ++ [DatasetRead ds]))
      by (intros m; by apply (work_dataset_failed _ _ _ _ _ _ run)).
    assert (Hreplay : replay (ProviderRun query cap :: tagged ++ [DatasetRead ds])
                        (db w) = db w1).
    { by rewrite Hdb1, replay_provider, replay_app. }
    destruct (dataset_reply env (S (fetches w)) ds) as [m|m|items] eqn:Hitems.
    { intros [= <- <-]. fields. split; [done|].
      exists (ProviderRun query cap :: tagged ++ [DatasetRead ds]).
      split_and!; [|done|done]. by rewrite Hj1, <- (assoc_L (++)). }
    { intros [= <- <-]. fields. split; [done|].
      exists (ProviderRun query cap :: tagged ++ [DatasetRead ds]).
      split_and!; [|done|done]. by rewrite Hj1, <- (assoc_L (++)). }
    set (w2 := mkWorld _ _ _ _ _ _ _ _).
    unfold bind at 1. rewrite dataset_leads_run.
    set (found := dataset_leads items). unfold bind at 1.
    destruct (writeLeadsAndFinalize env (uid user) searchId found cur w2)
      as [rf w3] eqn:Hfin.
    destruct (writeLeadsAndFinalize_run _ _ _ _ _ _ _ _ Hfin)
      as (Hi3 & batches & Hj3 & Hdb3 & Hshape & Heffect & _).
    subst w2. revert Hi3 Hj3 Hdb3 Hshape Heffect. fields. rewrite Hdb1.
    intros Hi3 Hj3 Hdb3 Hshape Heffect.
    destruct rf as [[]|m|].
    + unfold bind at 1.
      destruct (maybeEnrichEmails env plan searchId found w3) as [re w4] eqn:Hen.
      destruct (maybeEnrichEmails_run _ _ _ _ _ _ _ Hen)
        as (-> & Hi4 & extra & Hj4 & Hextra & Hdb4 & Henr).
      intros [= <- <-]. split; [congruence|].
      exists (ProviderRun query cap :: tagged ++ [DatasetRead ds]
              ++ (Committed <$> batches) ++ extra).
      split_and!.
      * rewrite Hj4, Hj3, Hj1. by rewrite <- !(assoc_L (++)).
      * rewrite replay_provider, replay_app, replay_dataset, replay_app.
        by rewrite Hdb4, Hdb3.
      * apply (work_live env (uid user) searchId search cur w run tagged items
                 (Done tt) batches extra); try done.
        -- by rewrite <- Hdb3.
        -- by rewrite Hdb4, Hdb3 in Henr.
    + intros [= <- <-]. split; [congruence|].
      exists (ProviderRun query cap :: tagged ++ [DatasetRead ds]
              ++ (Committed <$> batches) ++ []).
      split_and!.
      * rewrite Hj3, Hj1. rewrite (right_id_L [] (++)).
        by rewrite <- !(assoc_L (++)).
      * rewrite replay_provider, replay_app, replay_dataset, replay_app.
        by rewrite Hdb3.
      * apply (work_live env (uid user) searchId search cur w run tagged items
                 (Thrown m) batches []); try done.
        -- by rewrite <- Hdb3.
        -- apply enriched_refl.
    + by destruct Heffect as [_ ?].
  - (* no dataset *)
    cbv [bind nowIso commit request ret]. fields.
    destruct (store_fault env (calls w1)) as [m|]; cbv beta iota;
      intros [= <- <-]; fields; (split; [done|]).
    + exists (ProviderRun query cap :: tagged). split_and!; [done|done|].
      by apply (work_no_dataset_fault _ _ _ _ _ _ run).
    + eexists (ProviderRun query cap :: tagged ++ [_]). split_and!.
      * rewrite Hj1. by rewrite <- !(assoc_L (++)).
      * rewrite replay_provider, replay_app. by rewrite Hdb1.
      * by apply (work_no_dataset _ _ _ _ _ _ run).
Qed.

Lemma after_mark_sound (user : DecodedUser) (searchId : string)
    (search : SearchData) (cur : Z) (plan : PlanType) (w : World)
    (r : Outcome Response) (w' : World) :
  after_mark env user searchId search cur plan w = (r, w') ->
  identities w' = identities w
  /\ exists evs,
       journal w' = journal w ++ evs
       /\ db w' = replay evs (db w)
       /\ work_run env (uid user) searchId search cur w r evs.
Proof.
  unfold after_mark.
  destruct (truthy (APIFY_TOKEN env)) eqn:Htok; cbn [negb].
  - by apply run_live_sound.
  - unfold bind at 1. unfold draw_mock_leads.
    set (mock := buildMockLeads search _).
    unfold bind.
    match goal with
    | |- context [writeLeadsAndFinalize env ?u ?s ?l ?c ?w2] =>
        destruct (writeLeadsAndFinalize env u s l c w2) as [rf w3] eqn:Hfin
    end.
    destruct (writeLeadsAndFinalize_run _ _ _ _ _ _ _ _ Hfin)
      as (Hi3 & batches & Hj3 & Hdb3 & Hshape & Heffect & _).
    revert Hi3 Hj3 Hdb3 Hshape Heffect. fields.
    intros Hi3 Hj3 Hdb3 Hshape Heffect.
    assert (Hwork : work_run env (uid user) searchId search cur w
                      (answer rf (RunBody demo (length mock)))
                      (Committed <$> batches)).
    { apply work_demo; try done. by rewrite <- Hdb3. }
    destruct rf as [[]|m|]; intros [= <- <-]; (split; [exact Hi3|]);
      exists (Committed <$> batches); by split_and!.
Qed.

Lemma run_search_sound (user : DecodedUser) (searchId : string) (w : World)
    (r : Outcome Response) (w' : World) :
  run_search env user searchId w = (r, w') ->
  identities w' = identities w
  /\ exists evs,
       journal w' = journal w ++ evs
       /\ db w' = replay evs (db w)
       /\ search_run env user searchId w r evs.
Proof.
  assert (Hquiet : forall m,
            identities w = identities w
            /\ exists evs,
                 journal w = journal w ++ evs /\ db w = replay evs (db w)
                 /\ search_run env user searchId w (Thrown m) evs).
  { intros m. split; [done|]. exists []. rewrite (right_id_L [] (++)).
    split_and!; [done|done|constructor]. }
  unfold run_search. cbv [bind read request ret nowIso commit]. fields.
  destruct (store_fault env (calls w)) as [m|]; cbv beta iota.
  { intros [= <- <-]. fields. apply Hquiet. }
  fields.
  destruct (searches (db w) !! searchId) as [search|] eqn:Hsearch.
  2:{ intros [= <- <-]. fields. split; [done|]. exists [].
      rewrite (right_id_L [] (++)). split_and!; [done|done|].
      apply run_not_found. intros search Hs. by rewrite Hsearch in Hs. }
  destruct (bool_decide (s_user_id search = Some (uid user))) eqn:Hown;
    cbn [negb].
  2:{ apply bool_decide_eq_false in Hown.
      intros [= <- <-]. fields. split; [done|]. exists [].
      rewrite (right_id_L [] (++)). split_and!; [done|done|].
      apply run_not_found. intros s Hs. rewrite Hsearch in Hs. congruence. }
  apply bool_decide_eq_true in Hown. fields.
  destruct (store_fault env (S (calls w))) as [m|]; cbv beta iota.
  { intros [= <- <-]. fields. apply Hquiet. }
  fields.
  destruct (profiles (db w) !! uid user) as [profile|] eqn:Hprofile.
  2:{ intros [= <- <-]. fields. split; [done|]. exists [].
      rewrite (right_id_L [] (++)). split_and!; [done|done|].
      by eapply run_no_profile. }
  destruct (default false (p_is_suspended profile)) eqn:Hsus.
  { fields.
    destruct (store_fault env (S (S (calls w)))) as [m|]; cbv beta iota;
      intros [= <- <-]; fields; [apply Hquiet|].
    split; [done|]. eexists [_]. split_and!; [done|done|].
    eapply run_rejected; try done. left. by split_and!. }
  destruct (default 2000 (p_leads_limit profile)
            <=? default 0 (p_leads_used profile)) eqn:Hquota.
  { apply Z.leb_le in Hquota. fields.
    destruct (store_fault env (S (S (calls w)))) as [m|]; cbv beta iota;
      intros [= <- <-]; fields; [apply Hquiet|].
    split; [done|]. eexists [_]. split_and!; [done|done|].
    eapply run_rejected; try done. right. by split_and!. }
  apply Z.leb_gt in Hquota. fields.
  destruct (store_fault env (S (S (calls w)))) as [m|]; cbv beta iota.
  { intros [= <- <-]. fields. apply Hquiet. }
  fields. set (now := clock_reading env (clock w)).
  set (w1 := mkWorld (apply_batch _ _) _ _ _ _ _ _ _).
  assert (Hworked : forall r evs,
            work_run env (uid user) searchId search
              (default 0 (p_leads_used profile)) w1 r evs ->
            search_run env user searchId w r
              (Committed [MergeSearch searchId (running_patch now)] :: evs)).
  { intros r0 evs Hwork.
    by eapply (run_worked _ _ _ _ search profile now w1). }
  change ((if negb (truthy (APIFY_TOKEN env)) then _ else _) w1)
    with (after_mark env user searchId search
            (default 0 (p_leads_used profile))
            (default starter (p_plan profile)) w1).
  intros Hrun.
  destruct (after_mark_sound _ _ _ _ _ _ _ _ Hrun)
    as (Hi & evs & Hj & Hdb & Hwork).
  split; [exact Hi|].
  exists (Committed [MergeSearch searchId (running_patch now)] :: evs).
  split_and!; [|rewrite Hdb; reflexivity|by apply Hworked].
  rewrite Hj. unfold w1. fields. by rewrite <- (assoc_L (++)).
Qed.

Lemma work_run_finishes (userId searchId : string) (search : SearchData)
    (cur : Z) (w : World) (evs : list Event) :
  ~ work_run env userId searchId search cur w Unfinished evs.
Proof.
  inversion 1 as [rf ? ? ? Hshape Heffect Hr| | | | |? ? ? rf ? ? ? ? ? ? ? ? ? ?
                   Hshape Heffect ? ? ? Hr];
    destruct rf; try discriminate; by destruct Heffect.
Qed.

Lemma search_run_finishes (user : DecodedUser) (searchId : string) (w : World)
    (evs : list Event) :
  ~ search_run env user searchId w Unfinished evs.
Proof.
  inversion 1; subst. by eapply work_run_finishes.
Qed.

Lemma run_apify_search_sound (auth : AuthOutcome) (search_id : option string)
    (w : World) (r : Outcome Response) (w' : World) :
  run_apify_search env auth search_id w = (r, w') ->
  identities w' = identities w
  /\ exists evs,
       journal w' = journal w ++ evs
       /\ db w' = replay evs (db w)
       /\ request_run env auth search_id w r evs.
Proof.
  unfold run_apify_search.
  destruct (requireAuthenticatedUser auth) as [resp|user] eqn:Hauth.
  { intros [= <- <-]. split; [done|]. exists [].
    rewrite (right_id_L [] (++)). split_and!; [done|done|].
    by apply request_refused. }
  destruct (truthy search_id) eqn:Hid; cbn [negb].
  2:{ intros [= <- <-]. split; [done|]. exists [].
      rewrite (right_id_L [] (++)). split_and!; [done|done|].
      by eapply request_without_id. }
  destruct search_id as [searchId|]; [|discriminate].
  change (default "" (Some searchId)) with searchId.
  unfold try_catch.
  destruct (run_search env user searchId w) as [rb wb] eqn:Hbody.
  destruct (run_search_sound _ _ _ _ _ Hbody) as (Hi & evs & Hj & Hdb & Hrun).
  destruct rb as [resp|m|]; cbv beta iota.
  - intros [= <- <-]. split; [done|]. exists evs. split_and!; [done|done|].
    by eapply request_answered.
  - cbv [swallow try_catch bind nowIso commit request ret]. fields.
    destruct (store_fault env (calls wb)) as [m'|]; cbv beta iota;
      intros [= <- <-]; fields; (split; [done|]).
    + exists (evs ++ []). rewrite (right_id_L [] (++)).
      split_and!; [done|done|].
      rewrite <- (right_id_L [] (++) evs).
      eapply request_failed; try done. by left.
    + eexists (evs ++ [_]). split_and!.
      * by rewrite Hj, <- (assoc_L (++)).
      * by rewrite replay_app, <- Hdb.
      * eapply request_failed; try done. right. by eexists.
  - by apply search_run_finishes in Hrun.
Qed.

(** The handler on a search it owns, while the store answers. *)
Lemma run_search_guard (user : DecodedUser) (searchId : string) (w : World)
    (search : SearchData) (profile : ProfileData) :
  serves env w 3 ->
  searches (db w) !! searchId = Some search ->
  s_user_id search = Some (uid user) ->
  profiles (db w) !! uid user = Some profile ->
  let written patch :=
    mkWorld (apply_batch [MergeSearch searchId patch] (db w)) (identities w)
      (issued w) (journal w ++ [Committed [MergeSearch searchId patch]])
      (S (clock w)) (rolls w) (S (S (S (calls w)))) (fetches w) in
  let now := clock_reading env (clock w) in
  run_search env user searchId w
  = match guard profile with
    | Reject status message =>
        (Done (sendError status message),
         written (failed_patch message now))
    | Proceed =>
        after_mark env user searchId search (default 0 (p_leads_used profile))
          (default starter (p_plan profile)) (written (running_patch now))
    end.
Proof.
  intros Hserves Hsearch Hown Hprofile.
  assert (H0 : store_fault env (calls w) = None).
  { rewrite <- (Nat.add_0_r (calls w)). apply Hserves. lia. }
  assert (H1 : store_fault env (S (calls w)) = None).
  { replace (S (calls w)) with (calls w + 1)%nat by lia. apply Hserves. lia. }
  assert (H2 : store_fault env (S (S (calls w))) = None).
  { replace (S (S (calls w))) with (calls w + 2)%nat by lia.
    apply Hserves. lia. }
  cbv zeta. unfold run_search, guard.
  cbv [bind read request ret nowIso commit]. fields.
  rewrite H0. cbv beta iota. fields. rewrite Hsearch.
  rewrite bool_decide_eq_true_2 by done. cbn [negb]. fields.
  rewrite H1. cbv beta iota. fields. rewrite Hprofile.
  destruct (default false (p_is_suspended profile)).
  { fields. rewrite H2. reflexivity. }
  rewrite Z.geb_leb.
  destruct (default 2000 (p_leads_limit profile)
            <=? default 0 (p_leads_used profile)).
  { fields. rewrite H2. reflexivity. }
  fields. rewrite H2. reflexivity.
Qed.

Lemma record_failure_journal (searchId m : string) (w : World)
    (r : Outcome Response) (w' : World) :
  (swallow (now <- nowIso env ;;
            commit env [MergeSearch searchId (failed_patch m now)]) ;;;
   ret (sendError 500 m)) w = (r, w') ->
  exists recorded, journal w' = journal w ++ recorded.
Proof.
  cbv [swallow try_catch bind nowIso commit request ret]. fields.
  destruct (store_fault env (calls w)); cbv beta iota; intros [= <- <-]; fields.
  - exists []. by rewrite (right_id_L [] (++)).
  - by eexists [_].
Qed.

End SearchHandler.

(** ** Cascading deletion *)

Section DeleteAll.

Context {D : Type} (owner : D -> option string) (userId : string).

Lemma lookup_delete_all (ids : list string) :
  forall (m : gmap string D) (k : string),
    delete_all ids m !! k = if decide (k ∈ ids) then None else m !! k.
Proof.
  induction ids as [|i ids IH]; intros m k.
  - cbn. case_decide as Hk; [by inversion Hk | done].
  - change (delete_all (i :: ids) m) with (delete_all ids (delete i m)).
    rewrite IH.
    destruct (decide (k ∈ ids)) as [Hin|Hnin];
      destruct (decide (k ∈ i :: ids)) as [Hin'|Hnin'];
      destruct (decide (k = i)) as [->|Hne];
      rewrite ?lookup_delete_eq, ?lookup_delete_ne by done; try done;
      first [ by exfalso; apply Hnin'; right
            | by exfalso; apply Hnin'; left
            | by apply elem_of_cons in Hin' as [?|?] ].
Qed.

Lemma owned_by_lookup (m : gmap string D) (k : string) :
  k ∈ owned_by owner userId m <->
  exists d, m !! k = Some d /\ owner d = Some userId.
Proof.
  unfold owned_by. rewrite list_elem_of_fmap. split.
  - intros ([k' d] & -> & Hin).
    apply elem_of_map_to_list, map_lookup_filter_Some in Hin as [? ?]. eauto.
  - intros (d & Hd & Ho). exists (k, d). split; [done|].
    by apply elem_of_map_to_list, map_lookup_filter_Some.
Qed.

Lemma owned_by_NoDup (m : gmap string D) : NoDup (owned_by owner userId m).
Proof. apply NoDup_fst_map_to_list. Qed.

Lemma owned_by_length (m : gmap string D) :
  length (owned_by owner userId m)
  = size (filter (fun kv => owner kv.2 = Some userId) m).
Proof. unfold owned_by. by rewrite length_fmap, length_map_to_list. Qed.

Lemma owned_by_delete_all (ids : list string) :
  forall m : gmap string D,
    NoDup ids ->
    (forall k, k ∈ ids -> k ∈ owned_by owner userId m) ->
    length (owned_by owner userId (delete_all ids m))
    = (length (owned_by owner userId m) - length ids)%nat.
Proof.
  induction ids as [|i ids IH]; intros m Hnd Hsub.
  - cbn. lia.
  - apply NoDup_cons in Hnd as [Hi Hnd].
    change (delete_all (i :: ids) m) with (delete_all ids (delete i m)).
    rewrite IH; [|done|].
    + rewrite !owned_by_length, map_filter_delete.
      destruct (proj1 (owned_by_lookup m i)) as (d & Hd & Ho).
      { apply Hsub. by left. }
      rewrite map_size_delete_Some; [cbn; lia|].
      exists d. by apply map_lookup_filter_Some.
    + intros k Hk. apply owned_by_lookup.
      destruct (proj1 (owned_by_lookup m k)) as (d & Hd & Ho).
      { apply Hsub. by right. }
      exists d. split; [|done]. rewrite lookup_delete_ne; [done|].
      intros ->. done.
Qed.

Lemma others_delete_all (ids : list string) (m : gmap string D) :
  (forall k, k ∈ ids -> k ∈ owned_by owner userId m) ->
  others owner userId (delete_all ids m) = others owner userId m.
Proof.
  intros Hsub. apply map_eq. intros k. unfold others.
  apply option_eq. intros d.
  rewrite !map_lookup_filter_Some, lookup_delete_all. cbn.
  case_decide as Hin; [|done].
  split; [by intros [? _]|]. intros [Hd Ho].
  apply Hsub, owned_by_lookup in Hin as (d' & Hd' & Ho'). congruence.
Qed.

Lemma delete_all_owned (m : gmap string D) :
  delete_all (owned_by owner userId m) m = others owner userId m.
Proof.
  apply map_eq. intros k. unfold others. apply option_eq. intros d.
  rewrite map_lookup_filter_Some, lookup_delete_all. cbn.
  case_decide as Hin.
  - split; [done|]. intros [Hd Ho].
    apply owned_by_lookup in Hin as (d' & Hd' & Ho'). congruence.
  - split; [|by intros [? _]]. intros Hd. split; [done|].
    intros Ho. apply Hin, owned_by_lookup. eauto.
Qed.

Lemma others_none (m : gmap string D) :
  owned_by owner userId m = [] -> others owner userId m = m.
Proof.
  intros Hnil. rewrite <- delete_all_owned, Hnil. reflexivity.
Qed.

End DeleteAll.

Lemma apply_deletes (c : Collection) (ids : list string) :
  forall s,
    apply_batch (DeleteDoc c <$> ids) s
    = match c with
      | Leads =>
          mkStore (profiles s) (searches s) (delete_all ids (leads s))
            (subscriptions s)
      | Searches =>
          mkStore (profiles s) (delete_all ids (searches s)) (leads s)
            (subscriptions s)
      | Profiles =>
          mkStore (delete_all ids (profiles s)) (searches s) (leads s)
            (subscriptions s)
      | Subscriptions =>
          mkStore (profiles s) (searches s) (leads s)
            (delete_all ids (subscriptions s))
      end.
Proof.
  induction ids as [|i ids IH]; intros s.
  - by destruct c, s.
  - rewrite fmap_cons.
    change (apply_batch (DeleteDoc c i :: (DeleteDoc c <$> ids)) s)
      with (apply_batch (DeleteDoc c <$> ids) (apply_op (DeleteDoc c i) s)).
    rewrite IH. by destruct c.
Qed.

Lemma user_docs_NoDup (c : Collection) (userId : string) (s : Store) :
  NoDup (user_docs c userId s).
Proof. destruct c; cbn; try apply owned_by_NoDup. apply NoDup_nil_2. Qed.

Lemma deletes_effect (c : Collection) (userId : string) (ids : list string)
    (s : Store) :
  NoDup ids ->
  (forall k, k ∈ ids -> k ∈ user_docs c userId s) ->
  length (user_docs c userId (apply_batch (DeleteDoc c <$> ids) s))
  = (length (user_docs c userId s) - length ids)%nat
  /\ purged c userId (apply_batch (DeleteDoc c <$> ids) s) = purged c userId s.
Proof.
  intros Hnd Hsub. rewrite apply_deletes. destruct c; cbn in *.
  - split; [by apply owned_by_delete_all|]. by rewrite others_delete_all.
  - split; [by apply owned_by_delete_all|]. by rewrite others_delete_all.
  - destruct ids as [|k ids]; [by destruct s|].
    exfalso. specialize (Hsub k ltac:(by left)). by inversion Hsub.
  - split; [by apply owned_by_delete_all|]. by rewrite others_delete_all.
Qed.

Lemma deletes_all (c : Collection) (userId : string) (s : Store) :
  apply_batch (DeleteDoc c <$> user_docs c userId s) s = purged c userId s.
Proof.
  rewrite apply_deletes.
  destruct c; cbn [user_docs purged]; rewrite ?delete_all_owned; try done.
  by destruct s.
Qed.

Lemma purged_none (c : Collection) (userId : string) (s : Store) :
  user_docs c userId s = [] -> purged c userId s = s.
Proof.
  destruct c; cbn [user_docs purged]; intros Hnil;
    rewrite ?others_none by done; by destruct s.
Qed.

(** Whatever the store does, the fuel of [deleteByUserId] is never used
    up: the loop ends normally or with an [Error]. *)
Lemma deleteByUserId_loop_total (env : Env) (c : Collection) (userId : string) :
  forall (fuel : nat) (w : World),
    (length (user_docs c userId (db w)) < fuel)%nat ->
    forall w', deleteByUserId_loop env fuel c userId w <> (Unfinished, w').
Proof.
  induction fuel as [|fuel IH]; intros w Hfuel w'; [lia|].
  cbn [deleteByUserId_loop]. cbv [bind read request ret commit].
  destruct (store_fault env (calls w)); cbv beta iota; [discriminate|].
  cbn [db identities issued journal clock rolls calls fetches].
  set (all := user_docs c userId (db w)) in *.
  remember (take 400 all) as snap eqn:Hsnap. destruct snap as [|k ks]; cbv beta iota; [discriminate|].
  cbn [db identities issued journal clock rolls calls fetches].
  set (snap := k :: ks) in *.
  destruct (store_fault env (S (calls w))); cbv beta iota; [discriminate|].
  unfold record, with_db.
  cbn [db identities issued journal clock rolls calls fetches].
  destruct (length snap <? 400)%nat; [discriminate|].
  apply IH. cbn [db].
  assert (Hnd : NoDup snap).
  { rewrite Hsnap. apply (NoDup_app (take 400 all) (drop 400 all)).
    rewrite take_drop. apply user_docs_NoDup. }
  assert (Hsub : forall k, k ∈ snap -> k ∈ all).
  { intros k' Hk. rewrite <- (take_drop 400 all), <- Hsnap.
    apply elem_of_app. by left. }
  destruct (deletes_effect c userId snap (db w) Hnd Hsub) as [Hcount _].
  fold all in Hcount. rewrite Hcount.
  assert (Hpos : (0 < length snap)%nat) by (cbn; lia).
  assert (Hle : (length snap <= length all)%nat)
    by (rewrite Hsnap, length_take; apply Nat.le_min_r).
  clear -Hpos Hle Hfuel. clearbody all snap. lia.
Qed.

Lemma deleteByUserId_total (env : Env) (c : Collection) (userId : string)
    (w w' : World) :
  deleteByUserId env c userId w <> (Unfinished, w').
Proof. unfold deleteByUserId. apply deleteByUserId_loop_total. lia. Qed.

Section Lifecycle.

Context (env : Env) (Havailable : store_available env).

Lemma deleteByUserId_loop_run (c : Collection) (userId : string) :
  forall (fuel : nat) (w : World),
    (length (user_docs c userId (db w)) < fuel)%nat ->
    exists w' batches,
      deleteByUserId_loop env fuel c userId w = (Done tt, w')
      /\ identities w' = identities w
      /\ journal w' = journal w ++ deletion_batches c batches
      /\ Forall batch_sized batches
      /\ db w' = purged c userId (db w).
Proof.
  induction fuel as [|fuel IH]; intros w Hfuel; [lia|].
  cbn [deleteByUserId_loop]. cbv [bind read request ret commit].
  rewrite Havailable. cbv beta iota.
  cbn [db identities issued journal clock rolls calls fetches].
  set (all := user_docs c userId (db w)) in *.
  remember (take 400 all) as snap eqn:Hsnap. destruct snap as [|k ks].
  - assert (all = []) as Hall by (destruct all; [done | discriminate]).
    eexists _, []. split_and!; try done.
    + cbn. by rewrite (right_id_L [] (++)).
    + cbn. symmetry. by apply purged_none.
  - set (snap := k :: ks) in *. rewrite Havailable. cbv beta iota.
    unfold record, with_db.
    cbn [db identities issued journal clock rolls calls fetches].
    assert (Hlen : batch_sized snap).
    { unfold batch_sized. split; [cbn; lia|].
      rewrite Hsnap, length_take. apply Nat.le_min_l. }
    assert (Hnd : NoDup snap).
    { rewrite Hsnap. apply (NoDup_app (take 400 all) (drop 400 all)).
      rewrite take_drop. apply user_docs_NoDup. }
    assert (Hsub : forall k, k ∈ snap -> k ∈ all).
    { intros k' Hk. rewrite <- (take_drop 400 all), <- Hsnap.
      apply elem_of_app. by left. }
    destruct (deletes_effect c userId snap (db w) Hnd Hsub)
      as [Hcount Hpurged].
    destruct (length snap <? 400)%nat eqn:Hfull.
    + apply Nat.ltb_lt in Hfull.
      assert (snap = all) as Heq.
      { rewrite Hsnap. apply take_ge.
        rewrite Hsnap, length_take in Hfull. clear -Hfull. clearbody all.
        revert Hfull. generalize 400%nat. lia. }
      eexists _, [snap]. split_and!; try done.
      * by apply Forall_singleton.
      * cbn [db]. rewrite Heq. apply deletes_all.
    + apply Nat.ltb_ge in Hfull.
      match goal with
      | |- context [deleteByUserId_loop env fuel c userId ?w1] =>
          destruct (IH w1) as (w' & batches & Hrun & Hi & Hj & Hsized & Hdb)
      end.
      { cbn [db]. fold all in Hcount. rewrite Hcount.
        destruct Hlen as [Hpos _].
        assert (Hle : (length snap <= length all)%nat)
          by (rewrite Hsnap, length_take; apply Nat.le_min_r).
        clear -Hpos Hle Hfuel. clearbody all snap. lia. }
      exists w', (snap :: batches). split_and!; try done.
      * rewrite Hj. cbn. by rewrite <- (assoc_L (++)).
      * by apply Forall_cons.
      * rewrite Hdb. cbn [db]. exact Hpurged.
Qed.

Lemma deleteByUserId_run (c : Collection) (userId : string) (w : World) :
  exists w' batches,
    deleteByUserId env c userId w = (Done tt, w')
    /\ identities w' = identities w
    /\ journal w' = journal w ++ deletion_batches c batches
    /\ Forall batch_sized batches
    /\ db w' = purged c userId (db w).
Proof. unfold deleteByUserId. apply deleteByUserId_loop_run. lia. Qed.

End Lifecycle.

Lemma truthy_Some (s : string) : s <> "" -> truthy (Some s) = true.
Proof.
  intros Hs. unfold truthy. apply negb_true_iff. by apply String.eqb_neq.
Qed.

Lemma commit_run (env : Env) (ops : list WriteOp) (w : World) :
  store_available env ->
  commit env ops w
  = (Done tt,
     mkWorld (apply_batch ops (db w)) (identities w) (issued w)
       (journal w ++ [Committed ops]) (clock w) (rolls w) (S (calls w))
       (fetches w)).
Proof. intros Ha. unfold commit, bind, request. by rewrite Ha. Qed.

Lemma swallow_done (c : M unit) (w w1 : World) :
  c w = (Done tt, w1) -> swallow c w = (Done tt, w1).
Proof. unfold swallow, try_catch. by intros ->. Qed.

Lemma deleteUser_run (env : Env) (userId : string) (w : World) :
  store_available env ->
  is_Some (identities w !! userId) ->
  deleteUser env userId w
  = (Done tt,
     mkWorld (db w) (delete userId (identities w)) (issued w)
       (journal w ++ [IdentityDeleted userId]) (clock w) (rolls w)
       (S (calls w)) (fetches w)).
Proof.
  intros Ha [d Hd]. unfold deleteUser, bind, request. rewrite Ha.
  cbn [identities]. by rewrite Hd.
Qed.

Lemma delete_user_run (env : Env) (requester : DecodedUser) (userId : string)
    (w : World) :
  store_available env ->
  userId <> uid requester ->
  is_Some (identities w !! userId) ->
  exists w' lead_batches search_batches,
    lifecycle_action env requester delete_user userId w
    = (Done (res_json SuccessBody), w')
    /\ journal w'
       = journal w ++ deletion_batches Leads lead_batches
         ++ deletion_batches Searches search_batches
         ++ [Committed [DeleteDoc Subscriptions userId];
             Committed [DeleteDoc Profiles userId];
             IdentityDeleted userId]
    /\ Forall batch_sized lead_batches
    /\ Forall batch_sized search_batches
    /\ db w'
       = mkStore (delete userId (profiles (db w)))
           (others s_user_id userId (searches (db w)))
           (others l_user_id userId (leads (db w)))
           (delete userId (subscriptions (db w)))
    /\ identities w' = delete userId (identities w).
Proof.
  intros Ha Hne Hid.
  destruct (deleteByUserId_run env Ha Leads userId w)
    as (w1 & lb & Hrun1 & Hi1 & Hj1 & Hs1 & Hdb1).
  destruct (deleteByUserId_run env Ha Searches userId w1)
    as (w2 & sb & Hrun2 & Hi2 & Hj2 & Hs2 & Hdb2).
  cbn [lifecycle_action]. rewrite bool_decide_eq_false_2 by done.
  rewrite (bind_done _ _ _ _ _ Hrun1), (bind_done _ _ _ _ _ Hrun2).
  rewrite (bind_done _ _ _ _ _ (swallow_done _ _ _ (commit_run env _ w2 Ha))).
  rewrite (bind_done _ _ _ _ _ (swallow_done _ _ _ (commit_run env _ _ Ha))).
  match goal with
  | |- context [bind (deleteUser env userId) _ ?w3] =>
      assert (Hid3 : is_Some (identities w3 !! userId))
        by (cbn [identities]; by rewrite Hi2, Hi1);
      rewrite (bind_done _ _ w3 _ _ (deleteUser_run env userId w3 Ha Hid3))
  end.
  eexists _, lb, sb. split; [reflexivity|].
  cbn [db identities issued journal clock rolls calls fetches].
  split_and!; try done.
  - rewrite Hj2, Hj1. by rewrite <- !(assoc_L (++)).
  - rewrite Hdb2, Hdb1. reflexivity.
  - by rewrite Hi2, Hi1.
Qed.


(** ** What a successful run leaves behind *)

Lemma persisted_size (userId searchId : string) (items : list LeadPayload)
    (before after : gmap string LeadDoc) :
  persisted userId searchId items before after ->
  size after = (size before + length items)%nat.
Proof.
  intros (entries & Hf & Hnd & Hnew & ->).
  rewrite map_size_disj_union.
  - rewrite map_size_list_to_map by done.
    apply Forall2_length in Hf. lia.
  - apply map_disjoint_spec. intros id x y Hx Hy.
    apply elem_of_list_to_map_2, (list_elem_of_fmap_2 fst) in Hx.
    apply Hnew in Hx. cbn in Hx. congruence.
Qed.

Lemma enriched_size (searchId : string) (candidates : list LeadPayload)
    (before after : Store) :
  enriched searchId candidates before after ->
  size (leads after) = size (leads before).
Proof.
  intros (_ & _ & _ & Hl). rewrite <- !size_dom. f_equal.
  apply set_eq. intros id. rewrite !elem_of_dom.
  destruct (Hl id) as [->|(doc & f & c & -> & _ & _ & _ & ->)]; [done|].
  split; intros _; by eexists.
Qed.

Lemma tagging_frame (searchId : string) (run : ApifyRun) (tagged : list Event)
    (s : Store) :
  tagging searchId run tagged ->
  profiles (replay tagged s) = profiles s
  /\ leads (replay tagged s) = leads s
  /\ subscriptions (replay tagged s) = subscriptions s.
Proof. intros [->|(now & _ & ->)]; by cbn. Qed.

(** The batches of a finalization: lead writes only, but for the closing
    writes at the end of the last batch, when it was reached. *)
Lemma batches_written_split (userId searchId : string) (total : nat) (cur : Z)
    (count : nat) (batches : list (list WriteOp)) :
  forall (chunks : list (list LeadPayload)) (index : nat) (s : Store),
    batches_written userId searchId total cur count index chunks s batches ->
    (index + length chunks = count)%nat ->
    (Forall (Forall is_set) batches /\ (length batches < length chunks
                                        \/ chunks = [])%nat)
    \/ exists plain sets final,
         batches = plain ++ [sets ++ final]
         /\ Forall (Forall is_set) plain
         /\ Forall is_set sets
         /\ closing_writes userId searchId total cur final
         /\ length batches = length chunks.
Proof.
  induction batches as [|b bs IH]; intros chunks index s Hw Hcount.
  - left. split; [constructor|]. destruct chunks; [by right|left; cbn; lia].
  - destruct chunks as [|chunk rest]; [destruct Hw|].
    destruct Hw as [(sets & final & -> & Hsets & _ & _ & Hfinal) Hrest].
    assert (Hall : Forall is_set sets).
    { clear -Hsets. induction Hsets as [|? ? ? ? (id & now & ->)];
        constructor; [by eexists _, _|done]. }
    cbn [length] in Hcount.
    destruct (index =? count - 1)%nat eqn:Hi.
    + apply Nat.eqb_eq in Hi.
      assert (rest = []) as -> by (destruct rest; [done | cbn in *; lia]).
      destruct bs; [|by destruct Hrest].
      right. exists [], sets, final. by split_and!.
    + apply Nat.eqb_neq in Hi. subst final. rewrite (right_id_L [] (++)) in *.
      destruct (IH rest (S index) _ Hrest ltac:(lia))
        as [[Hplain Hlen]|(plain & sets' & final' & -> & Hplain & Hs' & Hc & Hlen)].
      * left. split; [by constructor|]. left. cbn.
        destruct Hlen as [Hlen| ->]; [lia|]. cbn in *. lia.
      * right. exists (sets :: plain), sets', final'.
        split_and!; try done; [by constructor|]. cbn. by rewrite Hlen.
Qed.

Lemma sets_not_enrich (sets final : list WriteOp) (id found : string) :
  Forall is_set sets ->
  (final = [] \/ exists a b, final = [a; b]) ->
  sets ++ final <> [MergeLeadEmail id found].
Proof.
  intros Hsets Hfinal Heq. destruct sets as [|op sets].
  - destruct Hfinal as [->|(a & b & ->)]; discriminate.
  - inversion Hsets as [|? ? (i & d & ->)]; subst. discriminate.
Qed.

Lemma finalize_shape_quiet (userId searchId : string) (items : list LeadPayload)
    (cur : Z) (s : Store) (r : Outcome unit) (batches : list (list WriteOp)) :
  finalize_shape userId searchId items cur s r batches ->
  Forall (fun e => ~ enrich_event e) (Committed <$> batches).
Proof.
  assert (Hplain : forall plain, Forall (Forall is_set) plain ->
            Forall (fun e => ~ enrich_event e) (Committed <$> plain)).
  { intros plain Hp. apply Forall_fmap. eapply Forall_impl; [exact Hp|].
    intros b Hb [(url & Hu)|(id & found & [= Hf])]; [discriminate|].
    apply (sets_not_enrich b [] id found); [done|by left|].
    by rewrite (right_id_L [] (++)). }
  unfold finalize_shape. destruct items as [|lead items].
  - intros [(now & _ & ->)|(m & _ & ->)]; [|constructor].
    apply Forall_singleton.
    intros [(url & Hu)|(id & found & Hf)]; discriminate.
  - intros [Hw _].
    destruct (batches_written_split _ _ _ _ _ _ _ _ _ Hw eq_refl)
      as [[Hp _]|(plain & sets & final & -> & Hp & Hs & (t1 & t2 & ->) & _)].
    + by apply Hplain.
    + rewrite fmap_app. apply Forall_app. split; [by apply Hplain|].
      apply Forall_singleton.
      intros [(url & Hu)|(id & found & [= Hf])]; [discriminate|].
      apply (sets_not_enrich sets _ id found Hs) in Hf; [done|].
      right. by eexists _, _.
Qed.

Lemma buildMockLeads_no_email (search : SearchData) (rnd : nat -> Q) :
  Forall (fun lead => email lead = None) (buildMockLeads search rnd).
Proof.
  unfold buildMockLeads. apply List.Forall_forall. intros lead Hin.
  apply in_map_iff in Hin as (i & <- & _). reflexivity.
Qed.

Section Runs.

Context (env : Env).

(** A request answered with a count went through the guard and the mark. *)
Lemma answered_run (auth : AuthOutcome) (search_id : option string) (w : World)
    (user : DecodedUser) (mode : Mode) (n : nat) (evs : list Event) :
  requireAuthenticatedUser auth = inr user ->
  request_run env auth search_id w (Done (res_json (RunBody mode n))) evs ->
  exists searchId search profile now w1 rest,
    search_id = Some searchId
    /\ searches (db w) !! searchId = Some search
    /\ s_user_id search = Some (uid user)
    /\ profiles (db w) !! uid user = Some profile
    /\ guard_passes profile
    /\ evs = Committed [MergeSearch searchId (running_patch now)] :: rest
    /\ db w1 = apply_batch [MergeSearch searchId (running_patch now)] (db w)
    /\ rolls w1 = rolls w
    /\ fetches w1 = fetches w
    /\ work_run env (uid user) searchId search
         (default 0 (p_leads_used profile)) w1
         (Done (res_json (RunBody mode n))) rest.
Proof.
  intros Hauth Hreq.
  inversion Hreq as [resp Hr|u Hu Hid|u sid resp evs0 Hu Hid Hrun|]; subst.
  - congruence.
  - assert (u = user) as -> by congruence.
    inversion Hrun; subst.
    eexists _, _, _, _, _, _. by split_and!.
Qed.

Lemma work_done_effect (userId searchId : string) (search : SearchData)
    (cur : Z) (w : World) (mode : Mode) (n : nat) (evs : list Event) :
  work_run env userId searchId search cur w
    (Done (res_json (RunBody mode n))) evs ->
  (exists doc,
      searches (replay evs (db w)) !! searchId = Some doc
      /\ s_status doc = Some completed
      /\ s_total_results doc = Some (Z.of_nat n))
  /\ size (leads (replay evs (db w))) = (size (leads (db w)) + n)%nat
  /\ subscriptions (replay evs (db w)) = subscriptions (db w)
  /\ match n with
     | O => profiles (replay evs (db w)) = profiles (db w)
     | S _ =>
         exists doc,
           profiles (replay evs (db w)) = <[userId := doc]> (profiles (db w))
           /\ p_leads_used doc = Some (cur + Z.of_nat n)
     end.
Proof.
  inversion 1 as [rf batches Htok mock Hshape Heffect Hr Hevs
                 | |run tagged now Htok Hreply Hds Htag
                 | | |run tagged items rf batches extra Htok Hreply Hds Htag
                      Hitems found s1 s2 Hshape Heffect Hextra Henr Hstop Hr];
    subst.
  - (* synthetic *)
    destruct rf as [[]|m|]; try discriminate.
    injection Hr as <- <-. fold mock in Heffect |- *.
    destruct Heffect as (Hsub & (doc & Hdoc & Hst & Htot & _) & Hprof & Hpers).
    split_and!.
    + by exists doc.
    + by apply persisted_size in Hpers.
    + done.
    + destruct mock as [|l ls]; [done|].
      destruct Hprof as (pdoc & _ & Hused & Hp). by exists pdoc.
  - (* no dataset *)
    destruct (tagging_frame searchId run tagged (db w) Htag) as (Hp & Hl & Hs).
    rewrite replay_provider, replay_app.
    cbn [replay foldl apply_batch apply_op profiles searches leads
         subscriptions].
    fold (replay tagged (db w)). rewrite Hp, Hl, Hs.
    split_and!; try done; try lia.
    eexists. rewrite lookup_insert_eq. by split_and!.
  - (* dataset *)
    destruct rf as [[]|m|]; try discriminate.
    injection Hr as <- <-. fold found in Heffect, Henr |- *.
    destruct (tagging_frame searchId run tagged (db w) Htag) as (Hp & Hl & Hs).
    rewrite replay_provider, replay_app, replay_dataset, replay_app.
    fold s1. fold s2.
    destruct Heffect as (Hsub & (doc & Hdoc & Hst & Htot & _) & Hprof & Hpers).
    pose proof (enriched_size _ _ _ _ Henr) as Hsize.
    destruct Henr as (Hp2 & Hs2 & Hsub2 & _).
    rewrite Hp2, Hs2, Hsub2, Hsize.
    split_and!.
    + by exists doc.
    + apply persisted_size in Hpers. subst s1. by rewrite Hl in Hpers.
    + subst s1. by rewrite Hsub, Hs.
    + destruct found as [|l ls]; [subst s1; by rewrite Hprof, Hp|].
      destruct Hprof as (pdoc & _ & Hused & Hprof).
      exists pdoc. subst s1. by rewrite Hprof, Hp.
Qed.

End Runs.

(** ** The statuses a request writes *)

Lemma status_writes_app (id : string) (evs1 evs2 : list Event) :
  status_writes id (evs1 ++ evs2)
  = status_writes id evs1 ++ status_writes id evs2.
Proof. unfold status_writes. by rewrite fmap_app, concat_app. Qed.

Lemma status_writes_plain (id : string) (plain : list (list WriteOp)) :
  Forall (Forall is_set) plain -> status_writes id (Committed <$> plain) = [].
Proof.
  induction 1 as [|b plain Hb _ IH]; [done|].
  change (status_writes id (Committed <$> b :: plain))
    with (omap (op_status id) b ++ status_writes id (Committed <$> plain)).
  rewrite IH, (right_id_L [] (++)).
  clear -Hb. induction Hb as [|op b (i & d & ->) _ IH]; [done|]. exact IH.
Qed.

Lemma status_writes_enrich (id : string) (evs : list Event) :
  Forall enrich_event evs -> status_writes id evs = [].
Proof.
  induction 1 as [|e evs [(url & ->)|(i & f & ->)] _ IH]; [done| |]; exact IH.
Qed.

Lemma status_writes_tagged (id searchId : string) (run : ApifyRun)
    (tagged : list Event) :
  tagging searchId run tagged -> status_writes id tagged = [].
Proof.
  intros [->|(now & _ & ->)]; [done|].
  unfold status_writes. cbn. by case_bool_decide.
Qed.

Lemma finalize_shape_status (userId searchId : string)
    (items : list LeadPayload) (cur : Z) (s : Store) (r : Outcome unit)
    (batches : list (list WriteOp)) (id : string) :
  finalize_shape userId searchId items cur s r batches ->
  status_writes id (Committed <$> batches) = written_on_success searchId id r.
Proof.
  unfold finalize_shape. destruct items as [|lead items].
  - intros [(now & -> & ->)|(m & -> & ->)]; [|done].
    unfold status_writes. cbn. by case_bool_decide.
  - intros [Hw Hout].
    pose proof (chunkArray_nonempty (lead :: items) 399 ltac:(done)) as Hne.
    destruct (batches_written_split _ _ _ _ _ _ _ _ _ Hw eq_refl)
      as [[Hp Hlen]|(plain & sets & final & -> & Hp & Hs & (t1 & t2 & ->) & Hlen)].
    + rewrite status_writes_plain by done.
      destruct Hout as [[-> Hfull]|(m & -> & _)]; [|done].
      destruct Hlen as [Hlen|Hnil]; [lia|done].
    + destruct Hout as [[-> _]|(m & -> & Hshort)]; [|lia].
      rewrite fmap_app, status_writes_app, status_writes_plain by done.
      unfold status_writes. cbn. rewrite omap_app.
      replace (omap (op_status id) sets) with (@nil SearchStatus).
      * cbn. by case_bool_decide.
      * clear -Hs. induction Hs as [|op b (i & d & ->) _ IH]; [done|]. exact IH.
Qed.

Section RunStatuses.

Context (env : Env).

Ltac pick := repeat first [apply list_elem_of_here | apply list_elem_of_further].
Ltac other := first [done | intros ?; congruence].

Lemma work_run_status (userId searchId : string) (search : SearchData)
    (cur : Z) (w : World) (r : Outcome Response) (evs : list Event)
    (id : string) :
  work_run env userId searchId search cur w r evs ->
  status_writes id evs = written_on_success searchId id r.
Proof.
  inversion 1 as [rf batches Htok mock Hshape Heffect Hr Hevs
                 | |run tagged now Htok Hreply Hds Htag
                 |run tagged m Htok Htag
                 |run tagged m Htok Htag
                 |run tagged items rf batches extra Htok Hreply Hds Htag
                    Hitems found s1 s2 Hshape Heffect Hextra Henr Hstop Hr];
    subst.
  - rewrite (finalize_shape_status _ _ _ _ _ _ _ id Hshape). by destruct rf.
  - done.
  - change (status_writes id (ProviderRun ?q ?c :: ?l))
      with (status_writes id l).
    rewrite status_writes_app, (status_writes_tagged _ _ _ _ Htag).
    unfold status_writes. cbn. by case_bool_decide.
  - change (status_writes id (ProviderRun ?q ?c :: ?l))
      with (status_writes id l).
    by rewrite (status_writes_tagged _ _ _ _ Htag).
  - change (status_writes id (ProviderRun ?q ?c :: ?l))
      with (status_writes id l).
    by rewrite status_writes_app, (status_writes_tagged _ _ _ _ Htag).
  - change (status_writes id (ProviderRun ?q ?c :: ?l))
      with (status_writes id l).
    rewrite status_writes_app, (status_writes_tagged _ _ _ _ Htag).
    change (status_writes id ([DatasetRead ?d] ++ ?l))
      with (status_writes id l).
    rewrite status_writes_app, (status_writes_enrich _ _ Hextra).
    rewrite (finalize_shape_status _ _ _ _ _ _ _ id Hshape).
    rewrite (right_id_L [] (++)). by destruct rf.
Qed.

Lemma search_run_status (user : DecodedUser) (searchId : string) (w : World)
    (r : Outcome Response) (evs : list Event) (id : string) :
  search_run env user searchId w r evs ->
  (searchId <> id -> status_writes id evs = [])
  /\ match r with
     | Done _ =>
         status_writes id evs ∈ [[]; [failed]; [running]; [running; completed]]
     | _ => status_writes id evs ∈ [[]; [running]]
     end.
Proof.
  inversion 1 as [| | |? ? ? ? ? ? ? ? Hrej
                 |search profile now w1 r0 evs0 ? ? ? ? Hdb1 ? ? Hw]; subst;
    try (split; [done | pick]).
  - unfold status_writes. cbn.
    destruct (decide (searchId = id)) as [->|Hne];
      rewrite ?bool_decide_eq_true_2, ?bool_decide_eq_false_2 by done;
      cbn; (split; [other|pick]).
  - change (status_writes id (Committed ?b :: evs0))
      with (omap (op_status id) b ++ status_writes id evs0).
    rewrite (work_run_status _ _ _ _ _ _ _ id Hw).
    unfold written_on_success. cbn.
    destruct (decide (searchId = id)) as [->|Hne];
      rewrite ?bool_decide_eq_true_2, ?bool_decide_eq_false_2 by done;
      destruct r; cbn; (split; [other|pick]).
Qed.

Lemma request_run_status (auth : AuthOutcome) (search_id : option string)
    (w : World) (r : Outcome Response) (evs : list Event) (id : string) :
  request_run env auth search_id w r evs ->
  status_writes id evs ∈ forward_sequences
  /\ (search_id <> Some id -> status_writes id evs = []).
Proof.
  unfold forward_sequences.
  inversion 1 as [resp Hr|u Hu Hid|u sid resp evs0 Hu Hid Hs
                 |u sid m evs0 recorded Hu Hid Hs Hrec]; subst;
    try (split; [pick | done]).
  - destruct (search_run_status _ _ _ _ _ id Hs) as [Hother Hseq].
    split; [|intros Hne; apply Hother; congruence].
    rewrite !elem_of_cons in Hseq.
    destruct Hseq as [->|[->|[->|[->|Hnil]]]]; [pick..|by inversion Hnil].
  - destruct (search_run_status _ _ _ _ _ id Hs) as [Hother Hseq].
    rewrite status_writes_app.
    assert (Hrecorded : status_writes id recorded = []
                        \/ (sid = id /\ status_writes id recorded = [failed])).
    { destruct Hrec as [->|(now & ->)]; [by left|].
      unfold status_writes. cbn. case_bool_decide; [right|left]; done. }
    split.
    + rewrite !elem_of_cons in Hseq.
      destruct Hseq as [->|[->|Hnil]]; [| |by inversion Hnil];
        destruct Hrecorded as [->|[-> ->]]; cbn; pick.
    + intros Hne. rewrite Hother by congruence.
      destruct Hrecorded as [->|[-> _]]; [done|congruence].
Qed.

End RunStatuses.

(** ** The stored status follows the writes *)

Lemma status_of_apply_op (op : WriteOp) (s : Store) (id : string) :
  (forall c i, op <> DeleteDoc c i) ->
  status_of (apply_op op s) id
  = status_after (status_of s id) (omap (op_status id) [op]).
Proof.
  intros Hkeep. unfold status_of.
  destruct op as [i d|i e|i patch|i patch|i patch|c i]; try done.
  - cbn [apply_op searches omap list_omap op_status].
    destruct (decide (i = id)) as [->|Hne].
    + rewrite bool_decide_eq_true_2, lookup_insert_eq by done.
      cbn [mbind option_bind merge_search s_status].
      destruct (s_status patch); [done|].
      by destruct (searches s !! id).
    + rewrite bool_decide_eq_false_2, lookup_insert_ne by done. done.
  - by destruct (Hkeep c i).
Qed.

Lemma status_after_app (before : option SearchStatus)
    (w1 w2 : list SearchStatus) :
  status_after before (w1 ++ w2) = status_after (status_after before w1) w2.
Proof. apply foldl_app. Qed.

Lemma status_of_apply_batch (ops : list WriteOp) (id : string) :
  forall s,
    Forall (fun op => forall c i, op <> DeleteDoc c i) ops ->
    status_of (apply_batch ops s) id
    = status_after (status_of s id) (omap (op_status id) ops).
Proof.
  induction ops as [|op ops IH]; intros s Hkeep; [done|].
  apply Forall_cons in Hkeep as [Hop Hkeep].
  change (apply_batch (op :: ops) s) with (apply_batch ops (apply_op op s)).
  rewrite IH, status_of_apply_op by done.
  change (op :: ops) with ([op] ++ ops).
  by rewrite omap_app, status_after_app.
Qed.

Lemma status_of_replay (evs : list Event) (id : string) :
  forall s,
    Forall keeps_documents evs ->
    status_of (replay evs s) id
    = status_after (status_of s id) (status_writes id evs).
Proof.
  induction evs as [|e evs IH]; intros s Hkeep; [done|].
  apply Forall_cons in Hkeep as [He Hkeep].
  change (e :: evs) with ([e] ++ evs).
  rewrite replay_app, status_writes_app, status_after_app, IH by done.
  f_equal. destruct e as [ops| | | | |]; try done.
  unfold status_writes. cbn [fmap list_fmap concat].
  rewrite (right_id_L [] (++)). apply status_of_apply_batch. by apply He.
Qed.

Lemma keeps_merges (ops : list WriteOp) :
  Forall (fun op => forall c id, op <> DeleteDoc c id) ops ->
  keeps_documents (Committed ops).
Proof. by intros H ops' [= <-]. Qed.

Lemma keeps_sets (sets : list WriteOp) :
  Forall is_set sets -> Forall (fun op => forall c id, op <> DeleteDoc c id) sets.
Proof.
  intros H. eapply Forall_impl; [exact H|].
  by intros op (i & d & ->) c id.
Qed.

Lemma finalize_shape_keeps (userId searchId : string) (items : list LeadPayload)
    (cur : Z) (s : Store) (r : Outcome unit) (batches : list (list WriteOp)) :
  finalize_shape userId searchId items cur s r batches ->
  Forall keeps_documents (Committed <$> batches).
Proof.
  assert (Hplain : forall plain, Forall (Forall is_set) plain ->
            Forall keeps_documents (Committed <$> plain)).
  { intros plain Hp. apply Forall_fmap. eapply Forall_impl; [exact Hp|].
    intros b Hb. by apply keeps_merges, keeps_sets. }
  unfold finalize_shape. destruct items as [|lead items].
  - intros [(now & _ & ->)|(m & _ & ->)]; [|constructor].
    apply Forall_singleton, keeps_merges. by repeat constructor.
  - intros [Hw _].
    destruct (batches_written_split _ _ _ _ _ _ _ _ _ Hw eq_refl)
      as [[Hp _]|(plain & sets & final & -> & Hp & Hs & (t1 & t2 & ->) & _)].
    + by apply Hplain.
    + rewrite fmap_app. apply Forall_app. split; [by apply Hplain|].
      apply Forall_singleton, keeps_merges, Forall_app.
      split; [by apply keeps_sets|]. by repeat constructor.
Qed.

Section RunKeeps.

Context (env : Env).

Lemma work_run_keeps (userId searchId : string) (search : SearchData)
    (cur : Z) (w : World) (r : Outcome Response) (evs : list Event) :
  work_run env userId searchId search cur w r evs ->
  Forall keeps_documents evs.
Proof.
  assert (Htagged : forall run tagged,
            tagging searchId run tagged -> Forall keeps_documents tagged).
  { intros run tagged [->|(now & _ & ->)]; [constructor|].
    apply Forall_singleton, keeps_merges. by repeat constructor. }
  assert (Hother : forall e, (forall ops, e <> Committed ops) ->
                             keeps_documents e).
  { intros e He ops ->. by destruct (He ops). }
  inversion 1 as [rf batches Htok mock Hshape Heffect Hr Hevs
                 | |run tagged now Htok Hreply Hds Htag
                 |run tagged m Htok Htag
                 |run tagged m Htok Htag
                 |run tagged items rf batches extra Htok Hreply Hds Htag
                    Hitems found s1 s2 Hshape Heffect Hextra Henr Hstop Hr];
    subst.
  - by eapply finalize_shape_keeps.
  - apply Forall_singleton. by apply Hother.
  - apply Forall_cons. split; [by apply Hother|].
    apply Forall_app. split; [by eapply Htagged|].
    apply Forall_singleton, keeps_merges. by repeat constructor.
  - apply Forall_cons. split; [by apply Hother|]. by eapply Htagged.
  - apply Forall_cons. split; [by apply Hother|].
    apply Forall_app. split; [by eapply Htagged|].
    apply Forall_singleton. by apply Hother.
  - apply Forall_cons. split; [by apply Hother|].
    apply Forall_app. split; [by eapply Htagged|].
    apply Forall_cons. split; [by apply Hother|].
    apply Forall_app. split; [by eapply finalize_shape_keeps|].
    eapply Forall_impl; [exact Hextra|].
    intros e [(url & ->)|(i & f & ->)]; [by apply Hother|].
    apply keeps_merges. by repeat constructor.
Qed.

Lemma request_run_keeps (auth : AuthOutcome) (search_id : option string)
    (w : World) (r : Outcome Response) (evs : list Event) :
  request_run env auth search_id w r evs -> Forall keeps_documents evs.
Proof.
  assert (Hsearch : forall user sid r1 evs1,
            search_run env user sid w r1 evs1 -> Forall keeps_documents evs1).
  { intros user sid r1 evs1 Hs.
    inversion Hs as [| | |? ? ? ? ? ? ? ? Hrej
                    |search profile now w1 r0 evs0 ? ? ? ? Hdb1 ? ? Hw]; subst;
      try constructor.
    - apply keeps_merges. by repeat constructor.
    - constructor.
    - apply keeps_merges. by repeat constructor.
    - by eapply work_run_keeps. }
  inversion 1 as [resp Hr|u Hu Hid|u sid resp evs0 Hu Hid Hs
                 |u sid m evs0 recorded Hu Hid Hs Hrec]; subst;
    try constructor.
  - by eapply Hsearch.
  - apply Forall_app. split; [by eapply Hsearch|].
    destruct Hrec as [->|(now & ->)]; [constructor|].
    apply Forall_singleton, keeps_merges. by repeat constructor.
Qed.

End RunKeeps.

(** * The claims *)

(** C4. [normalizeApifyLeads] never throws: for every array of records it
    returns leads, one per record, that map title, address, phone, website,
    email, totalScore, reviewsCount, the first category and location.lat/lng
    to the lead's fields; a source that is not a finite number, or not a
    non-empty string, gives null.  A null record, and a missing or null
    location, are read as an empty object, where reading a property of
    [null] or [undefined] throws; the record "Cafe X" of the specification
    normalizes as the specification says. *)
Theorem normalizeApifyLeads_maps_fields (items : list json) :
  (exists leads,
      normalizeApifyLeads items = Value leads
      /\ Forall2 normalized items leads)
  /\ normalizeApifyLead JNull = Value null_lead
  /\ (forall k, prop k (Some JNull) = TypeError (cannot_read "null" k)
                /\ prop k None = TypeError (cannot_read "undefined" k)
                /\ prop k (or_empty_object (Some JNull)) = Value None
                /\ prop k (or_empty_object None) = Value None)
  /\ normalizeApifyLeads [cafe_x]
     = Value [mkLeadPayload (Some "Cafe X") None None None None
                (Some (42 # 10)) None (Some "cafe") (Some (15 # 10))
                (Some (25 # 10))].
Proof.
  split_and!; [|reflexivity|done|reflexivity].
  exists (lead_of_record <$> items).
  split; [apply normalizeApifyLeads_returns|].
  induction items as [|raw items IH]; cbn; constructor; [|exact IH].
  apply lead_of_record_normalized.
Qed.

(** C5, the claim as worded fails: with a requested cap of 0 the batch has
    10 leads, not min(0, 10) = 0. *)
Lemma mock_batch_of_zero_cap : ~ mock_size_is_min.
Proof.
  intros H. specialize (H (sample_search 0) (fun _ => 1 # 2) 0 eq_refl).
  vm_compute in H. discriminate.
Qed.

(** C5, amended. [buildMockLeads] builds min(requested_max, 10) leads when
    the cap is at least 1, 10 leads when it is 0 or missing, none when it is
    negative; each lead's business_name contains the keyword, its ordinal
    and the city, its rating lies in [3.2, 4.8], its reviews_count in
    [0, 500), and its email, latitude and longitude are null. *)
Theorem buildMockLeads_batch (search : SearchData) (rnd : nat -> Q) :
  unit_samples rnd ->
  length (buildMockLeads search rnd) = mock_batch_size (s_max_results search)
  /\ forall i lead,
       buildMockLeads search rnd !! i = Some lead ->
       mock_lead_ok search i lead.
Proof.
  intros Hr. split; [apply buildMockLeads_length|].
  intros i lead Hi. apply buildMockLeads_lookup in Hi as ->.
  by apply mockLead_ok.
Qed.

Lemma buildMockLeads_batch_witness :
  unit_samples (fun _ => 1 # 2)
  /\ length (buildMockLeads (sample_search 3) (fun _ => 1 # 2)) = 3%nat.
Proof.
  assert (H : unit_samples (fun _ => 1 # 2))
    by (intros k; unfold Qle, Qlt; cbn; lia).
  split; [exact H|].
  exact (proj1 (buildMockLeads_batch (sample_search 3) (fun _ => 1 # 2) H)).
Defined.

(** C1. [writeLeadsAndFinalize] cuts the leads into chunks of at most 400
    and commits one batch per chunk, the chunk's leads in it; only the last
    batch carries, with them, the Search update (completed, total_results =
    number of leads, error_message null) and the Profile update (leads_used
    = currentLeadsUsed + number of leads); with no lead there is one Search
    update and no Profile write.  When a commit fails the Search and the
    Profile are as before; when all succeed the N leads are stored and
    leads_used is currentLeadsUsed + N; a store that serves every request
    makes it succeed. *)
Theorem writeLeadsAndFinalize_atomic (env : Env) (userId searchId : string)
    (items : list LeadPayload) (currentLeadsUsed : Z) (w : World) :
  let run := writeLeadsAndFinalize env userId searchId items currentLeadsUsed w in
  concat (chunkArray items 400) = items
  /\ Forall batch_sized (chunkArray items 400)
  /\ exists batches,
       journal run.2 = journal w ++ (Committed <$> batches)
       /\ db run.2 = replay (Committed <$> batches) (db w)
       /\ finalize_shape userId searchId items currentLeadsUsed (db w) run.1
            batches
       /\ finalize_effect userId searchId items currentLeadsUsed (db w) run.1
            (db run.2)
       /\ (store_available env -> run.1 = Done tt).
Proof.
  cbv zeta. split_and!.
  - apply chunkArray_concat.
  - apply chunkArray_sizes.
  - destruct (writeLeadsAndFinalize env userId searchId items currentLeadsUsed w)
      as [r w'] eqn:Hrun.
    destruct (writeLeadsAndFinalize_run _ _ _ _ _ _ _ _ Hrun)
      as (_ & batches & H).
    by exists batches.
Qed.

Lemma writeLeadsAndFinalize_atomic_witness :
  store_available demo_env
  /\ (writeLeadsAndFinalize demo_env "u1" "s1"
        [site_lead "https://x.example" None] 7
        (sample_world (sample_search 5) (sample_profile starter 7 2000 false))).1
     = Done tt.
Proof.
  assert (H : store_available demo_env) by (intros k; reflexivity).
  split; [exact H|].
  destruct (writeLeadsAndFinalize_atomic demo_env "u1" "s1"
              [site_lead "https://x.example" None] 7
              (sample_world (sample_search 5)
                 (sample_profile starter 7 2000 false)))
    as (_ & _ & batches & _ & _ & _ & _ & Hdone).
  exact (Hdone H).
Defined.

(** C6. The code breaks the claim.  The pass keeps the payload leads
    without an email, which shows that a stored email is meant to stay, but
    the stored lead it then writes is looked up by search id and website
    alone: with a lead of search "s1" stored with the email "a@b.com" for
    "https://x.example", a payload lead of that website without an email,
    and a page that shows "x@y.com", the pass ends normally and the stored
    lead holds "x@y.com"; so does a whole request that runs the search
    again and gets that website from the provider. *)
Theorem enrichment_overwrites_stored_email :
  let stored :=
    mkLeadDoc (site_lead "https://x.example" (Some "a@b.com")) (Some "s1")
      (Some "u1") (Some sample_time) in
  let payload := site_lead "https://x.example" None in
  let env := live_env [site_record "https://x.example"] "write to x@y.com" in
  let w := world_with_lead stored in
  let pass := maybeEnrichEmails env growth "s1" [payload] w in
  let request := run_apify_search env (Verified alice) (Some "s1") w in
  leads (db w) !! "l1" = Some stored
  /\ enrich_candidates [payload] = [payload]
  /\ pass.1 = Done tt
  /\ leads (db pass.2) !! "l1" = Some (set_lead_email "x@y.com" stored)
  /\ request.1 = Done (res_json (RunBody live 1))
  /\ leads (db request.2) !! "l1" = Some (set_lead_email "x@y.com" stored)
  /\ ~ never_overwrites_email.
Proof.
  cbv zeta. split_and!; try (vm_compute; reflexivity).
  intros H.
  destruct (H (live_env [] "write to x@y.com") growth "s1"
              [site_lead "https://x.example" None]
              (world_with_lead
                 (mkLeadDoc (site_lead "https://x.example" (Some "a@b.com"))
                    (Some "s1") (Some "u1") (Some sample_time)))
              "l1" _ "a@b.com" eq_refl eq_refl)
    as (doc' & Hdoc & Hmail).
  vm_compute in Hdoc. injection Hdoc as <-. discriminate.
Qed.

(** C7. With the store and the identity service at hand, [delete_user] on
    an account other than the requester's removes every Lead and then every
    Search of that account, in batches of at most 400, then the
    Subscription, then the Profile, then the identity, in that order;
    [suspend_user] and [delete_user] aimed at the requester are answered with
    a validation error and change nothing. *)
Theorem delete_user_cascade (env : Env) (requester : DecodedUser)
    (userId : string) (w : World) :
  (store_available env ->
   userId <> "" ->
   userId <> uid requester ->
   is_Some (identities w !! userId) ->
   let run := superadmin_users env requester delete_user (Some userId) w in
   run.1 = Done (res_json SuccessBody)
   /\ (exists lead_batches search_batches,
         journal run.2
         = journal w ++ deletion_batches Leads lead_batches
           ++ deletion_batches Searches search_batches
           ++ [Committed [DeleteDoc Subscriptions userId];
               Committed [DeleteDoc Profiles userId];
               IdentityDeleted userId]
         /\ Forall batch_sized lead_batches
         /\ Forall batch_sized search_batches)
   /\ db run.2
      = mkStore (delete userId (profiles (db w)))
          (others s_user_id userId (searches (db w)))
          (others l_user_id userId (leads (db w)))
          (delete userId (subscriptions (db w)))
   /\ identities run.2 = delete userId (identities w))
  /\ (forall action,
        action <> restore_user ->
        exists message,
          superadmin_users env requester action (Some (uid requester)) w
          = (Done (sendError 400 message), w)).
Proof.
  split.
  - intros Ha Hs Hne Hid. cbv zeta. unfold superadmin_users.
    rewrite truthy_Some by done. cbn [negb].
    change (default "" (Some userId)) with userId. unfold try_catch.
    destruct (delete_user_run env requester userId w Ha Hne Hid)
      as (w' & lb & sb & -> & Hj & Hl & Hs' & Hdb & Hi).
    cbn [fst snd]. split_and!; try done. by exists lb, sb.
  - intros action Haction. unfold superadmin_users.
    destruct (truthy (Some (uid requester))) eqn:Ht; cbn [negb].
    2:{ by eexists. }
    change (default "" (Some (uid requester))) with (uid requester).
    unfold try_catch.
    destruct action; [|done|]; cbn [lifecycle_action];
      rewrite bool_decide_eq_true_2 by done; by eexists.
Qed.

Lemma delete_user_cascade_witness :
  (superadmin_users demo_env root delete_user (Some "u1")
     (sample_world (sample_search 5) (sample_profile starter 7 2000 false))).1
  = Done (res_json SuccessBody).
Proof.
  refine (proj1 (proj1 (delete_user_cascade demo_env root "u1"
                           (sample_world (sample_search 5)
                              (sample_profile starter 7 2000 false)))
                   _ _ _ _)).
  - intros k. reflexivity.
  - discriminate.
  - discriminate.
  - eexists. vm_compute. reflexivity.
Defined.

(** C2. On a Search the caller owns, with the store answering: a suspended
    Profile gets the Search written failed with "Account suspended" and the
    answer 403; otherwise a Profile with leads_used >= leads_limit gets
    "Leads quota exceeded" and 429; suspension is looked at before the
    quota; the rejection's write is the only one and leaves the Profile as it
    was; otherwise the run goes on, its first write marking the Search
    running. *)
Theorem guard_rejects_before_running (env : Env) (user : DecodedUser)
    (searchId : string) (w : World) (search : SearchData)
    (profile : ProfileData) :
  searchId <> "" ->
  searches (db w) !! searchId = Some search ->
  s_user_id search = Some (uid user) ->
  profiles (db w) !! uid user = Some profile ->
  serves env w 3 ->
  let run := run_apify_search env (Verified user) (Some searchId) w in
  match guard profile with
  | Reject status message => rejected env searchId w run status message
  | Proceed => proceeded env searchId w run
  end.
Proof.
  intros Hid Hsearch Hown Hprofile Hserves. cbv zeta.
  unfold run_apify_search. cbn [requireAuthenticatedUser].
  rewrite truthy_Some by done. cbn [negb].
  change (default "" (Some searchId)) with searchId. unfold try_catch.
  rewrite (run_search_guard env user searchId w search profile Hserves
             Hsearch Hown Hprofile).
  cbv zeta. destruct (guard profile) as [|status message].
  - match goal with
    | |- context [after_mark env user searchId search ?c ?p ?w1] =>
        destruct (after_mark env user searchId search c p w1)
          as [rb wb] eqn:Hbody
    end.
    destruct (after_mark_sound _ _ _ _ _ _ _ _ _ Hbody)
      as (_ & evs & Hj & _ & _).
    cbn [journal] in Hj.
    destruct rb as [resp|m|]; cbv beta iota.
    + exists evs. cbn [snd]. by rewrite Hj, <- (assoc_L (++)).
    + match goal with
      | |- proceeded _ _ _ (?h wb) =>
          destruct (h wb) as [r w'] eqn:Hcatch
      end.
      apply record_failure_journal in Hcatch as [recorded Hrec].
      exists (evs ++ recorded). cbn [snd].
      by rewrite Hrec, Hj, <- !(assoc_L (++)).
    + exists evs. cbn [snd]. by rewrite Hj, <- (assoc_L (++)).
  - unfold rejected. cbn [fst snd db journal].
    unfold apply_batch. cbn [foldl apply_op profiles searches leads].
    split_and!; try done.
    eexists. rewrite lookup_insert_eq. by split_and!.
Qed.

Lemma guard_rejects_before_running_witness :
  rejected demo_env "s1"
    (sample_world (sample_search 5) (sample_profile starter 2000 2000 true))
    (run_apify_search demo_env (Verified alice) (Some "s1")
       (sample_world (sample_search 5) (sample_profile starter 2000 2000 true)))
    403 "Account suspended".
Proof.
  refine (guard_rejects_before_running demo_env alice "s1"
            (sample_world (sample_search 5)
               (sample_profile starter 2000 2000 true))
            (sample_search 5) (sample_profile starter 2000 2000 true)
            _ _ _ _ _).
  - discriminate.
  - vm_compute. reflexivity.
  - reflexivity.
  - vm_compute. reflexivity.
  - intros k _. reflexivity.
Defined.

(** C8. The quota is tested on the usage stored before the run and the
    increment has no cap: a request answered with N leads had leads_used
    under leads_limit and leaves leads_used at its old value plus N; from
    leads_used = 1999 under a limit of 2000 a run of 5 leads ends at 2004. *)
Theorem usage_grows_past_limit :
  (forall (env : Env) (auth : AuthOutcome) (search_id : option string)
          (w : World) (user : DecodedUser) (profile : ProfileData)
          (mode : Mode) (n : nat) (w' : World),
      requireAuthenticatedUser auth = inr user ->
      profiles (db w) !! uid user = Some profile ->
      run_apify_search env auth search_id w
      = (Done (res_json (RunBody mode n)), w') ->
      default 0 (p_leads_used profile) < default 2000 (p_leads_limit profile)
      /\ exists profile',
           profiles (db w') !! uid user = Some profile'
           /\ default 0 (p_leads_used profile')
              = default 0 (p_leads_used profile) + Z.of_nat n)
  /\ (exists profile',
        profiles
          (db (run_apify_search demo_env (Verified alice) (Some "s1")
                 (sample_world (sample_search 5)
                    (sample_profile starter 1999 2000 false))).2)
        !! "u1" = Some profile'
        /\ p_leads_limit profile' = Some 2000
        /\ p_leads_used profile' = Some 2004).
Proof.
  split.
  - intros env auth search_id w user profile mode n w' Hauth Hprofile Hrun.
    destruct (run_apify_search_sound _ _ _ _ _ _ Hrun)
      as (_ & evs & _ & Hdb & Hreq).
    destruct (answered_run _ _ _ _ _ _ _ _ Hauth Hreq)
      as (sid & search & profile0 & now & w1 & rest & -> & _ & _ & Hp0
          & [_ Hpass] & -> & Hdb1 & _ & _ & Hwork).
    assert (profile0 = profile) as -> by congruence.
    split; [done|].
    destruct (work_done_effect _ _ _ _ _ _ _ _ _ Hwork) as (_ & _ & _ & Hprof).
    rewrite Hdb, replay_cons_committed, <- Hdb1.
    assert (Hp1 : profiles (db w1) = profiles (db w)) by (by rewrite Hdb1).
    destruct n as [|n].
    + exists profile. rewrite Hprof, Hp1. split; [done|]. lia.
    + destruct Hprof as (doc & -> & Hused). exists doc.
      rewrite lookup_insert_eq, Hused. by split.
  - eexists. split; [vm_compute; reflexivity|]. by split.
Qed.

Lemma usage_grows_past_limit_witness :
  exists profile',
    profiles
      (db (run_apify_search demo_env (Verified alice) (Some "s1")
             (sample_world (sample_search 3)
                (sample_profile starter 1999 2000 false))).2)
    !! "u1" = Some profile'
    /\ default 0 (p_leads_used profile') = 1999 + Z.of_nat 3.
Proof.
  destruct (proj1 usage_grows_past_limit demo_env (Verified alice) (Some "s1")
              (sample_world (sample_search 3)
                 (sample_profile starter 1999 2000 false))
              alice (sample_profile starter 1999 2000 false) demo 3%nat
              (run_apify_search demo_env (Verified alice) (Some "s1")
                 (sample_world (sample_search 3)
                    (sample_profile starter 1999 2000 false))).2)
    as (_ & Hgrown).
  - reflexivity.
  - vm_compute. reflexivity.
  - vm_compute. reflexivity.
  - exact Hgrown.
Defined.

(** C9. [normalizeApifyLeads] returns one lead per element of its input,
    and a provider-backed run stores and counts every one of them: with a
    dataset of [xs], the answer's count and the Search's total_results are
    the length of [xs] and the leads collection grows by as many documents,
    whatever max_results the Search asked for. *)
Theorem provider_results_not_truncated :
  (forall items,
      exists leads,
        normalizeApifyLeads items = Value leads
        /\ length leads = length items)
  /\ (forall (env : Env) (auth : AuthOutcome) (search_id : option string)
             (w : World) (user : DecodedUser) (xs : list json) (mode : Mode)
             (n : nat) (w' : World),
         truthy (APIFY_TOKEN env) = true ->
         provider_returns env xs ->
         requireAuthenticatedUser auth = inr user ->
         run_apify_search env auth search_id w
         = (Done (res_json (RunBody mode n)), w') ->
         mode = live
         /\ n = length xs
         /\ (exists searchId doc,
               search_id = Some searchId
               /\ searches (db w') !! searchId = Some doc
               /\ s_status doc = Some completed
               /\ s_total_results doc = Some (Z.of_nat (length xs)))
         /\ size (leads (db w')) = (size (leads (db w)) + length xs)%nat).
Proof.
  split.
  { intros items. exists (lead_of_record <$> items).
    split; [apply normalizeApifyLeads_returns | apply length_map]. }
  intros env auth search_id w user xs mode n w' Htok [Hrun_ok Hitems_ok]
    Hauth Hrun.
  destruct (run_apify_search_sound _ _ _ _ _ _ Hrun)
    as (_ & evs & _ & Hdb & Hreq).
  destruct (answered_run _ _ _ _ _ _ _ _ Hauth Hreq)
    as (sid & search & profile & now & w1 & rest & -> & _ & _ & _ & _ & ->
        & Hdb1 & _ & _ & Hwork).
  destruct (work_done_effect _ _ _ _ _ _ _ _ _ Hwork)
    as ((doc & Hdoc & Hst & Htot) & Hsize & _).
  assert (Hl1 : leads (db w1) = leads (db w)) by (by rewrite Hdb1).
  rewrite Hdb, replay_cons_committed, <- Hdb1, Hsize, Hl1.
  assert (Hmode : mode = live /\ n = length xs).
  { inversion Hwork as [rf batches Htok' mock Hshape Heffect Hr Hevs
                       | |run tagged now' Htok' Hreply Hds Htag
                       | | |run tagged items rf batches extra Htok' Hreply Hds
                            Htag Hitems found s1 s2 Hshape Heffect Hextra Henr
                            Hstop Hr]; subst.
    - congruence.
    - destruct (Hrun_ok (fetches w1) (search_query search)
                  (s_max_results search)) as (run' & Hreply' & Hds').
      congruence.
    - destruct rf as [[]|m|]; try discriminate. injection Hr as <- <-.
      split; [done|]. subst found.
      rewrite Hitems_ok in Hitems. injection Hitems as <-.
      apply length_map. }
  destruct Hmode as [-> ->]. split_and!; try done.
  by exists sid, doc.
Qed.

Lemma provider_results_not_truncated_witness :
  length [cafe_x; JNull; cafe_x] = 3%nat
  /\ s_max_results (sample_search 1) = Some 1
  /\ size
       (leads
          (db (run_apify_search (live_env [cafe_x; JNull; cafe_x] "")
                 (Verified alice) (Some "s1")
                 (sample_world (sample_search 1)
                    (sample_profile starter 0 2000 false))).2))
     = (0 + 3)%nat.
Proof.
  split; [reflexivity|]. split; [reflexivity|].
  refine (proj2 (proj2 (proj2
            (proj2 provider_results_not_truncated
               (live_env [cafe_x; JNull; cafe_x] "") (Verified alice)
               (Some "s1")
               (sample_world (sample_search 1)
                  (sample_profile starter 0 2000 false))
               alice [cafe_x; JNull; cafe_x] live 3%nat _ _ _ _ _)))).
  - reflexivity.
  - split; [intros k q c; by eexists | intros k ds; reflexivity].
  - reflexivity.
  - vm_compute. reflexivity.
Defined.

(** C10. Without a provider token no request fetches a page or rewrites a
    lead's email, whatever the plan: the journal of the request holds no
    enrichment effect, and when it is answered with a count the mode is
    demo and the leads collection is the one before plus the run's mock
    leads, each stored with a null email. *)
Theorem demo_mode_never_enriches (env : Env) (auth : AuthOutcome)
    (search_id : option string) (w : World) :
  truthy (APIFY_TOKEN env) = false ->
  let run := run_apify_search env auth search_id w in
  exists evs,
    journal run.2 = journal w ++ evs
    /\ Forall (fun e => ~ enrich_event e) evs
    /\ forall mode n,
         run.1 = Done (res_json (RunBody mode n)) ->
         mode = demo
         /\ exists user searchId mock,
              requireAuthenticatedUser auth = inr user
              /\ search_id = Some searchId
              /\ length mock = n
              /\ Forall (fun lead => email lead = None) mock
              /\ persisted (uid user) searchId mock (leads (db w))
                   (leads (db run.2)).
Proof.
  intros Htok. cbv zeta.
  destruct (run_apify_search env auth search_id w) as [r w'] eqn:Hrun.
  destruct (run_apify_search_sound _ _ _ _ _ _ Hrun)
    as (_ & evs & Hj & Hdb & Hreq).
  exists evs. cbn [fst snd]. split; [done|].
  assert (Hmerge : forall id patch,
            ~ enrich_event (Committed [MergeSearch id patch])).
  { intros id patch [(url & Hu)|(i & f & Hf)]; discriminate. }
  assert (Hwork : forall user sid search cur w1 r1 evs1,
            work_run env user sid search cur w1 r1 evs1 ->
            Forall (fun e => ~ enrich_event e) evs1
            /\ forall mode n,
                 r1 = Done (res_json (RunBody mode n)) ->
                 mode = demo
                 /\ exists mock,
                      length mock = n
                      /\ Forall (fun lead => email lead = None) mock
                      /\ persisted user sid mock (leads (db w1))
                           (leads (replay evs1 (db w1)))).
  { intros user sid search cur w1 r1 evs1 Hw.
    inversion Hw as [rf batches Htok' mock Hshape Heffect Hr Hevs
                    |? Htok'|? ? ? Htok'|? ? ? Htok'|? ? ? Htok'
                    |? ? ? ? ? ? Htok']; subst; try congruence.
    split; [by eapply finalize_shape_quiet|].
    intros mode n Hr. destruct rf as [[]|m|]; try discriminate.
    injection Hr as <- <-. split; [done|]. exists mock.
    split_and!; [done|apply buildMockLeads_no_email|].
    by destruct Heffect as (_ & _ & _ & Hpers). }
  assert (Hsearch : forall user sid r1 evs1,
            search_run env user sid w r1 evs1 ->
            Forall (fun e => ~ enrich_event e) evs1
            /\ forall mode n,
                 r1 = Done (res_json (RunBody mode n)) ->
                 mode = demo
                 /\ exists mock,
                      length mock = n
                      /\ Forall (fun lead => email lead = None) mock
                      /\ persisted (uid user) sid mock (leads (db w))
                           (leads (replay evs1 (db w)))).
  { intros user sid r1 evs1 Hs.
    inversion Hs as [| | |? ? ? ? ? ? ? ? Hrej
                    |search profile now w1 r0 evs0 ? ? ? ? Hdb1 ? ? Hw]; subst;
      try (split; [by repeat constructor | discriminate]).
    destruct (Hwork _ _ _ _ _ _ _ Hw) as [Hquiet Hdone].
    split; [apply Forall_cons; by split|].
    intros mode n Hr.
    destruct (Hdone mode n Hr) as (-> & mock & Hlen & Hmail & Hpers).
    split; [done|]. exists mock. split_and!; try done.
    rewrite replay_cons_committed, <- Hdb1.
    by rewrite Hdb1 in Hpers at 1. }
  inversion Hreq as [resp Hr|u Hu Hid|u sid resp evs0 Hu Hid Hs
                    |u sid m evs0 recorded Hu Hid Hs Hrec]; subst.
  - split; [constructor|]. intros mode n [= ->].
    destruct auth; discriminate.
  - split; [constructor|]. discriminate.
  - destruct (Hsearch _ _ _ _ Hs) as [Hquiet Hdone]. split; [done|].
    intros mode n [= ->].
    destruct (Hdone mode n eq_refl) as (-> & mock & Hlen & Hmail & Hpers).
    split; [done|]. exists u, sid, mock. split_and!; try done.
    by rewrite Hdb.
  - destruct (Hsearch _ _ _ _ Hs) as [Hquiet _].
    split; [|discriminate]. apply Forall_app. split; [done|].
    destruct Hrec as [->|(now & ->)]; [constructor|by apply Forall_singleton].
Qed.

Lemma demo_mode_never_enriches_witness :
  exists evs,
    journal
      (run_apify_search demo_env (Verified alice) (Some "s1")
         (sample_world (sample_search 3) (sample_profile pro 0 15000 false))).2
    = [] ++ evs
    /\ Forall (fun e => ~ enrich_event e) evs.
Proof.
  destruct (demo_mode_never_enriches demo_env (Verified alice) (Some "s1")
              (sample_world (sample_search 3)
                 (sample_profile pro 0 15000 false)) eq_refl)
    as (evs & Hj & Hquiet & _).
  exists evs. by split.
Defined.

(** C3, the claim as worded fails: a Search completed with 7 results and
    invoked again is marked running and completed anew, with 3 results. *)
Lemma rerun_rewrites_completed_search : ~ terminal_is_final.
Proof.
  intros H.
  destruct (H demo_env (Verified alice) (Some "s1")
              (sample_world finished_search
                 (sample_profile starter 7 2000 false))
              "s1" finished_search eq_refl (or_introl eq_refl))
    as (doc' & Hdoc & _ & Htotal & _).
  vm_compute in Hdoc. injection Hdoc as <-. discriminate.
Qed.

(** C3, amended. A request never reads the stored status.  What it writes
    to the status of the Search it was asked to run is, in order, one of:
    nothing; failed; running; running then completed; running then failed;
    the status stored afterwards is the last one written, or the one stored
    before when none was.  It writes no status of any other Search. *)
Theorem status_writes_per_request (env : Env) (auth : AuthOutcome)
    (search_id : option string) (w : World) :
  let run := run_apify_search env auth search_id w in
  exists evs,
    journal run.2 = journal w ++ evs
    /\ db run.2 = replay evs (db w)
    /\ forall id,
         status_writes id evs ∈ forward_sequences
         /\ status_of (db run.2) id
            = status_after (status_of (db w) id) (status_writes id evs)
         /\ (search_id <> Some id -> status_writes id evs = []).
Proof.
  cbv zeta.
  destruct (run_apify_search env auth search_id w) as [r w'] eqn:Hrun.
  destruct (run_apify_search_sound _ _ _ _ _ _ Hrun)
    as (_ & evs & Hj & Hdb & Hreq).
  exists evs. split_and!; try done.
  intros id. destruct (request_run_status env _ _ _ _ _ id Hreq) as [Hseq Hother].
  split_and!; try done.
  cbn [snd]. rewrite Hdb. apply status_of_replay.
  by eapply request_run_keeps.
Qed.

(** * More proofs *)

(** ** Strings *)

Lemma list_ascii_app (a b : string) :
  list_ascii_of_string (a +:+ b)
  = (list_ascii_of_string a ++ list_ascii_of_string b)%list.
Proof.
  induction a as [|c a IH]; [reflexivity|].
  change (String c a +:+ b) with (String c (a +:+ b)). cbn. by rewrite IH.
Qed.

Lemma string_of_list_app (a b : list ascii) :
  string_of_list_ascii (a ++ b)
  = string_of_list_ascii a +:+ string_of_list_ascii b.
Proof.
  induction a as [|c a IH]; [reflexivity|].
  cbn. rewrite IH. reflexivity.
Qed.

Lemma startsWith_prefix (p s : string) :
  startsWith p s = true <-> exists rest, s = p +:+ rest.
Proof.
  revert s. induction p as [|a p IH]; intros s.
  - split; [intros _; by exists s | done].
  - destruct s as [|b s]; cbn [startsWith].
    + split; [done | intros [rest Hrest]; discriminate].
    + rewrite andb_true_iff, IH, Ascii.eqb_eq. split.
      * intros (-> & rest & ->). by exists rest.
      * intros (rest & Hrest).
        change (String a p +:+ rest) with (String a (p +:+ rest)) in Hrest.
        injection Hrest as -> ->. split; [done | by exists rest].
Qed.

Lemma length_list_ascii (s : string) :
  length (list_ascii_of_string s) = String.length s.
Proof. induction s as [|c s IH]; cbn; congruence. Qed.

Lemma slice_from_app (p rest : string) :
  slice_from (String.length p) (p +:+ rest) = rest.
Proof.
  unfold slice_from. rewrite list_ascii_app, <- length_list_ascii.
  rewrite drop_app_length. apply string_of_list_ascii_of_string.
Qed.

(** ** Trimming *)

Lemma trim_start_headed (cs : list ascii) : headed (trim_start cs).
Proof.
  induction cs as [|c cs IH]; cbn; [done|].
  by destruct (is_whitespace c) eqn:Hc.
Qed.

Lemma headed_trim_start (cs : list ascii) : headed cs -> trim_start cs = cs.
Proof. destruct cs as [|c cs]; cbn; [done|]. by intros ->. Qed.

Lemma trim_start_suffix (cs : list ascii) :
  exists pre,
    cs = (pre ++ trim_start cs)%list
    /\ Forall (fun c => is_whitespace c = true) pre.
Proof.
  induction cs as [|c cs (pre & IH & Hpre)]; cbn.
  - by exists [].
  - destruct (is_whitespace c) eqn:Hc.
    + exists (c :: pre). split; [by rewrite IH at 1 | by constructor].
    + by exists [].
Qed.

Lemma trim_start_app (pre cs : list ascii) :
  Forall (fun c => is_whitespace c = true) pre ->
  trim_start (pre ++ cs) = trim_start cs.
Proof. induction 1 as [|c pre Hc _ IH]; cbn; [done|]. by rewrite Hc. Qed.

Lemma headed_app (cs rest : list ascii) :
  cs <> [] -> headed cs -> headed (cs ++ rest).
Proof. by destruct cs. Qed.

Lemma headed_of_app (cs rest : list ascii) :
  cs <> [] -> headed (cs ++ rest) -> headed cs.
Proof. by destruct cs. Qed.

Lemma trim_as_list (s : string) :
  trim s = string_of_list_ascii (trim_list (list_ascii_of_string s)).
Proof. reflexivity. Qed.

Lemma trim_list_tight (cs : list ascii) : tight (trim_list cs).
Proof.
  unfold trim_list, tight. rewrite rev_involutive.
  split; [|apply trim_start_headed].
  destruct (trim_start_suffix (rev (trim_start cs))) as (pre & Hsplit & _).
  destruct (trim_start (rev (trim_start cs))) as [|b bs] eqn:Hb; [done|].
  apply (headed_of_app _ (rev pre)).
  { intros H. apply (f_equal (@length ascii)) in H.
    rewrite length_rev in H. discriminate. }
  rewrite <- rev_app_distr, <- Hsplit, rev_involutive.
  apply trim_start_headed.
Qed.

Lemma tight_trim_list (pre cs post : list ascii) :
  Forall (fun c => is_whitespace c = true) pre ->
  Forall (fun c => is_whitespace c = true) post ->
  cs <> [] ->
  tight cs ->
  trim_list (pre ++ cs ++ post) = cs.
Proof.
  intros Hpre Hpost Hne [Hhead Hlast]. unfold trim_list.
  rewrite trim_start_app by done.
  rewrite (headed_trim_start (cs ++ post)) by (by apply headed_app).
  rewrite rev_app_distr, trim_start_app by (by apply Forall_rev_iff).
  rewrite headed_trim_start by done. apply rev_involutive.
Qed.

Lemma trim_list_blank (cs : list ascii) :
  Forall (fun c => is_whitespace c = true) cs -> trim_list cs = [].
Proof.
  intros Hcs. unfold trim_list.
  by rewrite (proj2 (trim_start_nil cs) Hcs).
Qed.

Lemma trim_list_split (cs : list ascii) :
  exists pre post,
    cs = (pre ++ trim_list cs ++ post)%list
    /\ Forall (fun c => is_whitespace c = true) pre
    /\ Forall (fun c => is_whitespace c = true) post.
Proof.
  destruct (trim_start_suffix cs) as (pre & Hcs & Hpre).
  destruct (trim_start_suffix (rev (trim_start cs))) as (post & Hrev & Hpost).
  exists pre, (rev post). split_and!; [|done|by apply Forall_rev_iff].
  unfold trim_list. rewrite <- rev_app_distr, <- Hrev, rev_involutive.
  exact Hcs.
Qed.

Lemma trim_idempotent (s : string) : trim (trim s) = trim s.
Proof.
  rewrite !trim_as_list, list_ascii_of_string_of_list_ascii. f_equal.
  set (cs := trim_list (list_ascii_of_string s)).
  destruct (decide (cs = [])) as [->|Hne]; [reflexivity|].
  rewrite <- (app_nil_r cs) at 1.
  apply (tight_trim_list [] cs []); try done. apply trim_list_tight.
Qed.

(** ** Bearer tokens *)

Lemma trim_padded (pre token post : string) :
  token <> "" -> trim token = token -> blank pre -> blank post ->
  trim (pre +:+ token +:+ post) = token.
Proof.
  intros Hne Htight Hpre Hpost.
  rewrite trim_as_list, !list_ascii_app.
  rewrite tight_trim_list; try done.
  - apply string_of_list_ascii_of_string.
  - intros Hnil. apply Hne.
    by rewrite <- (string_of_list_ascii_of_string token), Hnil.
  - rewrite trim_as_list in Htight.
    apply (f_equal list_ascii_of_string) in Htight.
    rewrite list_ascii_of_string_of_list_ascii in Htight.
    rewrite <- Htight. apply trim_list_tight.
Qed.

Lemma parseBearerToken_bearer (rest : string) :
  parseBearerToken (Some ("Bearer " +:+ rest))
  = if String.eqb (trim rest) "" then None else Some (trim rest).
Proof.
  unfold parseBearerToken.
  change (default "" (Some ("Bearer " +:+ rest))) with ("Bearer " +:+ rest).
  rewrite (proj2 (startsWith_prefix "Bearer " _)) by (by exists rest).
  change 7%nat with (String.length "Bearer ").
  rewrite slice_from_app. reflexivity.
Qed.

(** ** The e-mail pattern *)

Lemma run_split (p : ascii -> bool) (cs : list ascii) :
  cs = ((run p cs).1 ++ (run p cs).2)%list
  /\ Forall (fun c => p c = true) (run p cs).1
  /\ match (run p cs).2 with
     | c :: _ => p c = false
     | [] => True
     end.
Proof.
  induction cs as [|c cs (IH1 & IH2 & IH3)]; cbn [run]; [done|].
  destruct (p c) eqn:Hc.
  - destruct (run p cs) as [r tl]. cbn [fst snd] in *.
    split_and!; [by rewrite IH1 at 1 | by constructor | done].
  - cbn. by rewrite Hc.
Qed.

Lemma run_app (p : ascii -> bool) (r tl : list ascii) :
  Forall (fun c => p c = true) r ->
  match tl with
  | c :: _ => p c = false
  | [] => True
  end ->
  run p (r ++ tl) = (r, tl).
Proof.
  intros Hr Htl. induction Hr as [|c r Hc _ IH]; cbn [app run].
  - destruct tl as [|c tl]; [done|]. cbn [run]. by rewrite Htl.
  - by rewrite Hc, IH.
Qed.

(** The run of [p] at the head of [r ++ tl] holds at least [r]. *)
Lemma run_prefix (p : ascii -> bool) (r tl : list ascii) :
  Forall (fun c => p c = true) r ->
  exists more, (run p (r ++ tl)).1 = (r ++ more)%list.
Proof.
  induction 1 as [|c r Hc _ [more IH]]; cbn [app run].
  - by eexists.
  - rewrite Hc. destruct (run p (r ++ tl)) as [r' tl']. cbn [fst] in *.
    exists more. by rewrite IH.
Qed.

Lemma last_dot_sound (cs m : list ascii) :
  last_dot cs = Some m ->
  exists front tld rest,
    cs = (front ++ "."%char :: tld ++ rest)%list
    /\ m = (front ++ "."%char :: tld)%list
    /\ (2 <= length tld)%nat
    /\ Forall (fun c => is_letter c = true) tld
    /\ match rest with
       | c :: _ => is_letter c = false
       | [] => True
       end.
Proof.
  revert m. induction cs as [|c cs IH]; intros m; cbn [last_dot]; [done|].
  destruct (last_dot cs) as [m'|].
  - intros [= <-].
    destruct (IH m' eq_refl) as (front & tld & rest & -> & -> & Hlen & Htld & Hr).
    by exists (c :: front), tld, rest.
  - destruct (Ascii.eqb c "." && (2 <=? length (run is_letter cs).1)%nat)
      eqn:Hdot; [|done].
    apply andb_true_iff in Hdot as [Hc Hlen].
    apply Ascii.eqb_eq in Hc as ->. apply Nat.leb_le in Hlen.
    intros [= <-]. destruct (run_split is_letter cs) as (Hcs & Hletters & Hrest).
    exists [], (run is_letter cs).1, (run is_letter cs).2.
    split_and!; try done. cbn. by rewrite <- Hcs.
Qed.

Lemma last_dot_complete (front tld rest : list ascii) :
  (2 <= length tld)%nat ->
  Forall (fun c => is_letter c = true) tld ->
  is_Some (last_dot (front ++ "."%char :: tld ++ rest)).
Proof.
  intros Hlen Htld. induction front as [|c front IH]; cbn [app last_dot].
  - destruct (last_dot (tld ++ rest)); [by eexists|].
    destruct (run_prefix is_letter tld rest Htld) as [more ->].
    rewrite length_app.
    replace (Ascii.eqb "." ".") with true by reflexivity.
    rewrite (proj2 (Nat.leb_le _ _)) by lia. by eexists.
  - destruct IH as [m ->]. by eexists.
Qed.

(** Among the dots of [cs] that two letters follow, [last_dot] takes the
    last one, and all the letters after it. *)
Lemma last_dot_longest (front tld rest m : list ascii) :
  (2 <= length tld)%nat ->
  Forall (fun c => is_letter c = true) tld ->
  last_dot (front ++ "."%char :: tld ++ rest) = Some m ->
  (length (front ++ "."%char :: tld) <= length m)%nat.
Proof.
  intros Hlen Htld. revert m.
  induction front as [|c front IH]; intros m; cbn [app last_dot].
  - destruct (last_dot (tld ++ rest)) as [m'|] eqn:Hlater.
    + intros [= <-].
      apply last_dot_sound in Hlater
        as (front' & tld' & rest' & Hsplit & -> & Hlen' & Htld' & Hrest').
      (* the later dot lies after the letters of [tld] *)
      assert (length tld <= length front')%nat; [|cbn; rewrite length_app; cbn; lia].
      destruct (Nat.le_gt_cases (length tld) (length front')) as [|Hlt]; [done|].
      exfalso.
      apply (f_equal (fun l => l !! length front')) in Hsplit.
      rewrite lookup_app_l in Hsplit by done.
      rewrite list_lookup_middle in Hsplit by done.
      eapply Forall_lookup_1 in Htld; [|exact Hsplit]. done.
    + destruct (run_prefix is_letter tld rest Htld) as [more Hmore].
      rewrite Hmore, length_app.
      replace (Ascii.eqb "." ".") with true by reflexivity.
      rewrite (proj2 (Nat.leb_le _ _)) by lia. intros [= <-].
      cbn. rewrite length_app. lia.
  - destruct (last_dot (front ++ "."%char :: tld ++ rest)) as [m'|] eqn:Hm.
    + intros [= <-]. specialize (IH m' eq_refl). cbn in *. lia.
    + by destruct (last_dot_complete front tld rest Hlen Htld) as [? ?];
        congruence.
Qed.

Lemma letter_domain (c : ascii) : is_letter c = true -> domain_char c = true.
Proof. unfold domain_char. by intros ->. Qed.

Lemma email_at_sound (cs m : list ascii) :
  email_at cs = Some m ->
  address_shape m /\ exists post, cs = (m ++ post)%list.
Proof.
  unfold email_at.
  destruct (run_split local_char cs) as (Hcs & Hloc & _).
  destruct (run local_char cs) as [[|l loc] [|at_sign rest]]; try done.
  cbn [fst snd] in *.
  destruct (Ascii.eqb at_sign "@") eqn:Hat; [|done].
  apply Ascii.eqb_eq in Hat as ->.
  destruct (run_split domain_char rest) as (Hrest & Hdom & _).
  destruct (run domain_char rest) as [[|d dom] tl]; [done|].
  cbn [fst snd] in *.
  destruct (last_dot dom) as [m0|] eqn:Hdot; [|done].
  intros [= <-].
  apply last_dot_sound in Hdot
    as (front & tld & rest' & -> & -> & Hlen & Htld & _).
  split.
  - exists (l :: loc), (d :: front), tld. split_and!; try done.
    apply Forall_cons in Hdom as [Hd Hdom].
    apply Forall_app in Hdom as [Hfront _]. by apply Forall_cons.
  - exists (rest' ++ tl)%list. rewrite Hcs, Hrest.
    cbn. rewrite <- !(assoc_L (++)). cbn. by rewrite <- !(assoc_L (++)).
Qed.

Lemma email_at_complete (m post : list ascii) :
  address_shape m ->
  exists m', email_at (m ++ post) = Some m' /\ (length m <= length m')%nat.
Proof.
  intros (loc & dom & tld & -> & Hne & Hloc & Hdne & Hdom & Hlen & Htld).
  unfold email_at. rewrite <- (assoc_L (++)).
  rewrite (run_app local_char loc) by done.
  destruct loc as [|l loc]; [done|]. cbn [app].
  replace (Ascii.eqb "@" "@") with true by reflexivity.
  destruct dom as [|d dom]; [done|].
  apply Forall_cons in Hdom as [Hd Hdom].
  assert (Hrun : Forall (fun c => domain_char c = true)
                   (d :: dom ++ "."%char :: tld)).
  { apply Forall_cons. split; [done|]. apply Forall_app. split; [done|].
    apply Forall_cons. split; [reflexivity|].
    eapply Forall_impl; [exact Htld | apply letter_domain]. }
  destruct (run_prefix domain_char _ post Hrun) as [more Hmore].
  replace (((d :: dom) ++ "."%char :: tld) ++ post)%list
    with ((d :: dom ++ "."%char :: tld) ++ post)%list
    by (cbn; by rewrite <- (assoc_L (++))).
  rewrite Hmore. cbn [app].
  rewrite <- (assoc_L (++)). cbn [app].
  destruct (last_dot_complete dom tld more Hlen Htld) as [m0 Hm0].
  rewrite Hm0. eexists. split; [reflexivity|].
  apply (last_dot_longest dom tld more m0 Hlen Htld) in Hm0.
  cbn. rewrite !length_app in *. cbn in *. rewrite !length_app in *.
  cbn in *. lia.
Qed.

Lemma address_nonempty (m : list ascii) : address_shape m -> m <> [].
Proof. intros (loc & dom & tld & -> & Hne & _). by destruct loc. Qed.

Lemma first_email_sound (cs m : list ascii) :
  first_email cs = Some m ->
  address_shape m
  /\ exists pre post,
       cs = (pre ++ m ++ post)%list
       /\ forall pre' m' post',
            cs = (pre' ++ m' ++ post')%list ->
            address_shape m' ->
            (length pre <= length pre')%nat
            /\ (length pre' = length pre -> length m' <= length m)%nat.
Proof.
  revert m. induction cs as [|c cs IH]; intros m; [done|].
  cbn [first_email].
  destruct (email_at (c :: cs)) as [m0|] eqn:Hat.
  - intros [= <-]. destruct (email_at_sound _ _ Hat) as [Hshape [post Hpost]].
    split; [done|]. exists [], post. split; [done|].
    intros pre' m' post' Hsplit Hm'. split; [cbn; lia|].
    intros Hlen. destruct pre' as [|? ?]; [|done]. cbn [app] in Hsplit.
    destruct (email_at_complete m' post' Hm') as (m1 & Hm1 & Hle).
    rewrite <- Hsplit, Hat in Hm1. by injection Hm1 as <-.
  - intros Hrest. destruct (IH m Hrest) as (Hshape & pre & post & -> & Hfirst).
    split; [done|]. exists (c :: pre), post. split; [done|].
    intros pre' m' post' Hsplit Hm'.
    destruct pre' as [|c' pre'].
    + cbn [app] in Hsplit.
      destruct (email_at_complete m' post' Hm') as (m1 & Hm1 & _).
      rewrite <- Hsplit, Hat in Hm1. done.
    + injection Hsplit as <- Hsplit.
      destruct (Hfirst pre' m' post' Hsplit Hm') as [Hle Hlong].
      cbn. split; [lia|]. intros Hlen. apply Hlong. lia.
Qed.

Lemma first_email_complete (pre m post : list ascii) :
  address_shape m -> is_Some (first_email (pre ++ m ++ post)).
Proof.
  intros Hm. induction pre as [|c pre IH]; cbn [app].
  - destruct (email_at_complete m post Hm) as (m' & Hm' & _).
    destruct (m ++ post)%list as [|c cs] eqn:Hcs.
    + apply app_eq_nil in Hcs as [-> _]. by apply address_nonempty in Hm.
    + cbn [first_email]. rewrite Hm'. by eexists.
  - cbn [first_email]. destruct (email_at _); [by eexists | exact IH].
Qed.

(** ** Lower case and substring search *)

Lemma lower_unit_idempotent (c : ascii) :
  lower_unit (lower_unit c) = lower_unit c.
Proof. by destruct c as [[] [] [] [] [] [] [] []]. Qed.

Lemma toLowerCase_idempotent (s : string) :
  toLowerCase (toLowerCase s) = toLowerCase s.
Proof.
  unfold toLowerCase. rewrite list_ascii_of_string_of_list_ascii. f_equal.
  rewrite map_map. apply map_ext. apply lower_unit_idempotent.
Qed.

Lemma toLowerCase_empty (s : string) : toLowerCase s = "" <-> s = "".
Proof. by destruct s. Qed.

Lemma toLowerCase_length (s : string) :
  String.length (toLowerCase s) = String.length s.
Proof.
  unfold toLowerCase.
  by rewrite length_string_of_list_ascii, length_map, length_list_ascii.
Qed.

Lemma includes_contains (needle hay : string) :
  includes needle hay = true <-> contains needle hay.
Proof.
  unfold contains. induction hay as [|c hay IH]; cbn [includes].
  - rewrite orb_false_r, startsWith_prefix. split.
    + intros [rest H]. by exists "", rest.
    + intros (before & after & H). destruct before; [by exists after|done].
  - rewrite orb_true_iff, startsWith_prefix, IH. split.
    + intros [[rest H]|(before & after & H)].
      * by exists "", rest.
      * exists (String c before), after. by rewrite H.
    + intros (before & after & H). destruct before as [|b before].
      * left. by exists after.
      * right. exists before, after.
        change (String b before +:+ needle +:+ after)
          with (String b (before +:+ needle +:+ after)) in H.
        by injection H.
Qed.

(** ** The superadmin endpoint *)

Ltac world_fields :=
  unfold record, with_db, with_identities;
  cbn [db identities issued journal clock rolls calls fetches].

Ltac among :=
  repeat first [apply list_elem_of_here | apply list_elem_of_further].

Lemma ends_with_ret {A} (x : A) : ends_with x (ret x).
Proof. intros w r w' [= <- _]. done. Qed.

Lemma ends_with_bind {A B} (x : B) (c : M A) (k : A -> M B) :
  (forall a, ends_with x (k a)) -> ends_with x (bind c k).
Proof.
  intros Hk w r w'. unfold bind.
  destruct (c w) as [[a| |] w1]; [|done|done]. apply Hk.
Qed.

Lemma lifecycle_action_ends (env : Env) (requester : DecodedUser)
    (action : Action) (userId : string) (w : World) (r : Response)
    (w' : World) :
  lifecycle_action env requester action userId w = (Done r, w') ->
  r = res_json SuccessBody \/ (status_code r = 400 /\ w' = w).
Proof.
  assert (Hend : forall c : M unit,
            ends_with (res_json SuccessBody) (c ;;; ret (res_json SuccessBody))).
  { intros c. apply ends_with_bind. intros _. apply ends_with_ret. }
  destruct action; cbn [lifecycle_action].
  - case_bool_decide.
    + intros [= <- <-]. by right.
    + intros Hrun. left. revert Hrun.
      repeat (apply ends_with_bind; intros ?). apply ends_with_ret.
  - intros Hrun. left. revert Hrun.
    repeat (apply ends_with_bind; intros ?). apply ends_with_ret.
  - case_bool_decide.
    + intros [= <- <-]. by right.
    + intros Hrun. left. revert Hrun.
      repeat (apply ends_with_bind; intros ?). apply ends_with_ret.
Qed.

Lemma ends_with_throw {A} (x : A) (m : string) : ends_with x (throw m).
Proof. intros w r w'. discriminate. Qed.

Lemma set_plan_ends (env : Env) (admin : AdminEnv) (userId : string)
    (plan : option string) (w : World) (r : Response) (w' : World) :
  set_plan env admin userId plan w = (Done r, w') ->
  r = res_json SuccessBody \/ (status_code r = 400 /\ w' = w).
Proof.
  unfold set_plan. destruct (negb _ || negb _).
  - intros [= <- <-]. by right.
  - intros Hrun. left. revert Hrun.
    apply ends_with_bind; intros now. destruct (own_plan _).
    + repeat (apply ends_with_bind; intros ?). apply ends_with_ret.
    + apply ends_with_throw.
Qed.

Lemma plainly_run (c : M Response) (w : World) :
  plainly c w
  = match c w with
    | (Done r, w') => (Done (Plain r), w')
    | (Thrown m, w') => (Thrown m, w')
    | (Unfinished, w') => (Unfinished, w')
    end.
Proof. unfold plainly, bind, ret. by destruct (c w) as [[| |] ?]. Qed.

Lemma superadmin_actions_ends (env : Env) (admin : AdminEnv)
    (requester : DecodedUser) (payload : SuperadminInput) (w : World)
    (r : Response) (w' : World) :
  superadmin_actions env admin requester payload w = (Done (Plain r), w') ->
  r = res_json SuccessBody \/ (status_code r = 400 /\ w' = w).
Proof.
  assert (Hplain : forall c : M Response,
            (forall r w', c w = (Done r, w') ->
                          r = res_json SuccessBody
                          \/ (status_code r = 400 /\ w' = w)) ->
            plainly c w = (Done (Plain r), w') ->
            r = res_json SuccessBody \/ (status_code r = 400 /\ w' = w)).
  { intros c Hc. rewrite plainly_run.
    destruct (c w) as [[r0| |] w0] eqn:Hcw; [|done|done].
    intros [= <- <-]. by apply Hc. }
  unfold superadmin_actions.
  destruct (String.eqb _ "list_users").
  { unfold bind. destruct (list_users _ _ _ _ w) as [[| |] ?]; done. }
  destruct (truthy (input_user_id payload)); cbn [negb].
  2:{ intros [= <- <-]. by right. }
  destruct (String.eqb _ "set_plan").
  { apply Hplain. intros ? ?. apply set_plan_ends. }
  destruct (String.eqb _ "suspend_user").
  { apply Hplain. intros ? ?. apply lifecycle_action_ends. }
  destruct (String.eqb _ "restore_user").
  { apply Hplain. intros ? ?. apply lifecycle_action_ends. }
  destruct (String.eqb _ "delete_user").
  { apply Hplain. intros ? ?. apply lifecycle_action_ends. }
  intros [= <- <-]. by right.
Qed.

Lemma requireSuperadmin_refusal (configured : option string)
    (auth : AuthOutcome) (refusal : Response) :
  requireSuperadmin configured auth = inl refusal ->
  status_code refusal = 401 \/ status_code refusal = 403.
Proof.
  unfold requireSuperadmin.
  destruct auth; cbn [requireAuthenticatedUser];
    try (intros [= <-]; by left).
  destruct (negb _); [|done]. intros [= <-]. by right.
Qed.

Lemma superadmin_endpoint_run (env : Env) (admin : AdminEnv)
    (authorization : option string) (requester : DecodedUser)
    (payload : SuperadminInput) (w : World) :
  as_superadmin admin authorization requester ->
  truthy (input_action payload) = true ->
  superadmin_endpoint env admin authorization payload w
  = try_catch (superadmin_actions env admin requester payload)
      (fun message => ret (Plain (sendError 500 message))) w.
Proof.
  unfold superadmin_endpoint, as_superadmin. by intros -> ->.
Qed.

Lemma standing_dispatch (env : Env) (admin : AdminEnv)
    (requester : DecodedUser) (suspended : bool) (userId : string)
    (plan : option string) (query : option string) (limit : option number) :
  userId <> "" ->
  superadmin_actions env admin requester
    (mkSuperadminInput (Some (standing_action suspended)) (Some userId) plan
       query limit)
  = plainly (lifecycle_action env requester
               (if suspended then suspend_user else restore_user) userId).
Proof.
  intros Hid. unfold superadmin_actions.
  cbn [input_action input_user_id input_plan].
  rewrite truthy_Some by done. by destruct suspended.
Qed.

Lemma set_plan_dispatch (env : Env) (admin : AdminEnv)
    (requester : DecodedUser) (userId : string)
    (plan : option string) (query : option string) (limit : option number) :
  userId <> "" ->
  superadmin_actions env admin requester
    (mkSuperadminInput (Some "set_plan") (Some userId) plan query limit)
  = plainly (set_plan env admin userId plan).
Proof.
  intros Hid. unfold superadmin_actions.
  cbn [input_action input_user_id input_plan].
  by rewrite truthy_Some by done.
Qed.

Lemma standing_run (env : Env) (requester : DecodedUser) (suspended : bool)
    (userId : string) (w : World) :
  store_available env ->
  (suspended = true -> userId <> uid requester) ->
  let t1 := clock_reading env (clock w) in
  let t2 := clock_reading env (S (clock w)) in
  let patch := standing_patch suspended t1 t2 in
  let written :=
    mkWorld (apply_batch [MergeProfile userId patch] (db w)) (identities w)
      (issued w) (journal w ++ [Committed [MergeProfile userId patch]])
      (if suspended then S (S (clock w)) else S (clock w)) (rolls w)
      (S (S (calls w))) (fetches w) in
  lifecycle_action env requester
    (if suspended then suspend_user else restore_user) userId w
  = match identities w !! userId with
    | Some _ =>
        (Done (res_json SuccessBody),
         record (IdentityUpdated userId suspended)
           (with_identities (<[userId := suspended]> (identities w)) written))
    | None => (Thrown no_user_record, written)
    end.
Proof.
  intros Ha Hself. cbv zeta.
  destruct suspended; cbn [lifecycle_action].
  - rewrite bool_decide_eq_false_2 by (by apply Hself).
    cbv [bind nowIso commit request ret updateUser]. world_fields.
    repeat (rewrite Ha; cbv beta iota; world_fields).
    by destruct (identities w !! userId).
  - cbv [bind nowIso commit request ret updateUser]. world_fields.
    repeat (rewrite Ha; cbv beta iota; world_fields).
    by destruct (identities w !! userId).
Qed.

Lemma standing_patch_set (suspended : bool) (t1 t2 : string)
    (before : ProfileData) :
  standing_set suspended (if suspended then Some t1 else None) before
    (merge_profile (standing_patch suspended t1 t2) before).
Proof. by destruct suspended. Qed.

Lemma standing_endpoint (env : Env) (admin : AdminEnv)
    (authorization : option string) (requester : DecodedUser)
    (suspended : bool) (userId : string) (plan : option string)
    (query : option string) (limit : option number) (w : World) :
  as_superadmin admin authorization requester ->
  store_available env ->
  userId <> "" ->
  (suspended = true -> userId <> uid requester) ->
  let t1 := clock_reading env (clock w) in
  let t2 := clock_reading env (S (clock w)) in
  let patch := standing_patch suspended t1 t2 in
  let written :=
    mkWorld (apply_batch [MergeProfile userId patch] (db w)) (identities w)
      (issued w) (journal w ++ [Committed [MergeProfile userId patch]])
      (if suspended then S (S (clock w)) else S (clock w)) (rolls w)
      (S (S (calls w))) (fetches w) in
  superadmin_endpoint env admin authorization
    (mkSuperadminInput (Some (standing_action suspended)) (Some userId) plan
       query limit) w
  = match identities w !! userId with
    | Some _ =>
        (Done (Plain (res_json SuccessBody)),
         record (IdentityUpdated userId suspended)
           (with_identities (<[userId := suspended]> (identities w)) written))
    | None => (Done (Plain (sendError 500 no_user_record)), written)
    end.
Proof.
  intros Hgate Ha Hid Hself. cbv zeta.
  rewrite (superadmin_endpoint_run env admin authorization requester)
    by (done || by destruct suspended).
  unfold try_catch. rewrite standing_dispatch by done.
  rewrite plainly_run, standing_run by done. cbv zeta.
  by destruct (identities w !! userId).
Qed.

(** What the search handler makes of the guard, on a search its caller
    owns and while the store answers. *)
Lemma guard_verdict (env : Env) (user : DecodedUser) (searchId : string)
    (w : World) (search : SearchData) (profile : ProfileData) :
  searchId <> "" ->
  searches (db w) !! searchId = Some search ->
  s_user_id search = Some (uid user) ->
  profiles (db w) !! uid user = Some profile ->
  serves env w 3 ->
  let run := run_apify_search env (Verified user) (Some searchId) w in
  match guard profile with
  | Reject status message => rejected env searchId w run status message
  | Proceed => proceeded env searchId w run
  end.
Proof.
  intros Hid Hsearch Hown Hprofile Hserves. cbv zeta.
  unfold run_apify_search. cbn [requireAuthenticatedUser].
  rewrite truthy_Some by done. cbn [negb].
  change (default "" (Some searchId)) with searchId. unfold try_catch.
  rewrite (run_search_guard env user searchId w search profile Hserves
             Hsearch Hown Hprofile).
  cbv zeta. destruct (guard profile) as [|status message].
  - match goal with
    | |- context [after_mark env user searchId search ?c ?p ?w1] =>
        destruct (after_mark env user searchId search c p w1)
          as [rb wb] eqn:Hbody
    end.
    destruct (after_mark_sound _ _ _ _ _ _ _ _ _ Hbody)
      as (_ & evs & Hj & _ & _).
    cbn [journal] in Hj.
    destruct rb as [resp|m|]; cbv beta iota.
    + exists evs. cbn [snd]. by rewrite Hj, <- (assoc_L (++)).
    + match goal with
      | |- proceeded _ _ _ (?h wb) =>
          destruct (h wb) as [r w'] eqn:Hcatch
      end.
      apply record_failure_journal in Hcatch as [recorded Hrec].
      exists (evs ++ recorded). cbn [snd].
      by rewrite Hrec, Hj, <- !(assoc_L (++)).
    + exists evs. cbn [snd]. by rewrite Hj, <- (assoc_L (++)).
  - unfold rejected. cbn [fst snd db journal].
    unfold apply_batch. cbn [foldl apply_op profiles searches leads].
    split_and!; try done.
    eexists. rewrite lookup_insert_eq. by split_and!.
Qed.

Lemma available_serves (env : Env) (w : World) (n : nat) :
  store_available env -> serves env w n.
Proof. intros Ha k _. apply Ha. Qed.

Lemma own_plan_name (plan : PlanType) : own_plan (plan_name plan) = Some plan.
Proof. by destruct plan. Qed.

Lemma set_plan_run (env : Env) (admin : AdminEnv) (userId : string)
    (plan : PlanType) (w : World) :
  let now := clock_reading env (clock w) in
  let asked n :=
    mkWorld (db w) (identities w) (issued w) (journal w) (S (clock w))
      (rolls w) n (fetches w) in
  let first :=
    mkWorld (apply_batch [MergeProfile userId (plan_patch plan now)] (db w))
      (identities w) (issued w)
      (journal w ++ [Committed [MergeProfile userId (plan_patch plan now)]])
      (S (clock w)) (rolls w) (S (S (calls w))) (fetches w) in
  set_plan env admin userId (Some (plan_name plan)) w
  = match store_fault env (calls w) with
    | Some m => (Thrown m, asked (S (calls w)))
    | None =>
        match store_fault env (S (calls w)) with
        | Some m => (Thrown m, first)
        | None =>
            (Done (res_json SuccessBody),
             record
               (Committed
                  [MergeSubscription userId (subscription_patch userId plan now)])
               (with_db
                  (apply_batch
                     [MergeSubscription userId
                        (subscription_patch userId plan now)] (db first))
                  first))
        end
    end.
Proof.
  cbv zeta. unfold set_plan. change (default "" (Some ?x)) with x.
  unfold in_PLAN_LIMITS. rewrite own_plan_name.
  replace (truthy (Some (plan_name plan))) with true by (by destruct plan).
  cbn [negb orb]. cbv [bind nowIso commit request ret]. world_fields.
  destruct (store_fault env (calls w)); cbv beta iota; [done|]. world_fields.
  destruct (store_fault env (S (calls w))); cbv beta iota; [done|].
  by world_fields.
Qed.

Lemma plan_patch_set (plan : PlanType) (now : string) (before : ProfileData) :
  plan_set plan before (merge_profile (plan_patch plan now) before).
Proof. done. Qed.

Lemma own_plan_named (name : string) (plan : PlanType) :
  own_plan name = Some plan -> name = plan_name plan.
Proof.
  unfold own_plan.
  destruct (String.eqb_spec name "starter") as [->|_]; [by intros [= <-]|].
  destruct (String.eqb_spec name "growth") as [->|_]; [by intros [= <-]|].
  destruct (String.eqb_spec name "pro") as [->|_]; [by intros [= <-]|].
  discriminate.
Qed.

Lemma property_names_known (name : string) :
  name ∈ property_names
  <-> is_Some (own_plan name) \/ name ∈ inherited_names.
Proof.
  unfold property_names. rewrite elem_of_app. split.
  - intros [Hown|Hinh]; [left|by right].
    apply list_elem_of_fmap in Hown as (plan & -> & _).
    rewrite own_plan_name. by eexists.
  - intros [[plan Hown]|Hinh]; [left|by right].
    apply own_plan_named in Hown as ->.
    apply list_elem_of_fmap. exists plan. split; [done|].
    destruct plan; among.
Qed.

(** What [set_plan] makes of the plan given, before any write. *)
Lemma set_plan_test (env : Env) (admin : AdminEnv) (userId : string)
    (given : option string) (w : World) :
  store_available env ->
  ((forall name, given = Some name -> name ∉ property_names)
   /\ set_plan env admin userId given w
      = (Done (sendError 400 "Valid plan is required"), w))
  \/ ((exists name, given = Some name /\ name ∈ property_names)
      /\ (set_plan env admin userId given w).1
         <> Done (sendError 400 "Valid plan is required")).
Proof.
  intros Ha. unfold set_plan.
  destruct given as [name|]; cbn [truthy negb orb].
  2:{ left. by split. }
  change (default "" (Some name)) with name.
  destruct (String.eqb_spec name "") as [->|Hname]; cbn [negb orb].
  { left. split; [|done]. intros ? [= <-].
    rewrite property_names_known. intros [[plan Hplan]|Hin]; [done|].
    by apply (bool_decide_eq_true_2 _) in Hin. }
  unfold in_PLAN_LIMITS.
  destruct (own_plan name) as [plan|] eqn:Hown; cbn [negb].
  - right. split.
    + exists name. split; [done|]. apply property_names_known. left. by eexists.
    + cbv [bind nowIso commit request ret]. world_fields. rewrite !Ha.
      cbn [fst]. discriminate.
  - case_bool_decide as Hinh; cbn [negb].
    + right. split; [|done].
      exists name. split; [done|]. apply property_names_known. by right.
    + left. split; [|done]. intros ? [= <-].
      rewrite property_names_known. intros [[plan Hplan]|Hin]; [|done].
      congruence.
Qed.

(** ** Listing the accounts *)

Lemma quiet_refl (w : World) : quiet w w.
Proof. done. Qed.

Lemma quiet_trans (w0 w1 w2 : World) : quiet w0 w1 -> quiet w1 w2 -> quiet w0 w2.
Proof. intros (? & ? & ?) (? & ? & ?). split_and!; congruence. Qed.

Lemma timestampToIso_run (env : Env) (value : TimeField) (w : World) :
  exists shown w',
    timestampToIso env value w = (Done shown, w')
    /\ time_shown env value shown /\ quiet w w'.
Proof.
  destruct value; cbn [timestampToIso]; eexists _, _;
    (split; [reflexivity|]); split; try done. by eexists.
Qed.

Lemma user_row_run (env : Env) (doc : ProfileSnapshot) (w : World) :
  exists row w',
    user_row env doc w = (Done row, w') /\ listed env doc row /\ quiet w w'.
Proof.
  unfold user_row.
  destruct (timestampToIso_run env (snapshot_created_at doc) w)
    as (created & w1 & Hrun1 & Hcreated & Hq1).
  rewrite (bind_done _ _ _ _ _ Hrun1).
  match goal with
  | |- context [bind (timestampToIso env ?v) _ w1] =>
      destruct (timestampToIso_run env v w1)
        as (updated & w2 & Hrun2 & Hupdated & Hq2);
      rewrite (bind_done _ _ _ _ _ Hrun2)
  end.
  eexists _, _. split; [reflexivity|]. split.
  - unfold listed. cbn. by split_and!.
  - by eapply quiet_trans.
Qed.

Lemma user_rows_run (env : Env) (docs : list ProfileSnapshot) :
  forall w,
    exists rows w',
      traverse docs (user_row env) w = (Done rows, w')
      /\ Forall2 (listed env) docs rows /\ quiet w w'.
Proof.
  induction docs as [|doc docs IH]; intros w; cbn [traverse].
  - by exists [], w.
  - destruct (user_row_run env doc w) as (row & w1 & Hrow & Hlisted & Hq1).
    destruct (IH w1) as (rows & w2 & Hrows & Hall & Hq2).
    rewrite (bind_done _ _ _ _ _ Hrow), (bind_done _ _ _ _ _ Hrows).
    exists (row :: rows), w2. split_and!; [done|by constructor|].
    by eapply quiet_trans.
Qed.

Lemma matches_query_selected (queryText : string) (row : UserRow) :
  matches_query queryText row = true <-> selected queryText row.
Proof.
  unfold matches_query, selected.
  destruct (String.eqb_spec queryText "") as [->|Hne].
  - split; [by left | done].
  - rewrite orb_true_iff, !includes_contains. split; [by right|].
    by intros [?|?].
Qed.

Lemma filter_sublist {A} (f : A -> bool) (l : list A) :
  sublist (List.filter f l) l.
Proof.
  induction l as [|x l IH]; cbn; [constructor|].
  destruct (f x); by constructor.
Qed.

Lemma read_run {A} (env : Env) (f : Store -> A) (w : World) :
  let asked :=
    mkWorld (db w) (identities w) (issued w) (journal w) (clock w) (rolls w)
      (S (calls w)) (fetches w) in
  read env f w
  = match store_fault env (calls w) with
    | Some m => (Thrown m, asked)
    | None => (Done (f (db w)), asked)
    end.
Proof. cbv [read bind request]. by destruct (store_fault env (calls w)). Qed.

(** What [list_users] does, whatever it is asked. *)
Lemma list_users_run (env : Env) (admin : AdminEnv) (limit : option number)
    (query : option string) (w : World) :
  let run := list_users env admin limit query w in
  quiet w run.2
  /\ match limit_refused admin (limit_value limit) with
     | Some m => run.1 = Thrown m
     | None =>
         match store_fault env (calls w) with
         | Some m => run.1 = Thrown m
         | None =>
             exists rows,
               Forall2 (listed env)
                 (newest_profiles admin (limit_value limit) (db w)) rows
               /\ run.1
                  = Done (List.filter
                            (matches_query
                               (toLowerCase (trim (default "" query)))) rows)
         end
     end.
Proof.
  cbv zeta. unfold list_users.
  destruct (limit_refused admin (limit_value limit)) as [m|].
  { done. }
  cbv [bind]. rewrite read_run.
  destruct (store_fault env (calls w)) as [m|]; cbv beta iota.
  { done. }
  match goal with
  | |- context [traverse ?docs _ ?w1] =>
      destruct (user_rows_run env docs w1) as (rows & w2 & Hrows & Hall & Hq)
  end.
  rewrite Hrows. cbn [ret fst snd].
  split; [exact Hq|]. by exists rows.
Qed.

Lemma list_users_dispatch (env : Env) (admin : AdminEnv)
    (requester : DecodedUser) (user_id : option string) (plan : option string)
    (query : option string) (limit : option number) :
  superadmin_actions env admin requester
    (mkSuperadminInput (Some "list_users") user_id plan query limit)
  = (users <- list_users env admin limit query ;; ret (UserList users)).
Proof. reflexivity. Qed.

Lemma listed_columns (env : Env) (docs : list ProfileSnapshot)
    (rows : list UserRow) :
  Forall2 (listed env) docs rows ->
  row_id <$> rows = snapshot_id <$> docs
  /\ row_plan <$> rows
     = (fun doc => default starter (p_plan (snapshot_data doc))) <$> docs
  /\ row_leads_limit <$> rows
     = (fun doc => default 2000 (p_leads_limit (snapshot_data doc))) <$> docs.
Proof.
  induction 1 as [|doc row docs rows Hrow _ (IH1 & IH2 & IH3)]; [done|].
  destruct Hrow as (Hid & _ & _ & Hplan & _ & Hlimit & _).
  cbn [fmap list_fmap]. by rewrite Hid, Hplan, Hlimit, IH1, IH2, IH3.
Qed.

(** ** More of the search handler *)

Lemma run_apify_search_verified (env : Env) (user : DecodedUser)
    (searchId : string) (w : World) :
  searchId <> "" ->
  run_apify_search env (Verified user) (Some searchId) w
  = try_catch (run_search env user searchId)
      (fun message =>
         swallow (now <- nowIso env ;;
                  commit env [MergeSearch searchId (failed_patch message now)]) ;;;
         ret (sendError 500 message)) w.
Proof.
  intros Hid. unfold run_apify_search. cbn [requireAuthenticatedUser].
  by rewrite truthy_Some by done.
Qed.

Lemma proceeding_run (env : Env) (user : DecodedUser) (searchId : string)
    (w : World) (search : SearchData) (profile : ProfileData) :
  searchId <> "" ->
  store_available env ->
  searches (db w) !! searchId = Some search ->
  s_user_id search = Some (uid user) ->
  profiles (db w) !! uid user = Some profile ->
  guard profile = Proceed ->
  truthy (APIFY_TOKEN env) = true ->
  let now := clock_reading env (clock w) in
  let marked :=
    mkWorld (apply_batch [MergeSearch searchId (running_patch now)] (db w))
      (identities w) (issued w)
      (journal w ++ [Committed [MergeSearch searchId (running_patch now)]])
      (S (clock w)) (rolls w) (S (S (S (calls w)))) (fetches w) in
  run_apify_search env (Verified user) (Some searchId) w
  = try_catch
      (fun _ =>
         run_live env user searchId search (default 0 (p_leads_used profile))
           (default starter (p_plan profile)) marked)
      (fun message =>
         swallow (now <- nowIso env ;;
                  commit env [MergeSearch searchId (failed_patch message now)]) ;;;
         ret (sendError 500 message)) w.
Proof.
  intros Hid Ha Hsearch Hown Hprofile Hguard Htok. cbv zeta.
  rewrite run_apify_search_verified by done. unfold try_catch.
  rewrite (run_search_guard env user searchId w search profile
             (available_serves env w 3 Ha) Hsearch Hown Hprofile).
  cbv zeta. rewrite Hguard. unfold after_mark. by rewrite Htok.
Qed.

(** ** Deleting under faults *)

Lemma deleteByUserId_loop_safe (env : Env) (c : Collection) (userId : string) :
  forall (fuel : nat) (w : World),
    (length (user_docs c userId (db w)) < fuel)%nat ->
    exists r w' batches,
      deleteByUserId_loop env fuel c userId w = (r, w')
      /\ (r = Done tt \/ exists m, r = Thrown m)
      /\ identities w' = identities w
      /\ journal w' = journal w ++ deletion_batches c batches
      /\ Forall batch_sized batches
      /\ purged c userId (db w') = purged c userId (db w)
      /\ (r = Done tt -> db w' = purged c userId (db w)).
Proof.
  induction fuel as [|fuel IH]; intros w Hfuel; [lia|].
  cbn [deleteByUserId_loop]. cbv [bind read request ret commit].
  destruct (store_fault env (calls w)) as [m|]; cbv beta iota.
  { eexists _, _, []. split; [reflexivity|]. world_fields.
    split_and!; try done; [right; by eexists | by (cbn; rewrite (right_id_L [] (++)))]. }
  world_fields.
  set (all := user_docs c userId (db w)) in *.
  remember (take 400 all) as snap eqn:Hsnap.
  destruct snap as [|k ks]; cbv beta iota.
  - assert (all = []) as Hall by (destruct all; [done | discriminate]).
    eexists _, _, []. split; [reflexivity|]. world_fields.
    split_and!; try done; [by left | by (cbn; rewrite (right_id_L [] (++))) |].
    intros _. symmetry. by apply purged_none.
  - world_fields. set (snap := k :: ks) in *.
    assert (Hlen : batch_sized snap).
    { unfold batch_sized. split; [cbn; lia|].
      rewrite Hsnap, length_take. apply Nat.le_min_l. }
    assert (Hnd : NoDup snap).
    { rewrite Hsnap. apply (NoDup_app (take 400 all) (drop 400 all)).
      rewrite take_drop. apply user_docs_NoDup. }
    assert (Hsub : forall k, k ∈ snap -> k ∈ all).
    { intros k' Hk. rewrite <- (take_drop 400 all), <- Hsnap.
      apply elem_of_app. by left. }
    destruct (deletes_effect c userId snap (db w) Hnd Hsub)
      as [Hcount Hpurged].
    destruct (store_fault env (S (calls w))) as [m|]; cbv beta iota.
    { eexists _, _, []. split; [reflexivity|]. world_fields.
      split_and!; try done;
        [right; by eexists | by (cbn; rewrite (right_id_L [] (++)))]. }
    world_fields.
    destruct (length snap <? 400)%nat eqn:Hfull.
    + apply Nat.ltb_lt in Hfull.
      assert (snap = all) as Heq.
      { rewrite Hsnap. apply take_ge.
        rewrite Hsnap, length_take in Hfull. clear -Hfull. clearbody all.
        revert Hfull. generalize 400%nat. lia. }
      eexists _, _, [snap]. split; [reflexivity|]. world_fields.
      split_and!; try done; [by left | by apply Forall_singleton |].
      intros _. rewrite Heq. apply deletes_all.
    + match goal with
      | |- context [deleteByUserId_loop env fuel c userId ?w1] =>
          destruct (IH w1)
            as (r & w' & batches & Hrun & Hr & Hi & Hj & Hsized & Hp & Hdone)
      end.
      { cbn [db]. fold all in Hcount. rewrite Hcount.
        destruct Hlen as [Hpos _].
        assert (Hle : (length snap <= length all)%nat)
          by (rewrite Hsnap, length_take; apply Nat.le_min_r).
        clear -Hpos Hle Hfuel. clearbody all snap. lia. }
      exists r, w', (snap :: batches). split; [exact Hrun|].
      revert Hi Hj Hp Hdone. world_fields. intros Hi Hj Hp Hdone.
      split_and!; try done.
      * rewrite Hj. cbn. by rewrite <- (assoc_L (++)).
      * by apply Forall_cons.
      * by rewrite Hp.
      * intros Hr'. by rewrite Hdone.
Qed.

(** ** Chunks as slices *)

Lemma chunk_loop_lookup {T} (n : nat) :
  forall (fuel : nat) (items : list T) (i : nat) (chunk : list T),
    (length items <= fuel)%nat ->
    chunk_loop fuel items (S n) !! i = Some chunk ->
    chunk = take (S n) (drop (i * S n) items)
    /\ (i * S n < length items)%nat.
Proof.
  induction fuel as [|fuel IH]; intros items i chunk Hfuel.
  - destruct items; [done | simpl in Hfuel; lia].
  - destruct items as [|x items]; [done|]. cbn [chunk_loop].
    destruct i as [|i].
    + intros [= <-]. split; [done | cbn; lia].
    + rewrite lookup_cons_ne_0 by done. cbn [Nat.pred]. intros Hi.
      apply IH in Hi as [-> Hlt].
      2:{ rewrite length_drop. cbn in *. lia. }
      rewrite drop_drop, length_drop in *.
      split; [f_equal; f_equal; lia | lia].
Qed.

Lemma chunk_loop_length {T} (n : nat) :
  forall (fuel : nat) (items : list T),
    (length items <= fuel)%nat ->
    let k := length (chunk_loop fuel items (S n)) in
    (length items <= k * S n /\ k * S n < length items + S n)%nat.
Proof.
  induction fuel as [|fuel IH]; intros items Hfuel; cbv zeta.
  - destruct items; [cbn; lia | simpl in Hfuel; lia].
  - destruct items as [|x items]; [cbn; lia|]. cbn [chunk_loop length].
    specialize (IH (drop (S n) (x :: items))). cbv zeta in IH.
    rewrite length_drop in IH. cbn [length] in *.
    destruct IH as [IH1 IH2]; [lia|].
    set (k := length (chunk_loop _ _ _)) in *. clearbody k.
    destruct k as [|k]; cbn [Nat.mul] in *; lia.
Qed.

(** ** The gate *)

Lemma limit_value_finite (q : Q) :
  limit_value (Some (Finite q))
  = if Qle_bool q 1 then Finite 1
    else if Qle_bool q 1000 then Finite q else Finite 1000.
Proof.
  unfold limit_value. change (default _ (Some ?x)) with x.
  cbn [math_max]. destruct (Qle_bool q 1); [reflexivity|].
  cbn [math_min]. by destruct (Qle_bool q 1000).
Qed.

(** ** Whom the superadmin endpoint touches *)

Section Sparing.

Context (env : Env) (userId : string).

Lemma spared_refl (w : World) : spared userId w w.
Proof. done. Qed.

Lemma spared_trans (w0 w1 w2 : World) :
  spared userId w0 w1 -> spared userId w1 w2 -> spared userId w0 w2.
Proof.
  intros (? & ? & ? & ? & ?) (? & ? & ? & ? & ?). split_and!; congruence.
Qed.

Lemma spared_same (w w' : World) :
  db w' = db w -> identities w' = identities w -> spared userId w w'.
Proof. intros Hdb Hi. unfold spared. by rewrite Hdb, Hi. Qed.

Lemma sparing_ret {A} (a : A) : sparing userId (ret a).
Proof. intros w. apply spared_refl. Qed.

Lemma sparing_throw {A} (m : string) : sparing userId (@throw A m).
Proof. intros w. apply spared_refl. Qed.

Lemma sparing_bind {A B} (c : M A) (k : A -> M B) :
  sparing userId c -> (forall a, sparing userId (k a)) ->
  sparing userId (bind c k).
Proof.
  intros Hc Hk w. unfold bind. specialize (Hc w).
  destruct (c w) as [[a|m|] w1]; cbn [snd] in *; [|done|done].
  eapply spared_trans; [exact Hc | apply Hk].
Qed.

Lemma sparing_try_catch {A} (body : M A) (handler : string -> M A) :
  sparing userId body -> (forall m, sparing userId (handler m)) ->
  sparing userId (try_catch body handler).
Proof.
  intros Hb Hh w. unfold try_catch. specialize (Hb w).
  destruct (body w) as [[a|m|] w1]; cbn [snd] in *; [done| |done].
  eapply spared_trans; [exact Hb | apply Hh].
Qed.

Lemma sparing_swallow (c : M unit) :
  sparing userId c -> sparing userId (swallow c).
Proof.
  intros Hc. apply sparing_try_catch; [done|]. intros m. apply sparing_ret.
Qed.

Lemma sparing_nowIso : sparing userId (nowIso env).
Proof. intros w. by apply spared_same. Qed.

Lemma sparing_quiet {A} (c : M A) :
  (forall w, quiet w (c w).2) -> sparing userId c.
Proof.
  intros Hq w. destruct (Hq w) as (Hdb & Hi & _).
  unfold spared. by rewrite Hdb, Hi.
Qed.

Lemma sparing_commit (ops : list WriteOp) :
  (forall s,
      let s' := apply_batch ops s in
      others l_user_id userId (leads s') = others l_user_id userId (leads s)
      /\ others s_user_id userId (searches s')
         = others s_user_id userId (searches s)
      /\ delete userId (profiles s') = delete userId (profiles s)
      /\ delete userId (subscriptions s') = delete userId (subscriptions s)) ->
  sparing userId (commit env ops).
Proof.
  intros Hops w. cbv [commit bind request].
  destruct (store_fault env (calls w)); [by apply spared_same|].
  world_fields. cbn [snd]. destruct (Hops (db w)) as (? & ? & ? & ?).
  by split_and!.
Qed.

Lemma sparing_merge_profile (patch : ProfileData) :
  sparing userId (commit env [MergeProfile userId patch]).
Proof.
  apply sparing_commit. intros s. cbv zeta. unfold apply_batch.
  cbn [foldl apply_op profiles searches leads subscriptions].
  split_and!; try done. apply delete_insert_eq.
Qed.

Lemma sparing_merge_subscription (patch : SubscriptionDoc) :
  sparing userId (commit env [MergeSubscription userId patch]).
Proof.
  apply sparing_commit. intros s. cbv zeta. unfold apply_batch.
  cbn [foldl apply_op profiles searches leads subscriptions].
  split_and!; try done. apply delete_insert_eq.
Qed.

Lemma sparing_delete_own (c : Collection) :
  c = Subscriptions \/ c = Profiles ->
  sparing userId (commit env [DeleteDoc c userId]).
Proof.
  intros Hc. apply sparing_commit. intros s. cbv zeta. unfold apply_batch.
  destruct Hc as [-> | ->];
    cbn [foldl apply_op profiles searches leads subscriptions];
    split_and!; try done; apply delete_delete_eq.
Qed.

Lemma sparing_updateUser (disabled : bool) :
  sparing userId (updateUser env userId disabled).
Proof.
  intros w. cbv [updateUser bind request].
  destruct (store_fault env (calls w)); [by apply spared_same|].
  world_fields. destruct (identities w !! userId); [|by apply spared_same].
  world_fields. cbn [snd]. unfold spared. world_fields.
  split_and!; try done. apply delete_insert_eq.
Qed.

Lemma sparing_deleteUser : sparing userId (deleteUser env userId).
Proof.
  intros w. cbv [deleteUser bind request].
  destruct (store_fault env (calls w)); [by apply spared_same|].
  world_fields. destruct (identities w !! userId); [|by apply spared_same].
  world_fields. cbn [snd]. unfold spared. world_fields.
  split_and!; try done. apply delete_delete_eq.
Qed.

Lemma sparing_deleteByUserId (c : Collection) :
  c = Leads \/ c = Searches -> sparing userId (deleteByUserId env c userId).
Proof.
  intros Hc w. unfold deleteByUserId.
  destruct (deleteByUserId_loop_safe env c userId
              (S (length (user_docs c userId (db w)))) w)
    as (r & w' & batches & -> & _ & Hi & _ & _ & Hp & _); [lia|].
  cbn [snd]. unfold spared. rewrite Hi.
  destruct Hc as [-> | ->]; cbn [purged] in Hp;
    injection Hp as Hp1 Hp2 Hp3 Hp4; by rewrite Hp1, Hp2, Hp3, Hp4.
Qed.

Lemma sparing_lifecycle (requester : DecodedUser) (action : Action) :
  sparing userId (lifecycle_action env requester action userId).
Proof.
  destruct action; cbn [lifecycle_action]; try case_bool_decide;
    try apply sparing_ret;
    repeat first
      [ apply sparing_ret
      | apply sparing_nowIso
      | apply sparing_merge_profile
      | apply sparing_updateUser
      | apply sparing_deleteUser
      | apply sparing_swallow
      | apply sparing_delete_own; by auto
      | apply sparing_deleteByUserId; by auto
      | apply sparing_bind; [|intros ?] ].
Qed.

Lemma sparing_set_plan (admin : AdminEnv) (plan : option string) :
  sparing userId (set_plan env admin userId plan).
Proof.
  unfold set_plan. destruct (negb _ || negb _); [apply sparing_ret|].
  apply sparing_bind; [apply sparing_nowIso|intros now].
  destruct (own_plan _); [|apply sparing_throw].
  repeat first
    [ apply sparing_ret
    | apply sparing_merge_profile
    | apply sparing_merge_subscription
    | apply sparing_bind; [|intros ?] ].
Qed.

Lemma sparing_list_users (admin : AdminEnv) (limit : option number)
    (query : option string) :
  sparing userId (list_users env admin limit query).
Proof.
  apply sparing_quiet. intros w.
  by destruct (list_users_run env admin limit query w) as [Hq _].
Qed.

End Sparing.

(** ** The pages of the enrichment pass *)

Lemma enrich_lead_pages (env : Env) (searchId : string) (lead : LeadPayload)
    (w : World) :
  exists evs,
    (enrich_lead env searchId lead w).1 = Done tt
    /\ journal (enrich_lead env searchId lead w).2 = journal w ++ evs
    /\ pages_fetched evs = [default "" (website lead)].
Proof.
  destruct (enrich_lead env searchId lead w) as [r w'] eqn:Hrun.
  cbn [fst snd]. revert Hrun.
  unfold enrich_lead, swallow, try_catch.
  cbv [bind fetch_page read request ret commit].
  destruct (page_reply env (fetches w) (default "" (website lead)))
    as [m|html]; cbv beta iota.
  { intros [= <- <-]. by eexists [_]. }
  destruct (match_email html) as [found|]; cbv beta iota.
  2:{ intros [= <- <-]. by eexists [_]. }
  world_fields.
  destruct (store_fault env (calls w)) as [m|]; cbv beta iota.
  { intros [= <- <-]. by eexists [_]. }
  world_fields.
  destruct (leads_of_site searchId (website lead) (db w)) as [|id ids];
    cbn [take]; cbv beta iota.
  { intros [= <- <-]. by eexists [_]. }
  world_fields.
  destruct (store_fault env (S (calls w))) as [m|]; cbv beta iota;
    intros [= <- <-]; world_fields.
  - by eexists [_].
  - eexists [_; _]. by rewrite <- (assoc_L (++)).
Qed.

Lemma pages_fetched_app (evs1 evs2 : list Event) :
  pages_fetched (evs1 ++ evs2) = pages_fetched evs1 ++ pages_fetched evs2.
Proof. apply omap_app. Qed.

Lemma for_each_pages (env : Env) (searchId : string)
    (todo : list LeadPayload) :
  forall w,
    exists evs,
      (for_each todo (enrich_lead env searchId) w).1 = Done tt
      /\ journal (for_each todo (enrich_lead env searchId) w).2
         = journal w ++ evs
      /\ pages_fetched evs = (fun lead => default "" (website lead)) <$> todo.
Proof.
  induction todo as [|lead todo IH]; intros w; cbn [for_each].
  - exists []. by rewrite (right_id_L [] (++)).
  - destruct (enrich_lead_pages env searchId lead w) as (evs1 & Hr & Hj & Hp).
    unfold bind.
    destruct (enrich_lead env searchId lead w) as [r w1].
    cbn [fst snd] in *. subst r.
    destruct (IH w1) as (evs2 & Hr2 & Hj2 & Hp2).
    exists (evs1 ++ evs2). split_and!; [done| |].
    + by rewrite Hj2, Hj, <- (assoc_L (++)).
    + by rewrite pages_fetched_app, Hp, Hp2.
Qed.

(** ** Synthetic contact fields *)

Lemma pretty_N_char_digit (x : N) : is_digit (pretty_N_char x) = true.
Proof. unfold pretty_N_char. by repeat case_match. Qed.

(** A number below [10 ^ n] is written with at most [n] digits. *)
Lemma pretty_N_go_digits (n : nat) :
  forall (x : N) (s : string),
    (x < 10 ^ N.of_nat n)%N ->
    exists d,
      pretty_N_go x s = string_of_list_ascii d +:+ s
      /\ (length d <= n)%nat
      /\ Forall (fun c => is_digit c = true) d.
Proof.
  induction n as [|n IH]; intros x s Hx.
  - assert (x = 0%N) as -> by (cbn in Hx; lia).
    exists []. by rewrite pretty_N_go_0.
  - destruct (decide (x = 0%N)) as [->|Hne].
    { exists []. rewrite pretty_N_go_0. split_and!; [done|cbn; lia|done]. }
    rewrite pretty_N_go_step by lia.
    destruct (IH (x `div` 10)%N
                (String (pretty_N_char (x `mod` 10)) s)) as (d & -> & Hlen & Hd).
    { apply N.Div0.div_lt_upper_bound.
      rewrite Nat2N.inj_succ, N.pow_succ_r' in Hx. lia. }
    exists (d ++ [pretty_N_char (x `mod` 10)]). split_and!.
    + rewrite string_of_list_app. cbn. by rewrite string_app_assoc.
    + rewrite length_app. cbn. lia.
    + apply Forall_app. split; [done|].
      apply Forall_singleton, pretty_N_char_digit.
Qed.

Lemma padStart_four (z : Z) :
  0 <= z < 10000 -> four_digits (padStart 4 "0" (pretty z)) = true.
Proof.
  intros Hz.
  assert (Hd : exists d,
            pretty z = string_of_list_ascii d
            /\ (length d <= 4)%nat
            /\ Forall (fun c => is_digit c = true) d).
  { destruct z as [|p|p]; [| |lia].
    { exists ["0"%char]. split_and!; [done | cbn; lia | by repeat constructor]. }
    change (pretty (Z.pos p)) with (pretty (N.pos p)).
    unfold pretty, pretty_N. rewrite decide_False by done.
    destruct (pretty_N_go_digits 4 (N.pos p) "") as (d & -> & Hlen & Hd).
    { change (10 ^ N.of_nat 4)%N with 10000%N. lia. }
    exists d. split_and!; try done.
    clear. induction (string_of_list_ascii d) as [|c s IH]; [done|].
    change (String c s +:+ "") with (String c (s +:+ "")). by rewrite IH. }
  destruct Hd as (d & -> & Hlen & Hd).
  unfold four_digits, padStart.
  rewrite length_string_of_list_ascii, <- string_of_list_app.
  rewrite length_string_of_list_ascii, list_ascii_of_string_of_list_ascii.
  apply andb_true_iff. split.
  - apply Nat.eqb_eq. rewrite length_app, length_replicate. lia.
  - apply forallb_forall. intros c Hc. apply in_app_or in Hc as [Hc|Hc].
    + apply list_elem_of_In, elem_of_replicate in Hc as [-> _]. done.
    + rewrite List.Forall_forall in Hd. by apply Hd.
Qed.

Lemma phone_range (r : Q) :
  (0 <= r)%Q -> (r < 1)%Q -> 0 <= Qfloor (r * 10000) < 10000.
Proof.
  intros H0 H1.
  assert (Hlo : (inject_Z 0 <= r * 10000)%Q).
  { change (inject_Z 0) with (0 # 1). lra. }
  assert (Hhi : (r * 10000 < inject_Z 10000)%Q).
  { change (inject_Z 10000) with (10000 # 1). lra. }
  split.
  - rewrite <- (Qfloor_Z 0). by apply Qfloor_resp_le.
  - rewrite Zlt_Qlt. eapply Qle_lt_trans; [apply Qfloor_le | exact Hhi].
Qed.

Lemma delete_dispatch (env : Env) (admin : AdminEnv)
    (requester : DecodedUser) (userId : string) (plan : option string)
    (query : option string) (limit : option number) :
  userId <> "" ->
  superadmin_actions env admin requester
    (mkSuperadminInput (Some "delete_user") (Some userId) plan query limit)
  = plainly (lifecycle_action env requester delete_user userId).
Proof.
  intros Hid. unfold superadmin_actions.
  cbn [input_action input_user_id input_plan].
  by rewrite truthy_Some by done.
Qed.

Lemma deleteUser_missing (env : Env) (userId : string) (w : World) :
  store_available env ->
  identities w !! userId = None ->
  deleteUser env userId w
  = (Thrown no_user_record,
     mkWorld (db w) (identities w) (issued w) (journal w) (clock w) (rolls w)
       (S (calls w)) (fetches w)).
Proof.
  intros Ha Hd. unfold deleteUser, bind, request. rewrite Ha.
  cbn [identities]. by rewrite Hd.
Qed.

(** * More properties of the code *)

(** X1. For a positive chunk size, [chunkArray] cuts the items into
    consecutive slices: chunk [i] is [items.slice(i * size, (i + 1) *
    size)]; there are ceil(length / size) of them, none empty, all of the
    full size except possibly the last, and together they are the items. *)
Theorem chunkArray_slices {T} (items : list T) (chunkSize : nat) :
  (0 < chunkSize)%nat ->
  concat (chunkArray items chunkSize) = items
  /\ length (chunkArray items chunkSize)
     = ((length items + chunkSize - 1) / chunkSize)%nat
  /\ forall i chunk,
       chunkArray items chunkSize !! i = Some chunk ->
       chunk = take chunkSize (drop (i * chunkSize) items)
       /\ (0 < length chunk <= chunkSize)%nat
       /\ ((S i < length (chunkArray items chunkSize))%nat ->
           length chunk = chunkSize).
Proof.
  intros Hpos. destruct chunkSize as [|n]; [lia|]. split_and!.
  - apply chunkArray_concat.
  - destruct (chunk_loop_length n (length items) items (le_n _)) as [H1 H2].
    fold (chunkArray items (S n)) in H1, H2.
    set (k := length (chunkArray items (S n))) in *.
    clearbody k.
    apply (Nat.div_unique _ _ _ (length items + S n - 1 - k * S n)); lia.
  - intros i chunk Hi.
    destruct (chunk_loop_lookup n (length items) items i chunk (le_n _) Hi)
      as [-> Hlt].
    split; [done|]. rewrite length_take, length_drop. split; [lia|].
    intros Hnext.
    destruct (lookup_lt_is_Some_2 (chunkArray items (S n)) (S i) Hnext)
      as [next Hnext'].
    destruct (chunk_loop_lookup n (length items) items (S i) next (le_n _)
                Hnext') as [_ Hlt'].
    lia.
Qed.

Lemma chunkArray_slices_witness :
  chunkArray [1; 2; 3; 4; 5] 2 !! 2%nat = Some [5]
  /\ length (chunkArray [1; 2; 3; 4; 5] 2) = 3%nat.
Proof.
  destruct (chunkArray_slices [1; 2; 3; 4; 5] 2 ltac:(lia))
    as (_ & Hcount & _).
  split; [reflexivity | exact Hcount].
Defined.

(** X2. [parseBearerToken] yields a token exactly for a header that starts
    with "Bearer " (in this spelling) and has something else than white
    space after it; the token is that rest without the white space around
    it, so it is never empty and has no white space at either end. *)
Theorem parseBearerToken_accepts (authorization : option string)
    (token : string) :
  (parseBearerToken authorization = Some token
   <-> exists rest,
         authorization = Some ("Bearer " +:+ rest)
         /\ trim rest = token /\ token <> "")
  /\ (parseBearerToken authorization = Some token -> trim token = token).
Proof.
  assert (Hiff : parseBearerToken authorization = Some token
                 <-> exists rest,
                       authorization = Some ("Bearer " +:+ rest)
                       /\ trim rest = token /\ token <> "").
  { split.
    - unfold parseBearerToken.
      destruct (truthy authorization) eqn:Ht; cbn [negb orb]; [|done].
      destruct authorization as [a|]; [|done].
      change (default "" (Some a)) with a.
      destruct (startsWith "Bearer " a) eqn:Hs; cbn [negb]; [|done].
      apply startsWith_prefix in Hs as [rest ->].
      change 7%nat with (String.length "Bearer ").
      rewrite slice_from_app.
      destruct (String.eqb (trim rest) "") eqn:He; [done|].
      intros [= <-]. exists rest. split_and!; [done|done|].
      by apply String.eqb_neq.
    - intros (rest & -> & <- & Hne). rewrite parseBearerToken_bearer.
      by rewrite (proj2 (String.eqb_neq _ _) Hne). }
  split; [exact Hiff|].
  intros H. apply Hiff in H as (rest & _ & <- & _). apply trim_idempotent.
Qed.

(** X3. A token with no white space at its ends comes back as it is from
    the header "Bearer " followed by the token, with any white space before
    or after it. *)
Theorem parseBearerToken_round_trip (token pre post : string) :
  token <> "" -> trim token = token -> blank pre -> blank post ->
  parseBearerToken (Some ("Bearer " +:+ pre +:+ token +:+ post)) = Some token.
Proof.
  intros Hne Htight Hpre Hpost.
  rewrite parseBearerToken_bearer, trim_padded by done.
  by rewrite (proj2 (String.eqb_neq _ _) Hne).
Qed.

Lemma parseBearerToken_round_trip_witness :
  parseBearerToken (Some "Bearer   abc.def ") = Some "abc.def".
Proof.
  apply (parseBearerToken_round_trip "abc.def" "  " " ").
  - discriminate.
  - reflexivity.
  - unfold blank. repeat constructor.
  - unfold blank. repeat constructor.
Defined.

(** X4. What [html.match] reports with the e-mail pattern is an address
    (one or more characters of the local part, an at sign, one or more
    characters of the domain, a dot, two letters or more) that occurs in the
    text; no address of the text starts before it, and none that starts
    where it starts is longer. *)
Theorem match_email_sound (html m : string) :
  match_email html = Some m -> is_address m /\ first_longest html m.
Proof.
  unfold match_email.
  destruct (first_email (list_ascii_of_string html)) as [cs|] eqn:Hfirst;
    [|done].
  intros [= <-]. apply first_email_sound in Hfirst
    as (Hshape & pre & post & Hsplit & Hleft).
  unfold is_address. rewrite list_ascii_of_string_of_list_ascii.
  split; [done|].
  exists (string_of_list_ascii pre), (string_of_list_ascii post). split.
  - rewrite <- !string_of_list_app, <- Hsplit.
    symmetry. apply string_of_list_ascii_of_string.
  - intros before' m' after' Hhtml Hm'.
    rewrite !length_string_of_list_ascii, <- !length_list_ascii.
    apply (Hleft _ _ (list_ascii_of_string after')); [|done].
    by rewrite Hhtml, !list_ascii_app.
Qed.

Lemma match_email_sound_witness :
  is_address "x@y.com" /\ first_longest "write to x@y.com, please" "x@y.com".
Proof.
  apply (match_email_sound "write to x@y.com, please" "x@y.com").
  vm_compute. reflexivity.
Defined.

(** X5. The pattern finds something exactly when the text contains an
    address. *)
Theorem match_email_complete (html : string) :
  is_Some (match_email html)
  <-> exists m, is_address m /\ contains m html.
Proof.
  split.
  - intros [m Hm]. exists m. revert Hm. unfold match_email.
    destruct (first_email (list_ascii_of_string html)) as [cs|] eqn:Hfirst;
      [|done].
    intros [= <-]. apply first_email_sound in Hfirst
      as (Hshape & pre & post & Hsplit & _).
    unfold is_address. rewrite list_ascii_of_string_of_list_ascii.
    split; [done|].
    exists (string_of_list_ascii pre), (string_of_list_ascii post).
    rewrite <- !string_of_list_app, <- Hsplit.
    symmetry. apply string_of_list_ascii_of_string.
  - intros (m & Hm & before & after & ->). unfold match_email.
    rewrite !list_ascii_app.
    destruct (first_email_complete (list_ascii_of_string before) _
                (list_ascii_of_string after) Hm) as [found ->].
    by eexists.
Qed.

(** X6. The contact fields of a synthetic lead: the phone is "+1 555 "
    followed by exactly four decimal digits, the website is
    "https://example<ordinal>.com", the address names the city and the
    country after "Main Street <ordinal>", and the category is the
    keyword. *)
Theorem mockLead_contact_fields (search : SearchData) (rnd : nat -> Q)
    (index : nat) :
  unit_samples rnd ->
  let lead := mockLead search rnd index in
  (exists digits,
      phone lead = Some ("+1 555 " +:+ digits)
      /\ four_digits digits = true)
  /\ website lead = Some ("https://example" +:+ pretty (S index) +:+ ".com")
  /\ address lead
     = Some ("Main Street " +:+ pretty (S index) +:+ ", "
             +:+ interpolate (s_city search) +:+ ", "
             +:+ interpolate (s_country search))
  /\ category lead = s_keyword search.
Proof.
  intros Hr. cbv zeta. unfold mockLead. cbn [phone website address category].
  split_and!; try done.
  eexists. split; [reflexivity|].
  destruct (Hr (3 * index)%nat). by apply padStart_four, phone_range.
Qed.

Lemma mockLead_contact_fields_witness :
  exists digits,
    phone (mockLead (sample_search 3) (fun _ => 1 # 2) 0)
    = Some ("+1 555 " +:+ digits)
    /\ four_digits digits = true.
Proof.
  assert (H : unit_samples (fun _ => 1 # 2))
    by (intros k; unfold Qle, Qlt; cbn; lia).
  exact (proj1 (mockLead_contact_fields (sample_search 3) (fun _ => 1 # 2) 0 H)).
Defined.

(** X7. Who passes [requireSuperadmin]: a verified caller whose e-mail,
    lower-cased, is the lower-cased [SUPERADMIN_EMAIL] variable, or the
    built-in address when the variable is not set; anyone else verified
    gets 403 "Forbidden".  So letter case never matters, and a caller
    without an e-mail passes exactly when the variable is set to the empty
    string. *)
Theorem requireSuperadmin_decides (configured : option string)
    (user : DecodedUser) :
  let mail := default "" (user_email user) in
  let address := default default_superadmin configured in
  (requireSuperadmin configured (Verified user) = inr user
   <-> toLowerCase mail = toLowerCase address)
  /\ (requireSuperadmin configured (Verified user) <> inr user ->
      requireSuperadmin configured (Verified user)
      = inl (sendError 403 "Forbidden"))
  /\ requireSuperadmin configured
       (Verified (mkDecodedUser (uid user) (Some (toLowerCase mail))))
     = match requireSuperadmin configured (Verified user) with
       | inl refusal => inl refusal
       | inr _ => inr (mkDecodedUser (uid user) (Some (toLowerCase mail)))
       end
  /\ (user_email user = None ->
      requireSuperadmin configured (Verified user) = inr user
      <-> configured = Some "").
Proof.
  cbv zeta.
  assert (Hiff : requireSuperadmin configured (Verified user) = inr user
                 <-> toLowerCase (default "" (user_email user))
                     = toLowerCase (default default_superadmin configured)).
  { unfold requireSuperadmin, SUPERADMIN_EMAIL. cbn [requireAuthenticatedUser].
    destruct (String.eqb_spec (toLowerCase (default "" (user_email user)))
                (toLowerCase (default default_superadmin configured)));
      cbn [negb]; split; done. }
  split_and!; [exact Hiff| | |].
  - unfold requireSuperadmin. cbn [requireAuthenticatedUser].
    by destruct (negb _).
  - unfold requireSuperadmin, SUPERADMIN_EMAIL. cbn [requireAuthenticatedUser].
    change (default "" (user_email (mkDecodedUser _ (Some ?e)))) with e.
    rewrite toLowerCase_idempotent. by destruct (negb _).
  - intros Hmail. rewrite Hiff, Hmail. cbn [default].
    change (toLowerCase "") with "". split.
    + intros Hlow. symmetry in Hlow.
      apply (proj1 (toLowerCase_empty _)) in Hlow.
      destruct configured as [c|]; [cbn in Hlow; by subst | done].
    + by intros ->.
Qed.

(** X8. A request without a usable bearer token (no header, a header that
    does not start with "Bearer ", or nothing but white space after it) is
    answered 401 "Unauthorized" by both endpoints, and one whose token the
    identity service turns down 401 "Invalid token"; neither changes
    anything. *)
Theorem unauthenticated_requests_change_nothing (env : Env) (admin : AdminEnv)
    (authorization search_id : option string) (payload : SuperadminInput)
    (w : World) :
  ((authorization = None
    \/ exists header,
         authorization = Some header
         /\ (startsWith "Bearer " header = false
             \/ blank (slice_from 7 header))) ->
   search_endpoint env admin authorization search_id w
   = (Done (sendError 401 "Unauthorized"), w)
   /\ superadmin_endpoint env admin authorization payload w
      = (Done (Plain (sendError 401 "Unauthorized")), w))
  /\ (forall token,
        parseBearerToken authorization = Some token ->
        verifyIdToken admin token = None ->
        search_endpoint env admin authorization search_id w
        = (Done (sendError 401 "Invalid token"), w)
        /\ superadmin_endpoint env admin authorization payload w
           = (Done (Plain (sendError 401 "Invalid token")), w)).
Proof.
  split.
  - intros Hheader.
    assert (Hparse : parseBearerToken authorization = None).
    { destruct Hheader as [->|(header & -> & [Hstart|Hblank])]; [done| |].
      - unfold parseBearerToken.
        change (default "" (Some header)) with header. rewrite Hstart.
        by rewrite orb_true_r.
      - unfold parseBearerToken.
        change (default "" (Some header)) with header.
        destruct (_ || _); [done|].
        apply trim_blank in Hblank.
        destruct (trim (slice_from 7 header)); [done | discriminate]. }
    unfold search_endpoint, superadmin_endpoint, authenticate.
    by rewrite Hparse.
  - intros token Hparse Hverify.
    unfold search_endpoint, superadmin_endpoint, authenticate.
    by rewrite Hparse, Hverify.
Qed.

(** X9. The order of the checks of the superadmin endpoint, for the
    superadmin: a missing action is answered 400 "action is required"; any
    action but [list_users] without a [user_id] that is a non-empty string
    400 "Valid user_id is required", known action or not; an action of no
    known name with a [user_id] 400 "Unknown action".  Nothing changes in
    any of these cases. *)
Theorem superadmin_validation_order (env : Env) (admin : AdminEnv)
    (authorization : option string) (requester : DecodedUser)
    (payload : SuperadminInput) (w : World) :
  as_superadmin admin authorization requester ->
  let run := superadmin_endpoint env admin authorization payload w in
  (truthy (input_action payload) = false ->
   run = (Done (Plain (sendError 400 "action is required")), w))
  /\ (forall action,
        input_action payload = Some action ->
        action <> "" ->
        action <> "list_users" ->
        truthy (input_user_id payload) = false ->
        run = (Done (Plain (sendError 400 "Valid user_id is required")), w))
  /\ (forall action userId,
        input_action payload = Some action ->
        action <> "" ->
        action ∉ ["list_users"; "set_plan"; "suspend_user"; "restore_user";
                  "delete_user"] ->
        input_user_id payload = Some userId ->
        userId <> "" ->
        run = (Done (Plain (sendError 400 "Unknown action")), w)).
Proof.
  intros Hgate. cbv zeta. unfold superadmin_endpoint.
  unfold as_superadmin in Hgate. rewrite Hgate. split_and!.
  - by intros ->.
  - intros action Haction Hne Hlist Huser.
    rewrite Haction, truthy_Some by done. cbn [negb].
    unfold try_catch, superadmin_actions. rewrite Haction.
    change (default "" (Some action)) with action.
    rewrite (proj2 (String.eqb_neq _ _) Hlist), Huser. done.
  - intros action userId Haction Hne Hunknown Huser Hid.
    rewrite Haction, truthy_Some by done. cbn [negb].
    unfold try_catch, superadmin_actions. rewrite Haction, Huser.
    change (default "" (Some action)) with action.
    rewrite truthy_Some by done. cbn [negb].
    rewrite !(proj2 (String.eqb_neq action _)); [done| | | | |];
      intros ->; apply Hunknown;
      among.
Qed.

Lemma superadmin_validation_order_witness :
  superadmin_endpoint demo_env sample_admin root_header
    (mkSuperadminInput (Some "promote_user") None None None None)
    (sample_world (sample_search 5) (sample_profile starter 7 2000 false))
  = (Done (Plain (sendError 400 "Valid user_id is required")),
     sample_world (sample_search 5) (sample_profile starter 7 2000 false)).
Proof.
  refine (proj1 (proj2
            (superadmin_validation_order demo_env sample_admin root_header
               root
               (mkSuperadminInput (Some "promote_user") None None None
                  None)
               (sample_world (sample_search 5)
                  (sample_profile starter 7 2000 false)) _))
            "promote_user" _ _ _ _).
  - vm_compute. reflexivity.
  - reflexivity.
  - discriminate.
  - discriminate.
  - reflexivity.
Defined.

(** X10. A plain answer of the superadmin endpoint has status 200, 400,
    401, 403 or 500, and unless it is 200 or 500 nothing at all has
    changed: every refusal comes before the first effect. *)
Theorem superadmin_refusals_change_nothing (env : Env) (admin : AdminEnv)
    (authorization : option string) (payload : SuperadminInput) (w : World)
    (r : Response) (w' : World) :
  superadmin_endpoint env admin authorization payload w = (Done (Plain r), w') ->
  status_code r ∈ [200; 400; 401; 403; 500]
  /\ (status_code r <> 200 -> status_code r <> 500 -> w' = w).
Proof.
  unfold superadmin_endpoint.
  destruct (requireSuperadmin _ _) as [refusal|requester] eqn:Hgate.
  { intros [= <- <-]. split; [|done].
    apply requireSuperadmin_refusal in Hgate as [-> | ->];
      among. }
  destruct (truthy (input_action payload)); cbn [negb].
  2:{ intros [= <- <-]. split; [|done]. cbn.
      among. }
  unfold try_catch.
  destruct (superadmin_actions env admin requester payload w)
    as [[a|m|] w1] eqn:Hbody.
  - intros [= -> <-].
    apply superadmin_actions_ends in Hbody as [-> | [Hcode ->]].
    + split; [|done]. cbn.
      among.
    + split; [|done]. rewrite Hcode.
      among.
  - intros [= <- <-]. split; [|done]. cbn.
    among.
  - done.
Qed.

Lemma superadmin_refusals_change_nothing_witness :
  status_code (sendError 401 "Unauthorized") ∈ [200; 400; 401; 403; 500].
Proof.
  exact (proj1 (superadmin_refusals_change_nothing demo_env sample_admin None
                  (mkSuperadminInput (Some "delete_user") (Some "u1")
                     None None None)
                  (sample_world (sample_search 5)
                     (sample_profile starter 7 2000 false))
                  (sendError 401 "Unauthorized") _ eq_refl)).
Defined.

(** X11. Whatever it is asked, whoever asks and whatever fails on the way,
    a request to the superadmin endpoint that names an account, by an id
    that is a document's name, leaves every other account alone: the leads
    and searches others own, and the profiles, subscriptions and identities
    under another id, are afterwards what they were. *)
Theorem superadmin_touches_only_target (env : Env) (admin : AdminEnv)
    (authorization action : option string) (userId : string)
    (plan : option string) (query : option string) (limit : option number)
    (w : World) :
  document_id userId ->
  spared userId w
    (superadmin_endpoint env admin authorization
       (mkSuperadminInput action (Some userId) plan query limit) w).2.
Proof.
  intros _. revert w. change (sparing userId
                      (superadmin_endpoint env admin authorization
                         (mkSuperadminInput action (Some userId) plan query
                            limit))).
  unfold superadmin_endpoint. destruct (requireSuperadmin _ _);
    [apply sparing_ret|].
  destruct (negb _); [apply sparing_ret|].
  apply sparing_try_catch; [|intros m; apply sparing_ret].
  unfold superadmin_actions. cbn [input_action input_user_id input_plan
                                    input_query input_limit].
  destruct (String.eqb _ "list_users").
  { apply sparing_bind; [apply sparing_list_users | intros ?; apply sparing_ret]. }
  destruct (negb _); [apply sparing_ret|].
  assert (Hplain : forall c : M Response,
            sparing userId c -> sparing userId (plainly c)).
  { intros c Hc. apply sparing_bind; [done | intros ?; apply sparing_ret]. }
  change (default "" (Some userId)) with userId.
  repeat (destruct (String.eqb _ _);
          [apply Hplain;
           first [apply sparing_set_plan | apply sparing_lifecycle]|]).
  apply sparing_ret.
Qed.

Lemma superadmin_touches_only_target_witness :
  let w := two_accounts in
  let run :=
    superadmin_endpoint demo_env sample_admin root_header
      (mkSuperadminInput (Some "delete_user") (Some "u1") None None None) w in
  spared "u1" w run.2
  /\ profiles (db run.2) !! "u1" = None
  /\ profiles (db run.2) !! "u2" = profiles (db w) !! "u2"
  /\ searches (db run.2) !! "s2" = searches (db w) !! "s2".
Proof.
  cbv zeta. split; [|by vm_compute].
  apply (superadmin_touches_only_target demo_env sample_admin root_header
           (Some "delete_user") "u1" None None None two_accounts).
  reflexivity.
Defined.

(** X12. For the superadmin, with the store and the identity service at
    hand, [suspend_user] on another account and [restore_user] on any
    account answer success, set the profile's standing (suspended since
    now, or not suspended since nothing) without touching its other fields,
    set the identity's [disabled] flag likewise, and write nothing else. *)
Theorem standing_change_effect (env : Env) (admin : AdminEnv)
    (authorization : option string) (requester : DecodedUser)
    (suspended : bool) (userId : string) (plan : option string)
    (query : option string) (limit : option number) (w : World) :
  as_superadmin admin authorization requester ->
  store_available env ->
  userId <> "" ->
  (suspended = true -> userId <> uid requester) ->
  is_Some (identities w !! userId) ->
  let run :=
    superadmin_endpoint env admin authorization
      (mkSuperadminInput (Some (standing_action suspended)) (Some userId) plan
         query limit) w in
  let now := clock_reading env (clock w) in
  run.1 = Done (Plain (res_json SuccessBody))
  /\ (exists profile',
        profiles (db run.2) = <[userId := profile']> (profiles (db w))
        /\ standing_set suspended (if suspended then Some now else None)
             (profile_of (db w) userId) profile')
  /\ identities run.2 = <[userId := suspended]> (identities w)
  /\ searches (db run.2) = searches (db w)
  /\ leads (db run.2) = leads (db w)
  /\ subscriptions (db run.2) = subscriptions (db w)
  /\ exists patch,
       journal run.2
       = journal w ++ [Committed [MergeProfile userId patch];
                       IdentityUpdated userId suspended].
Proof.
  intros Hgate Ha Hid Hself [d Hd]. cbv zeta.
  rewrite (standing_endpoint env admin authorization requester) by done.
  cbv zeta. rewrite Hd. world_fields. cbn [fst snd]. world_fields.
  unfold apply_batch. cbn [foldl apply_op profiles searches leads subscriptions].
  split_and!; try done.
  - eexists. split; [reflexivity|]. apply standing_patch_set.
  - eexists. by rewrite <- (assoc_L (++)).
Qed.

Lemma standing_change_effect_witness :
  identities
    (superadmin_endpoint demo_env sample_admin root_header
       (mkSuperadminInput (Some "suspend_user") (Some "u1") None None
          None)
       (sample_world (sample_search 5) (sample_profile starter 7 2000 false))).2
  = <[ "u1" := true ]> {[ "u1" := false ]}.
Proof.
  refine (proj1 (proj2 (proj2
            (standing_change_effect demo_env sample_admin root_header root
               true "u1" None None None
               (sample_world (sample_search 5)
                  (sample_profile starter 7 2000 false)) _ _ _ _ _)))).
  - vm_compute. reflexivity.
  - intros k. reflexivity.
  - discriminate.
  - intros _. discriminate.
  - eexists. vm_compute. reflexivity.
Defined.

(** X13. For an id that is a document's name and can be a uid: when the
    identity service holds no account of that id, the profile is written
    all the same (created, if the store had none) and the answer is 500
    with the service's message; the identities are as before. *)
Theorem standing_change_without_identity (env : Env) (admin : AdminEnv)
    (authorization : option string) (requester : DecodedUser)
    (suspended : bool) (userId : string) (plan : option string)
    (query : option string) (limit : option number) (w : World) :
  as_superadmin admin authorization requester ->
  store_available env ->
  userId <> "" ->
  account_id userId ->
  (suspended = true -> userId <> uid requester) ->
  identities w !! userId = None ->
  let run :=
    superadmin_endpoint env admin authorization
      (mkSuperadminInput (Some (standing_action suspended)) (Some userId) plan
         query limit) w in
  let now := clock_reading env (clock w) in
  run.1 = Done (Plain (sendError 500 no_user_record))
  /\ (exists profile',
        profiles (db run.2) !! userId = Some profile'
        /\ standing_set suspended (if suspended then Some now else None)
             (profile_of (db w) userId) profile')
  /\ identities run.2 = identities w.
Proof.
  intros Hgate Ha Hid _ Hself Hnone. cbv zeta.
  rewrite (standing_endpoint env admin authorization requester) by done.
  cbv zeta. rewrite Hnone. cbn [fst snd]. world_fields.
  unfold apply_batch. cbn [foldl apply_op profiles].
  split_and!; try done.
  eexists. rewrite lookup_insert_eq. split; [reflexivity|].
  apply standing_patch_set.
Qed.

Lemma standing_change_without_identity_witness :
  (superadmin_endpoint demo_env sample_admin root_header
     (mkSuperadminInput (Some "restore_user") (Some "u9") None None
        None)
     (sample_world (sample_search 5) (sample_profile starter 7 2000 false))).1
  = Done (Plain (sendError 500 no_user_record)).
Proof.
  refine (proj1
            (standing_change_without_identity demo_env sample_admin
               root_header root false "u9" None None None
               (sample_world (sample_search 5)
                  (sample_profile starter 7 2000 false)) _ _ _ _ _ _)).
  - vm_compute. reflexivity.
  - intros k. reflexivity.
  - discriminate.
  - split; [reflexivity | cbn; lia].
  - discriminate.
  - vm_compute. reflexivity.
Defined.

(** X14. [restore_user] after [suspend_user]: both answer success, and
    afterwards the profile is the one before the suspension with its
    standing "not suspended, since nothing" (and a new [updated_at]), the
    identity is enabled, and the other collections are as before. *)
Theorem restore_undoes_suspend (env : Env) (admin : AdminEnv)
    (authorization : option string) (requester : DecodedUser)
    (userId : string) (plan : option string) (query : option string)
    (limit : option number) (w : World) :
  as_superadmin admin authorization requester ->
  store_available env ->
  userId <> "" ->
  userId <> uid requester ->
  is_Some (identities w !! userId) ->
  let suspension :=
    superadmin_endpoint env admin authorization
      (mkSuperadminInput (Some "suspend_user") (Some userId) plan query limit)
      w in
  let run :=
    superadmin_endpoint env admin authorization
      (mkSuperadminInput (Some "restore_user") (Some userId) plan query limit)
      suspension.2 in
  suspension.1 = Done (Plain (res_json SuccessBody))
  /\ run.1 = Done (Plain (res_json SuccessBody))
  /\ (exists profile',
        profiles (db run.2) = <[userId := profile']> (profiles (db w))
        /\ standing_set false None (profile_of (db w) userId) profile')
  /\ identities run.2 = <[userId := false]> (identities w)
  /\ searches (db run.2) = searches (db w)
  /\ leads (db run.2) = leads (db w)
  /\ subscriptions (db run.2) = subscriptions (db w).
Proof.
  intros Hgate Ha Hid Hself [d Hd]. cbv zeta.
  change "suspend_user" with (standing_action true).
  change "restore_user" with (standing_action false).
  rewrite (standing_endpoint env admin authorization requester _ _ _ _ _ w)
    by done.
  cbv zeta. rewrite Hd. cbn [fst snd].
  rewrite (standing_endpoint env admin authorization requester) by done.
  cbv zeta. world_fields. rewrite lookup_insert_eq. cbn [fst snd]. world_fields.
  unfold apply_batch.
  cbn [foldl apply_op profiles searches leads subscriptions].
  rewrite lookup_insert_eq, !insert_insert_eq.
  split_and!; try done.
  eexists. split; [reflexivity|]. done.
Qed.

Lemma restore_undoes_suspend_witness :
  identities
    (superadmin_endpoint demo_env sample_admin root_header
       (mkSuperadminInput (Some "restore_user") (Some "u1") None None
          None)
       (superadmin_endpoint demo_env sample_admin root_header
          (mkSuperadminInput (Some "suspend_user") (Some "u1") None
             None None)
          (sample_world (sample_search 5)
             (sample_profile starter 7 2000 false))).2).2
  = <[ "u1" := false ]> {[ "u1" := false ]}.
Proof.
  refine (proj1 (proj2 (proj2 (proj2
            (restore_undoes_suspend demo_env sample_admin root_header root
               "u1" None None None
               (sample_world (sample_search 5)
                  (sample_profile starter 7 2000 false)) _ _ _ _ _))))).
  - vm_compute. reflexivity.
  - intros k. reflexivity.
  - discriminate.
  - discriminate.
  - eexists. vm_compute. reflexivity.
Defined.

(** X15. Suspension and the search handler: once [suspend_user] went
    through, a search request of the suspended account, on a search it
    owns, is turned down with 403 "Account suspended" and marks that search
    failed, whatever the profile held before. *)
Theorem suspended_account_cannot_search (env : Env) (admin : AdminEnv)
    (authorization : option string) (requester user : DecodedUser)
    (plan : option string) (query : option string) (limit : option number)
    (searchId : string) (search : SearchData) (w : World) :
  as_superadmin admin authorization requester ->
  store_available env ->
  uid user <> "" ->
  uid user <> uid requester ->
  is_Some (identities w !! uid user) ->
  searchId <> "" ->
  searches (db w) !! searchId = Some search ->
  s_user_id search = Some (uid user) ->
  let suspension :=
    superadmin_endpoint env admin authorization
      (mkSuperadminInput (Some "suspend_user") (Some (uid user)) plan query
         limit) w in
  suspension.1 = Done (Plain (res_json SuccessBody))
  /\ rejected env searchId suspension.2
       (run_apify_search env (Verified user) (Some searchId) suspension.2)
       403 "Account suspended".
Proof.
  intros Hgate Ha Hid Hself [d Hd] Hsid Hsearch Hown. cbv zeta.
  change "suspend_user" with (standing_action true).
  rewrite (standing_endpoint env admin authorization requester) by done.
  cbv zeta. rewrite Hd. cbn [fst snd]. split; [done|].
  match goal with
  | |- rejected _ _ ?w1 _ _ _ =>
      pose proof (guard_verdict env user searchId w1 search
                    (merge_profile
                       (standing_patch true (clock_reading env (clock w))
                          (clock_reading env (S (clock w))))
                       (profile_of (db w) (uid user)))) as Hverdict
  end.
  cbv zeta in Hverdict. apply Hverdict; try done.
  - world_fields. unfold apply_batch. cbn [foldl apply_op profiles].
    apply lookup_insert_eq.
  - by apply available_serves.
Qed.

Lemma suspended_account_cannot_search_witness :
  let suspension :=
    superadmin_endpoint demo_env sample_admin root_header
      (mkSuperadminInput (Some "suspend_user") (Some "u1") None None
         None)
      (sample_world (sample_search 5) (sample_profile starter 7 2000 false)) in
  rejected demo_env "s1" suspension.2
    (run_apify_search demo_env (Verified alice) (Some "s1") suspension.2)
    403 "Account suspended".
Proof.
  refine (proj2
            (suspended_account_cannot_search demo_env sample_admin root_header
               root alice None None None "s1" (sample_search 5)
               (sample_world (sample_search 5)
                  (sample_profile starter 7 2000 false)) _ _ _ _ _ _ _ _)).
  - vm_compute. reflexivity.
  - intros k. reflexivity.
  - discriminate.
  - discriminate.
  - eexists. vm_compute. reflexivity.
  - discriminate.
  - vm_compute. reflexivity.
  - reflexivity.
Defined.

(** X16. [delete_user] on an account the identity service does not know,
    named by an id that is a document's name and can be a uid: with the
    store at hand, the account's leads, searches, subscription and profile
    are deleted all the same, and then the answer is 500 with the service's
    message. *)
Theorem delete_user_without_identity (env : Env) (admin : AdminEnv)
    (authorization : option string) (requester : DecodedUser)
    (userId : string) (plan : option string) (query : option string)
    (limit : option number) (w : World) :
  as_superadmin admin authorization requester ->
  store_available env ->
  userId <> "" ->
  account_id userId ->
  userId <> uid requester ->
  identities w !! userId = None ->
  let run :=
    superadmin_endpoint env admin authorization
      (mkSuperadminInput (Some "delete_user") (Some userId) plan query limit)
      w in
  run.1 = Done (Plain (sendError 500 no_user_record))
  /\ db run.2
     = mkStore (delete userId (profiles (db w)))
         (others s_user_id userId (searches (db w)))
         (others l_user_id userId (leads (db w)))
         (delete userId (subscriptions (db w)))
  /\ identities run.2 = identities w.
Proof.
  intros Hgate Ha Hid _ Hself Hnone. cbv zeta.
  rewrite (superadmin_endpoint_run env admin authorization requester) by done.
  unfold try_catch. rewrite delete_dispatch by done. rewrite plainly_run.
  destruct (deleteByUserId_run env Ha Leads userId w)
    as (w1 & lb & Hrun1 & Hi1 & Hj1 & Hs1 & Hdb1).
  destruct (deleteByUserId_run env Ha Searches userId w1)
    as (w2 & sb & Hrun2 & Hi2 & Hj2 & Hs2 & Hdb2).
  cbn [lifecycle_action]. rewrite bool_decide_eq_false_2 by done.
  rewrite (bind_done _ _ _ _ _ Hrun1), (bind_done _ _ _ _ _ Hrun2).
  rewrite (bind_done _ _ _ _ _ (swallow_done _ _ _ (commit_run env _ w2 Ha))).
  rewrite (bind_done _ _ _ _ _ (swallow_done _ _ _ (commit_run env _ _ Ha))).
  match goal with
  | |- context [bind (deleteUser env userId) _ ?w3] =>
      assert (Hid3 : identities w3 !! userId = None)
        by (cbn [identities]; by rewrite Hi2, Hi1);
      rewrite (bind_thrown _ _ w3 _ _ (deleteUser_missing env userId w3 Ha Hid3))
  end.
  cbn [fst snd ret]. world_fields.
  split_and!; [done| |by rewrite Hi2, Hi1].
  rewrite Hdb2, Hdb1. reflexivity.
Qed.

Lemma delete_user_without_identity_witness :
  (superadmin_endpoint demo_env sample_admin root_header
     (mkSuperadminInput (Some "delete_user") (Some "u9") None None None)
     (sample_world (sample_search 5) (sample_profile starter 7 2000 false))).1
  = Done (Plain (sendError 500 no_user_record)).
Proof.
  refine (proj1
            (delete_user_without_identity demo_env sample_admin root_header
               root "u9" None None None
               (sample_world (sample_search 5)
                  (sample_profile starter 7 2000 false)) _ _ _ _ _ _)).
  - vm_compute. reflexivity.
  - intros k. reflexivity.
  - discriminate.
  - split; [reflexivity | cbn; lia].
  - discriminate.
  - vm_compute. reflexivity.
Defined.

(** X17. For the superadmin, with the store at hand and an account named by
    an id that is a document's name, [set_plan] with one of the three plans
    answers success and merges the plan and its limit into the profile,
    whose usage, standing, e-mail and name stay; the subscription of the
    account becomes active on that plan, its [created_at] and [updated_at]
    both set to now even when it existed; searches, leads and identities
    are as before.  The answer is 400 "Valid plan is required" exactly when
    the request has no plan, or one that is no property name of
    [PLAN_LIMITS], and then nothing changes; a name that object only
    inherits, as "toString", passes the test. *)
Theorem set_plan_effect (env : Env) (admin : AdminEnv)
    (authorization : option string) (requester : DecodedUser)
    (userId : string) (plan : PlanType) (query : option string)
    (limit : option number) (w : World) :
  as_superadmin admin authorization requester ->
  store_available env ->
  userId <> "" ->
  document_id userId ->
  let ask given :=
    superadmin_endpoint env admin authorization
      (mkSuperadminInput (Some "set_plan") (Some userId) given query limit)
      w in
  let run := ask (Some (plan_name plan)) in
  let now := clock_reading env (clock w) in
  (run.1 = Done (Plain (res_json SuccessBody))
   /\ (exists profile',
         profiles (db run.2) = <[userId := profile']> (profiles (db w))
         /\ plan_set plan (profile_of (db w) userId) profile')
   /\ (exists sub,
         subscriptions (db run.2) = <[userId := sub]> (subscriptions (db w))
         /\ sub_user_id sub = Some userId
         /\ sub_plan sub = Some plan
         /\ sub_status sub = Some "active"
         /\ sub_created_at sub = Some now
         /\ sub_updated_at sub = Some now)
   /\ searches (db run.2) = searches (db w)
   /\ leads (db run.2) = leads (db w)
   /\ identities run.2 = identities w)
  /\ (forall given,
        ((ask given).1 = Done (Plain (sendError 400 "Valid plan is required"))
         <-> forall name, given = Some name -> name ∉ property_names)
        /\ ((ask given).1
            = Done (Plain (sendError 400 "Valid plan is required")) ->
            (ask given).2 = w))
  /\ "toString" ∈ property_names.
Proof.
  intros Hgate Ha Hid _. cbv zeta.
  assert (Hask : forall given,
            superadmin_endpoint env admin authorization
              (mkSuperadminInput (Some "set_plan") (Some userId) given query
                 limit) w
            = match set_plan env admin userId given w with
              | (Done r, w') => (Done (Plain r), w')
              | (Thrown m, w') => (Done (Plain (sendError 500 m)), w')
              | (Unfinished, w') => (Unfinished, w')
              end).
  { intros given.
    rewrite (superadmin_endpoint_run env admin authorization requester)
      by done.
    unfold try_catch. rewrite set_plan_dispatch by done. rewrite plainly_run.
    by destruct (set_plan env admin userId given w) as [[| |] ?]. }
  split; [|split].
  - rewrite Hask, set_plan_run. cbv zeta. rewrite !Ha. cbn [fst snd].
    world_fields. unfold apply_batch.
    cbn [foldl apply_op profiles searches leads subscriptions].
    split_and!; try done.
    + eexists. split; [reflexivity|]. apply plan_patch_set.
    + eexists. split; [reflexivity|]. by split_and!.
  - intros given. rewrite Hask.
    destruct (set_plan_test env admin userId given w Ha)
      as [[Hout ->]|((name & -> & Hin) & Hnot)].
    + cbn [fst snd]. by split.
    + destruct (set_plan env admin userId (Some name) w) as [[r| |] w'];
        cbn [fst snd] in *.
      * split; [split|].
        -- intros [= ->]. done.
        -- intros Hout. by destruct (Hout name eq_refl).
        -- intros [= ->]. done.
      * split; [split|]; try discriminate.
        intros Hout. by destruct (Hout name eq_refl).
      * split; [split|]; try discriminate.
        intros Hout. by destruct (Hout name eq_refl).
  - unfold property_names, inherited_names. cbn [fmap list_fmap app]. among.
Qed.

Lemma set_plan_effect_witness :
  (superadmin_endpoint demo_env sample_admin root_header
     (mkSuperadminInput (Some "set_plan") (Some "u1") (Some "pro") None
        None)
     (sample_world (sample_search 5) (sample_profile starter 7 2000 false))).1
  = Done (Plain (res_json SuccessBody)).
Proof.
  refine (proj1 (proj1
            (set_plan_effect demo_env sample_admin root_header root "u1" pro
               None None
               (sample_world (sample_search 5)
                  (sample_profile starter 7 2000 false)) _ _ _ _))).
  - vm_compute. reflexivity.
  - intros k. reflexivity.
  - discriminate.
  - reflexivity.
Defined.

(** X18. The two writes of [set_plan] are two commits: when the store
    serves the first and fails the second, the answer is 500 with the
    store's message, the profile has the new plan and limit, and the
    subscription is as it was. *)
Theorem set_plan_stops_half_way (env : Env) (admin : AdminEnv)
    (authorization : option string) (requester : DecodedUser)
    (userId : string) (plan : PlanType) (query : option string)
    (limit : option number) (w : World) (m : string) :
  as_superadmin admin authorization requester ->
  userId <> "" ->
  store_fault env (calls w) = None ->
  store_fault env (S (calls w)) = Some m ->
  let run :=
    superadmin_endpoint env admin authorization
      (mkSuperadminInput (Some "set_plan") (Some userId) (Some (plan_name plan))
         query limit) w in
  run.1 = Done (Plain (sendError 500 m))
  /\ (exists profile',
        profiles (db run.2) = <[userId := profile']> (profiles (db w))
        /\ plan_set plan (profile_of (db w) userId) profile')
  /\ subscriptions (db run.2) = subscriptions (db w).
Proof.
  intros Hgate Hid H0 H1. cbv zeta.
  rewrite (superadmin_endpoint_run env admin authorization requester) by done.
  unfold try_catch. rewrite set_plan_dispatch by done.
  rewrite plainly_run, set_plan_run. cbv zeta. rewrite H0, H1.
  cbn [fst snd ret]. world_fields. unfold apply_batch.
  cbn [foldl apply_op profiles subscriptions].
  split_and!; try done.
  eexists. split; [reflexivity|]. apply plan_patch_set.
Qed.

Lemma set_plan_stops_half_way_witness :
  subscriptions
    (db (superadmin_endpoint (faulty_env [1%nat]) sample_admin root_header
           (mkSuperadminInput (Some "set_plan") (Some "u1") (Some "pro")
              None None)
           (sample_world (sample_search 5)
              (sample_profile starter 7 2000 false))).2)
  = ∅.
Proof.
  refine (proj2 (proj2
            (set_plan_stops_half_way (faulty_env [1%nat]) sample_admin
               root_header root "u1" pro None None
               (sample_world (sample_search 5)
                  (sample_profile starter 7 2000 false)) "unavailable"
               _ _ _ _))).
  - vm_compute. reflexivity.
  - discriminate.
  - reflexivity.
  - reflexivity.
Defined.

(** X19. The plan and the quota: after a [set_plan] that went through, a
    search request of that account (not suspended), on a search it owns,
    is turned down with 429 when the usage stored before has reached the
    new plan's limit, and goes on otherwise. *)
Theorem plan_change_moves_quota (env : Env) (admin : AdminEnv)
    (authorization : option string) (requester user : DecodedUser)
    (plan : PlanType) (query : option string) (limit : option number)
    (searchId : string) (search : SearchData) (w : World) :
  as_superadmin admin authorization requester ->
  store_available env ->
  uid user <> "" ->
  searchId <> "" ->
  searches (db w) !! searchId = Some search ->
  s_user_id search = Some (uid user) ->
  default false (p_is_suspended (profile_of (db w) (uid user))) = false ->
  let used := default 0 (p_leads_used (profile_of (db w) (uid user))) in
  let changed :=
    (superadmin_endpoint env admin authorization
       (mkSuperadminInput (Some "set_plan") (Some (uid user)) (Some (plan_name plan))
          query limit) w).2 in
  let run := run_apify_search env (Verified user) (Some searchId) changed in
  (PLAN_LIMITS plan <= used ->
   rejected env searchId changed run 429 "Leads quota exceeded")
  /\ (used < PLAN_LIMITS plan -> proceeded env searchId changed run).
Proof.
  intros Hgate Ha Hid Hsid Hsearch Hown Hsus. cbv zeta.
  rewrite (superadmin_endpoint_run env admin authorization requester) by done.
  unfold try_catch. rewrite set_plan_dispatch by done.
  rewrite plainly_run, set_plan_run. cbv zeta. rewrite !Ha. cbn [snd].
  match goal with
  | |- context [run_apify_search _ _ _ ?w1] =>
      pose proof (guard_verdict env user searchId w1 search
                    (merge_profile
                       (plan_patch plan (clock_reading env (clock w)))
                       (profile_of (db w) (uid user)))) as Hverdict;
      set (changed := w1) in *
  end.
  cbv zeta in Hverdict.
  assert (Hrun : match guard (merge_profile
                                (plan_patch plan (clock_reading env (clock w)))
                                (profile_of (db w) (uid user))) with
                 | Proceed =>
                     proceeded env searchId changed
                       (run_apify_search env (Verified user) (Some searchId)
                          changed)
                 | Reject status message =>
                     rejected env searchId changed
                       (run_apify_search env (Verified user) (Some searchId)
                          changed) status message
                 end).
  { apply Hverdict; try done.
    - subst changed. world_fields. unfold apply_batch.
      cbn [foldl apply_op profiles searches].
      apply lookup_insert_eq.
    - by apply available_serves. }
  clear Hverdict. unfold guard in Hrun.
  change (p_is_suspended (merge_profile _ ?p)) with (p_is_suspended p) in Hrun.
  rewrite Hsus in Hrun.
  change (default 0 (p_leads_used (merge_profile _ ?p)))
    with (default 0 (p_leads_used p)) in Hrun.
  change (default 2000 (p_leads_limit (merge_profile (plan_patch plan _) _)))
    with (PLAN_LIMITS plan) in Hrun.
  rewrite Z.geb_leb in Hrun.
  split; intros Hquota.
  - by rewrite (proj2 (Z.leb_le _ _) Hquota) in Hrun.
  - by rewrite (proj2 (Z.leb_gt _ _) Hquota) in Hrun.
Qed.

Lemma plan_change_moves_quota_witness :
  let changed :=
    (superadmin_endpoint demo_env sample_admin root_header
       (mkSuperadminInput (Some "set_plan") (Some "u1") (Some "starter")
          None None)
       (sample_world (sample_search 5) (sample_profile pro 3000 15000 false))).2
  in
  rejected demo_env "s1" changed
    (run_apify_search demo_env (Verified alice) (Some "s1") changed)
    429 "Leads quota exceeded".
Proof.
  refine (proj1
            (plan_change_moves_quota demo_env sample_admin root_header root
               alice starter None None "s1" (sample_search 5)
               (sample_world (sample_search 5)
                  (sample_profile pro 3000 15000 false)) _ _ _ _ _ _ _) _).
  - vm_compute. reflexivity.
  - intros k. reflexivity.
  - discriminate.
  - discriminate.
  - vm_compute. reflexivity.
  - reflexivity.
  - vm_compute. reflexivity.
  - vm_compute. discriminate.
Defined.

(** X20. For the superadmin, when the client library takes the limit and
    the store answers, [list_users] answers with rows of the documents the
    query returned, in the query's order: a row shows the document's fields
    or their defaults; the rows kept are those whose lower-cased e-mail or
    name contains the trimmed, lower-cased query, and all of them when that
    text is empty.  No [user_id] is needed. *)
Theorem list_users_answer (env : Env) (admin : AdminEnv)
    (authorization : option string) (requester : DecodedUser)
    (user_id : option string) (plan : option string) (query : option string)
    (limit : option number) (w : World) :
  as_superadmin admin authorization requester ->
  limit_refused admin (limit_value limit) = None ->
  store_fault env (calls w) = None ->
  let run :=
    superadmin_endpoint env admin authorization
      (mkSuperadminInput (Some "list_users") user_id plan query limit) w in
  let queryText := toLowerCase (trim (default "" query)) in
  exists rows users,
    Forall2 (listed env) (newest_profiles admin (limit_value limit) (db w)) rows
    /\ run.1 = Done (UserList users)
    /\ sublist users rows
    /\ (forall row, row ∈ users <-> row ∈ rows /\ selected queryText row)
    /\ (queryText = "" -> users = rows).
Proof.
  intros Hgate Hlimit Hstore. cbv zeta.
  rewrite (superadmin_endpoint_run env admin authorization requester) by done.
  unfold try_catch. rewrite list_users_dispatch. unfold bind.
  destruct (list_users_run env admin limit query w) as [_ Hrun].
  rewrite Hlimit, Hstore in Hrun. destruct Hrun as (rows & Hrows & Hrun).
  destruct (list_users env admin limit query w) as [r w1].
  cbn [fst] in Hrun. subst r. cbn [ret fst].
  eexists rows, _. split_and!; [done|reflexivity|apply filter_sublist| |].
  - intros row. rewrite !list_elem_of_In, filter_In.
    by rewrite matches_query_selected.
  - intros ->. clear. induction rows as [|row rows IH]; [done|].
    cbn. by rewrite IH.
Qed.

Lemma list_users_answer_witness :
  exists rows users,
    Forall2 (listed demo_env) sample_listing rows
    /\ (superadmin_endpoint demo_env listing_admin root_header
          (mkSuperadminInput (Some "list_users") None None (Some " Alice ")
             (Some (Finite 5000)))
          (sample_world (sample_search 5)
             (sample_profile starter 7 2000 false))).1
       = Done (UserList users)
    /\ (forall row, row ∈ users <-> row ∈ rows /\ selected "alice" row)
    /\ row_id <$> rows = ["u1"; "u2"; "u3"]
    /\ row_plan <$> rows = [growth; starter; starter]
    /\ row_leads_limit <$> rows = [5000; 2000; 2000]
    /\ row_id <$> users = ["u1"; "u3"].
Proof.
  destruct (list_users_answer demo_env listing_admin root_header root None
              None (Some " Alice ") (Some (Finite 5000))
              (sample_world (sample_search 5)
                 (sample_profile starter 7 2000 false)))
    as (rows & users & Hrows & Hrun & _ & Hsel & _).
  - vm_compute. reflexivity.
  - reflexivity.
  - reflexivity.
  - destruct (listed_columns demo_env sample_listing rows Hrows)
      as (Hids & Hplans & Hlimits).
    exists rows, users.
    split_and!; [exact Hrows|exact Hrun|exact Hsel|exact Hids|exact Hplans
                |exact Hlimits|].
    clear -Hrun. vm_compute in Hrun. injection Hrun as <-. reflexivity.
Defined.

(** X21. [list_users] only reads: whoever asks and whatever the store and
    the client library do, the store, the identities and the journal of
    writes are afterwards what they were, and the request ends. *)
Theorem list_users_reads_only (env : Env) (admin : AdminEnv)
    (authorization : option string) (user_id : option string)
    (plan : option string) (query : option string) (limit : option number)
    (w : World) :
  let run :=
    superadmin_endpoint env admin authorization
      (mkSuperadminInput (Some "list_users") user_id plan query limit) w in
  quiet w run.2 /\ exists answer, run.1 = Done answer.
Proof.
  cbv zeta. unfold superadmin_endpoint.
  destruct (requireSuperadmin _ _) as [refusal|requester].
  { split; [done | by eexists]. }
  cbn [input_action truthy String.eqb negb]. unfold try_catch.
  rewrite list_users_dispatch. unfold bind.
  destruct (list_users_run env admin limit query w) as [Hquiet Hrun].
  destruct (list_users env admin limit query w) as [[users|m|] w1];
    cbn [fst snd ret] in *; try (split; [done | by eexists]).
  exfalso.
  destruct (limit_refused admin (limit_value limit)); [done|].
  destruct (store_fault env (calls w)); [done|].
  by destruct Hrun as (rows & _ & ?).
Qed.

(** X22. The limit handed to the query of [list_users]: 200 when the request
    gives none, the request's own when it lies between 1 and 1000, and in
    every case a number between 1 and 1000 (1 for minus infinity, 1000 for
    infinity), except that NaN stays NaN. *)
Theorem limit_value_range (limit : option number) :
  (limit <> Some NaN ->
   exists q, limit_value limit = Finite q /\ (1 <= q)%Q /\ (q <= 1000)%Q)
  /\ limit_value None = Finite 200
  /\ (forall q, (1 <= q)%Q -> (q <= 1000)%Q ->
                exists q', limit_value (Some (Finite q)) = Finite q'
                           /\ (q' == q)%Q)
  /\ limit_value (Some NaN) = NaN.
Proof.
  split_and!; [|done| |done].
  - intros Hnan. destruct limit as [[q| |[]]|]; try done.
    + rewrite limit_value_finite.
      destruct (Qle_bool q 1) eqn:H1.
      { eexists. split; [reflexivity|]. split; [apply Qle_refl | done]. }
      destruct (Qle_bool q 1000) eqn:H2.
      * exists q. split; [done|]. apply Qle_bool_iff in H2.
        split; [|done]. apply Qnot_lt_le. intros Hlt.
        apply Qlt_le_weak, Qle_bool_iff in Hlt. congruence.
      * eexists. split; [reflexivity|]. split; [done | apply Qle_refl].
    + eexists. split; [reflexivity|]. split; [apply Qle_refl | done].
    + eexists. split; [reflexivity|]. split; [done | apply Qle_refl].
    + eexists. split; [reflexivity|]. split; done.
  - intros q H1 H2. rewrite limit_value_finite.
    destruct (Qle_bool q 1) eqn:Hq.
    + apply Qle_bool_iff in Hq. exists 1%Q. split; [done|].
      by apply Qle_antisym.
    + apply Qle_bool_iff in H2. rewrite H2. by exists q.
Qed.

(** X23. For a search id that is a document's name: a search that is not the
    caller's is answered like one that does not exist, 404 "Search not
    found", and nothing is written. *)
Theorem unowned_search_not_found (env : Env) (user : DecodedUser)
    (searchId : string) (w : World) :
  searchId <> "" ->
  document_id searchId ->
  store_fault env (calls w) = None ->
  (forall search,
      searches (db w) !! searchId = Some search ->
      s_user_id search <> Some (uid user)) ->
  let run := run_apify_search env (Verified user) (Some searchId) w in
  run.1 = Done (sendError 404 "Search not found") /\ quiet w run.2.
Proof.
  intros Hid _ Hstore Hforeign. cbv zeta.
  assert (Hrun : run_apify_search env (Verified user) (Some searchId) w
                 = (Done (sendError 404 "Search not found"),
                    mkWorld (db w) (identities w) (issued w) (journal w)
                      (clock w) (rolls w) (S (calls w)) (fetches w))).
  { rewrite run_apify_search_verified by done.
    unfold try_catch, run_search. unfold bind at 1. rewrite read_run, Hstore.
    cbv beta iota zeta.
    destruct (searches (db w) !! searchId) as [search|] eqn:Hsearch;
      [|by cbv [ret]].
    rewrite bool_decide_eq_false_2 by (by apply Hforeign). by cbv [ret]. }
  by rewrite Hrun.
Qed.

Lemma unowned_search_not_found_witness :
  (run_apify_search demo_env (Verified root) (Some "s1")
     (sample_world (sample_search 5) (sample_profile starter 7 2000 false))).1
  = Done (sendError 404 "Search not found").
Proof.
  refine (proj1
            (unowned_search_not_found demo_env root "s1"
               (sample_world (sample_search 5)
                  (sample_profile starter 7 2000 false)) _ _ _ _)).
  - discriminate.
  - reflexivity.
  - reflexivity.
  - intros search Hsearch. vm_compute in Hsearch.
    injection Hsearch as <-. discriminate.
Defined.

(** X24. When the caller's profile is missing the answer is 500 "Profile not
    found" and nothing is written: the search keeps the status it had. *)
Theorem missing_profile_leaves_search (env : Env) (user : DecodedUser)
    (searchId : string) (search : SearchData) (w : World) :
  searchId <> "" ->
  serves env w 2 ->
  searches (db w) !! searchId = Some search ->
  s_user_id search = Some (uid user) ->
  profiles (db w) !! uid user = None ->
  let run := run_apify_search env (Verified user) (Some searchId) w in
  run.1 = Done (sendError 500 "Profile not found") /\ quiet w run.2.
Proof.
  intros Hid Hserves Hsearch Hown Hprofile. cbv zeta.
  assert (H0 : store_fault env (calls w) = None).
  { rewrite <- (Nat.add_0_r (calls w)). apply Hserves. lia. }
  assert (H1 : store_fault env (S (calls w)) = None).
  { replace (S (calls w)) with (calls w + 1)%nat by lia. apply Hserves. lia. }
  assert (Hrun : run_apify_search env (Verified user) (Some searchId) w
                 = (Done (sendError 500 "Profile not found"),
                    mkWorld (db w) (identities w) (issued w) (journal w)
                      (clock w) (rolls w) (S (S (calls w))) (fetches w))).
  { rewrite run_apify_search_verified by done.
    unfold try_catch, run_search. unfold bind at 1.
    rewrite read_run, H0, Hsearch.
    rewrite bool_decide_eq_true_2 by done. cbn [negb].
    cbv beta iota zeta.
    unfold bind at 1. rewrite read_run. world_fields. rewrite H1, Hprofile.
    by cbv [ret]. }
  by rewrite Hrun.
Qed.

Lemma missing_profile_leaves_search_witness :
  (run_apify_search demo_env (Verified alice) (Some "s1")
     (mkWorld (mkStore ∅ {[ "s1" := sample_search 5 ]} ∅ ∅) ∅ ∅ [] 0 0 0 0)).1
  = Done (sendError 500 "Profile not found").
Proof.
  refine (proj1
            (missing_profile_leaves_search demo_env alice "s1" (sample_search 5)
               (mkWorld (mkStore ∅ {[ "s1" := sample_search 5 ]} ∅ ∅) ∅ ∅ []
                  0 0 0 0) _ _ _ _ _)).
  - discriminate.
  - intros k _. reflexivity.
  - vm_compute. reflexivity.
  - reflexivity.
  - vm_compute. reflexivity.
Defined.

(** X25. When the first read of the store fails, the handler has checked
    nothing and still records the failure under the id it was given: if the
    store then takes the write, the search of that id is marked failed with
    the store's message, whoever owns it, and a document is created when
    there was none; if the store fails again, nothing is written.  The
    answer is 500 with the first message either way. *)
Theorem failed_read_is_recorded_unchecked (env : Env) (user : DecodedUser)
    (searchId m : string) (w : World) :
  searchId <> "" ->
  store_fault env (calls w) = Some m ->
  let run := run_apify_search env (Verified user) (Some searchId) w in
  let before := default no_search_fields (searches (db w) !! searchId) in
  run.1 = Done (sendError 500 m)
  /\ match store_fault env (S (calls w)) with
     | Some _ => quiet w run.2
     | None =>
         exists doc,
           searches (db run.2) = <[searchId := doc]> (searches (db w))
           /\ s_status doc = Some failed
           /\ s_error_message doc = Some (Some m)
           /\ s_user_id doc = s_user_id before
           /\ s_total_results doc = s_total_results before
     end.
Proof.
  intros Hid Hfault. cbv zeta.
  set (patch := failed_patch m (clock_reading env (clock w))).
  assert (Hrun : run_apify_search env (Verified user) (Some searchId) w
                 = (Done (sendError 500 m),
                    match store_fault env (S (calls w)) with
                    | Some _ =>
                        mkWorld (db w) (identities w) (issued w) (journal w)
                          (S (clock w)) (rolls w) (S (S (calls w))) (fetches w)
                    | None =>
                        mkWorld (apply_batch [MergeSearch searchId patch] (db w))
                          (identities w) (issued w)
                          (journal w ++ [Committed [MergeSearch searchId patch]])
                          (S (clock w)) (rolls w) (S (S (calls w))) (fetches w)
                    end)).
  { rewrite run_apify_search_verified by done.
    unfold try_catch, run_search. unfold bind at 1. rewrite read_run, Hfault.
    cbv [swallow try_catch bind nowIso commit request ret]. world_fields.
    by destruct (store_fault env (S (calls w))). }
  rewrite Hrun. cbn [fst snd]. split; [done|].
  destruct (store_fault env (S (calls w))); [done|].
  world_fields. unfold apply_batch. cbn [foldl apply_op searches].
  eexists. by split_and!.
Qed.

Lemma failed_read_is_recorded_unchecked_witness :
  (run_apify_search (faulty_env [0%nat]) (Verified root) (Some "s1")
     (sample_world (sample_search 5) (sample_profile starter 7 2000 false))).1
  = Done (sendError 500 "unavailable").
Proof.
  refine (proj1
            (failed_read_is_recorded_unchecked (faulty_env [0%nat]) root "s1"
               "unavailable"
               (sample_world (sample_search 5)
                  (sample_profile starter 7 2000 false)) _ _)).
  - discriminate.
  - reflexivity.
Defined.

(** X26. A provider run that fails (the call cannot be made, is answered
    with an error status, or its answer cannot be read) ends the request
    with 500 and the failure's message, for a refusal
    "Apify error [status]: details"; the search, marked running before the
    call, is marked failed with that message; no lead is written and no
    profile touched. *)
Theorem provider_failure_marks_failed (env : Env) (user : DecodedUser)
    (searchId : string) (search : SearchData) (profile : ProfileData)
    (m : string) (w : World) :
  searchId <> "" ->
  store_available env ->
  truthy (APIFY_TOKEN env) = true ->
  searches (db w) !! searchId = Some search ->
  s_user_id search = Some (uid user) ->
  profiles (db w) !! uid user = Some profile ->
  guard profile = Proceed ->
  provider_failure
    (apify_reply env (fetches w) (search_query search) (s_max_results search))
  = Some m ->
  let run := run_apify_search env (Verified user) (Some searchId) w in
  run.1 = Done (sendError 500 m)
  /\ (exists doc,
        searches (db run.2) = <[searchId := doc]> (searches (db w))
        /\ s_status doc = Some failed
        /\ s_error_message doc = Some (Some m))
  /\ leads (db run.2) = leads (db w)
  /\ profiles (db run.2) = profiles (db w)
  /\ exists t1 t2,
       journal run.2
       = journal w
         ++ [Committed [MergeSearch searchId (running_patch t1)];
             ProviderRun (search_query search) (s_max_results search);
             Committed [MergeSearch searchId (failed_patch m t2)]].
Proof.
  intros Hid Ha Htok Hsearch Hown Hprofile Hguard Hfail. cbv zeta.
  destruct (run_apify_search env (Verified user) (Some searchId) w)
    as [r w'] eqn:Hrun.
  cbn [fst snd]. revert Hrun.
  rewrite (proceeding_run env user searchId w search profile) by done.
  cbv zeta. unfold try_catch, run_live. fold (search_query search).
  unfold bind at 1. unfold start_provider_run. world_fields.
  destruct (apify_reply env (fetches w) (search_query search)
              (s_max_results search)) as [m'|status details|m'|run];
    cbn [provider_failure] in Hfail; try discriminate;
    injection Hfail as <-;
    cbv [swallow try_catch bind nowIso commit request ret]; world_fields;
    rewrite Ha; cbv beta iota; world_fields; intros [= <- <-];
    world_fields;
    unfold apply_batch; cbn [foldl apply_op profiles searches leads];
    rewrite insert_insert_eq, lookup_insert_eq;
    (split_and!; try done;
     [eexists; by split_and!
     |eexists _, _; by rewrite <- !(assoc_L (++))]).
Qed.

Lemma provider_failure_marks_failed_witness :
  (run_apify_search refusing_env (Verified alice) (Some "s1")
     (sample_world (sample_search 5) (sample_profile starter 7 2000 false))).1
  = Done (sendError 500 "Apify error [402]: payment required").
Proof.
  refine (proj1
            (provider_failure_marks_failed refusing_env alice "s1"
               (sample_search 5) (sample_profile starter 7 2000 false)
               "Apify error [402]: payment required"
               (sample_world (sample_search 5)
                  (sample_profile starter 7 2000 false))
               _ _ _ _ _ _ _ _)).
  - discriminate.
  - intros k. reflexivity.
  - reflexivity.
  - vm_compute. reflexivity.
  - reflexivity.
  - vm_compute. reflexivity.
  - reflexivity.
  - vm_compute. reflexivity.
Defined.

(** X27. A provider run that yields nothing to store (no dataset id in its
    answer, or a dataset that reads as something else than an array) ends
    the request with success and zero leads in live mode; the search is
    marked completed with no result; no lead is written and no profile
    touched. *)
Theorem empty_provider_run_completes (env : Env) (user : DecodedUser)
    (searchId : string) (search : SearchData) (profile : ProfileData)
    (run : ApifyRun) (w : World) :
  searchId <> "" ->
  store_available env ->
  truthy (APIFY_TOKEN env) = true ->
  searches (db w) !! searchId = Some search ->
  s_user_id search = Some (uid user) ->
  profiles (db w) !! uid user = Some profile ->
  guard profile = Proceed ->
  apify_reply env (fetches w) (search_query search) (s_max_results search)
  = ApifyAccepted run ->
  yields_nothing env w run ->
  let request := run_apify_search env (Verified user) (Some searchId) w in
  request.1 = Done (res_json (RunBody live 0))
  /\ (exists doc,
        searches (db request.2) = <[searchId := doc]> (searches (db w))
        /\ s_status doc = Some completed
        /\ s_total_results doc = Some 0
        /\ s_error_message doc = Some None)
  /\ leads (db request.2) = leads (db w)
  /\ profiles (db request.2) = profiles (db w).
Proof.
  intros Hid Ha Htok Hsearch Hown Hprofile Hguard Hreply Hnothing. cbv zeta.
  destruct (run_apify_search env (Verified user) (Some searchId) w)
    as [r w'] eqn:Hrun.
  cbn [fst snd]. revert Hrun.
  rewrite (proceeding_run env user searchId w search profile) by done.
  cbv zeta. unfold try_catch, run_live. fold (search_query search).
  unfold bind at 1. unfold start_provider_run. world_fields. rewrite Hreply.
  destruct Hnothing as [Hds|(Hds & items & Hitems & Hshape)]; rewrite Hds;
    cbn [negb].
  - destruct (truthy (run_data run ≫= run_id));
      cbv [bind nowIso commit request ret]; world_fields;
      rewrite !Ha; cbv beta iota; world_fields;
      rewrite ?Ha; cbv beta iota; world_fields; intros [= <- <-];
      world_fields;
      unfold apply_batch; cbn [foldl apply_op profiles searches leads];
      rewrite ?insert_insert_eq, ?lookup_insert_eq;
      (split_and!; try done; eexists; by split_and!).
  - destruct items as [| | | |xs|]; try (by destruct (Hshape xs));
      destruct (truthy (run_data run ≫= run_id));
      do 4 (cbv [bind nowIso commit request ret read_dataset
                 writeLeadsAndFinalize maybeEnrichEmails];
            world_fields; rewrite ?Ha, ?Hitems; cbv beta iota; world_fields;
            cbn [length Nat.eqb enrich_candidates List.filter take for_each]);
      destruct (default starter (p_plan profile)); cbv [ret];
      intros [= <- <-]; world_fields;
      unfold apply_batch; cbn [foldl apply_op profiles searches leads];
      rewrite ?insert_insert_eq, ?lookup_insert_eq;
      (split_and!; try done; eexists; by split_and!).
Qed.

Lemma empty_provider_run_completes_witness :
  (run_apify_search puzzling_env (Verified alice) (Some "s1")
     (sample_world (sample_search 5) (sample_profile growth 7 5000 false))).1
  = Done (res_json (RunBody live 0)).
Proof.
  refine (proj1
            (empty_provider_run_completes puzzling_env alice "s1"
               (sample_search 5) (sample_profile growth 7 5000 false)
               (mkApifyRun (Some (mkApifyRunData (Some "run1") (Some "ds1"))))
               (sample_world (sample_search 5)
                  (sample_profile growth 7 5000 false))
               _ _ _ _ _ _ _ _ _)).
  - discriminate.
  - intros k. reflexivity.
  - reflexivity.
  - vm_compute. reflexivity.
  - reflexivity.
  - vm_compute. reflexivity.
  - reflexivity.
  - reflexivity.
  - right. split; [reflexivity|]. exists (JObject []).
    split; [reflexivity | discriminate].
Defined.

(** X28. Whatever the store does, [deleteByUserId] ends, normally or with
    the store's error; what it committed are deletions of that account's
    documents in that collection, in batches of at most 400; every other
    document is as it was; and when it ends normally none of the account's
    documents is left. *)
Theorem deleteByUserId_spares_others (env : Env) (c : Collection)
    (userId : string) (w : World) :
  let run := deleteByUserId env c userId w in
  (run.1 = Done tt \/ exists m, run.1 = Thrown m)
  /\ (exists batches,
        journal run.2 = journal w ++ deletion_batches c batches
        /\ Forall batch_sized batches)
  /\ purged c userId (db run.2) = purged c userId (db w)
  /\ identities run.2 = identities w
  /\ (run.1 = Done tt -> db run.2 = purged c userId (db w)).
Proof.
  cbv zeta. unfold deleteByUserId.
  destruct (deleteByUserId_loop_safe env c userId
              (S (length (user_docs c userId (db w)))) w)
    as (r & w' & batches & -> & Hr & Hi & Hj & Hsized & Hp & Hdone); [lia|].
  cbn [fst snd]. split_and!; try done. by exists batches.
Qed.

(** X29. On the growth and pro plans the enrichment pass fetches the website
    of every candidate exactly once, in the order of the payload, whether
    or not a fetch, a page or the store fails, and ends normally; on the
    starter plan it does nothing at all. *)
Theorem enrichment_fetches_each_candidate_once (env : Env) (plan : PlanType)
    (searchId : string) (items : list LeadPayload) (w : World) :
  let run := maybeEnrichEmails env plan searchId items w in
  run.1 = Done tt
  /\ (plan = starter -> run.2 = w)
  /\ exists evs,
       journal run.2 = journal w ++ evs
       /\ pages_fetched evs
          = match plan with
            | starter => []
            | _ => (fun lead => default "" (website lead))
                     <$> enrich_candidates items
            end.
Proof.
  cbv zeta. destruct plan; cbn [maybeEnrichEmails].
  - split_and!; [done|done|]. exists []. by rewrite (right_id_L [] (++)).
  - destruct (for_each_pages env searchId (enrich_candidates items) w)
      as (evs & Hr & Hj & Hp).
    split_and!; [done|done|]. by exists evs.
  - destruct (for_each_pages env searchId (enrich_candidates items) w)
      as (evs & Hr & Hj & Hp).
    split_and!; [done|done|]. by exists evs.
Qed.
